(** * AlphaDec codec of mcpclock: a shallow embedding and its properties

    The repository carries two versions of the codec:
    - [Cascade]   embeds [src/lib/alphadec.js], which divides the scaled
      year length level by level (period, arc, bar, beat);
    - [BeatIndex] embeds the second [alphadec] object, which computes one
      beat index in [0, 67600) and splits it in mixed radix.

    JavaScript values are modelled as follows: a BigInt is a [Z], with [/]
    and [%] as [Z.quot] and [Z.rem] (truncation towards zero); a Number
    that holds an integer below 2^53 is a [Z] as well; a string is a
    [string]; a thrown exception is the [Throw] case of [result]; the time
    value of a [Date] is an [option Z] with [None] for NaN. *)

From Stdlib Require Import ZArith Lia Bool List String Ascii.
Import ListNotations.

Local Open Scope Z_scope.

(** ** Exceptions *)

Inductive exn : Type :=
| Error (message : string)
| RangeError (message : string).

Inductive result (A : Type) : Type :=
| Ok (a : A)
| Throw (e : exn).

Arguments Ok {A} a.
Arguments Throw {A} e.

Definition bind {A B : Type} (r : result A) (k : A -> result B) : result B :=
  match r with
  | Ok a => k a
  | Throw e => Throw e
  end.

Declare Scope result_scope.
Delimit Scope result_scope with result.
Notation "'let*' x ':=' r 'in' k" := (bind r (fun x => k))
  (at level 10, x name, r at level 100, k at level 200) : result_scope.

(** ** The host's Date arithmetic (ECMA-262, section "Time Values")

    The codec uses three facilities of the host: [getUTCFullYear],
    [Date.UTC(y, 0, 1, ...)] and [new Date(ms)].  They are defined here
    with the formulas of the language standard. *)

Module JSDate.

Definition msPerDay : Z := 86400000.

(** The largest magnitude of a time value: 8.64e15 ms. *)
Definition maxTime : Z := 8640000000000000.

Definition DayFromYear (y : Z) : Z :=
  365 * (y - 1970) + (y - 1969) / 4 - (y - 1901) / 100 + (y - 1601) / 400.

Definition TimeFromYear (y : Z) : Z := msPerDay * DayFromYear y.

Definition Day (t : Z) : Z := t / msPerDay.

(** [YearFromTime t] is the largest year whose start is not after [t].
    The mean Gregorian year has 146097/400 days, which gives an estimate
    that is off by one year at most; the two comparisons repair it
    (see [YearFromTime_spec] and [YearFromTime_unique]). *)
Definition YearFromTime (t : Z) : Z :=
  let y0 := 1970 + (400 * Day t) / 146097 in
  if t <? TimeFromYear y0 then y0 - 1
  else if TimeFromYear (y0 + 1) <=? t then y0 + 1
  else y0.

Definition TimeClip (t : Z) : option Z :=
  if Z.abs t <=? maxTime then Some t else None.

(** [d.getUTCFullYear()] of a Date with a finite time value [t]. *)
Definition getUTCFullYear (t : Z) : Z := YearFromTime t.

(** [Date.UTC(y, 0, 1, 0, 0, 0, 0)] and [Date.UTC(y, 0, 1)] for an
    integer [y]: a year from 0 to 99 stands for 1900 + y. *)
Definition UTC_Jan1 (y : Z) : option Z :=
  let yr := if (0 <=? y) && (y <=? 99) then 1900 + y else y in
  TimeClip (TimeFromYear yr).

(** [new Date(v)] for a number [v]: the time value is clipped. *)
Definition newDate (v : option Z) : option Z :=
  match v with
  | Some t => TimeClip t
  | None => None
  end.

End JSDate.

Import JSDate.

(** ** The host's strings

    Only what the codec calls: [String.fromCharCode], [charCodeAt(0)],
    the decimal rendering of an integer (template literals, [String(n)]),
    [padStart], [Number(s)] and [BigInt(s)] on digit strings, the
    comparison [<] of strings, and [match] with an anchored regular
    expression made of fixed runs of character classes. *)

Module JSString.

Local Open Scope string_scope.
Local Open Scope Z_scope.

Definition fromCharCode (n : Z) : string :=
  String (ascii_of_N (Z.to_N n)) EmptyString.

Definition codeOf (c : ascii) : Z := Z.of_N (N_of_ascii c).

(** [s.charCodeAt(0)]; NaN on the empty string is not needed here. *)
Definition charCodeAt0 (s : string) : Z :=
  match s with
  | String c _ => codeOf c
  | EmptyString => 0
  end.

Definition digitChar (d : Z) : ascii := ascii_of_N (Z.to_N (48 + d)).

(** The decimal digits of a natural number, most significant first. *)
Fixpoint digitsOf (fuel : nat) (n : Z) (acc : string) : string :=
  match fuel with
  | O => acc
  | S fuel' =>
      let acc' := String (digitChar (n mod 10)) acc in
      if n <? 10 then acc' else digitsOf fuel' (n / 10) acc'
  end.

(** A number below [2 ^ (log2 n + 1)] has at most [log2 n + 1] digits. *)
Definition digitsFuel (n : Z) : nat := S (Z.to_nat (Z.log2 n)).

(** [String(z)] and [`${z}`] for an integer Number or a BigInt. *)
Definition ofInt (z : Z) : string :=
  if z <? 0 then String "-" (digitsOf (digitsFuel (- z)) (- z) EmptyString)
  else digitsOf (digitsFuel z) z EmptyString.

(** The first [n] characters of [pad] repeated; [cur] is what is left of
    the current copy. *)
Fixpoint fillTo (n : nat) (pad cur : string) : string :=
  match n with
  | O => EmptyString
  | S n' =>
      match cur with
      | String c r => String c (fillTo n' pad r)
      | EmptyString =>
          match pad with
          | String c r => String c (fillTo n' pad r)
          | EmptyString => EmptyString
          end
      end
  end.

Definition padStart (s : string) (targetLength : nat) (padString : string)
  : string :=
  if (targetLength <=? String.length s)%nat then s
  else fillTo (targetLength - String.length s) padString padString ++ s.

(** [Number(s)] and [BigInt(s)] for a string of decimal digits. *)
Definition digitsValueFrom (acc : Z) (s : string) : Z :=
  fold_left (fun v c => 10 * v + (codeOf c - 48)) (list_ascii_of_string s) acc.

Definition toInt (s : string) : Z := digitsValueFrom 0 s.

(** [s1 < s2]: code units compared from the left. *)
Definition lt (s1 s2 : string) : bool := String.ltb s1 s2.

(** *** Regular expressions of the shape [^ piece ... piece $] *)

Inductive cclass : Type :=
| Digit                (* \d and [0-9] *)
| Upper                (* [A-Z] *)
| Lit (c : ascii).

Definition inClass (k : cclass) (c : ascii) : bool :=
  match k with
  | Digit => (48 <=? codeOf c) && (codeOf c <=? 57)
  | Upper => (65 <=? codeOf c) && (codeOf c <=? 90)
  | Lit c' => Ascii.eqb c c'
  end.

(** A piece is [count] characters of one class, in a capture group or
    not. *)
Record piece : Type := mkPiece {
  cls : cclass;
  count : nat;
  captured : bool
}.

Fixpoint takeClass (k : cclass) (n : nat) (s : string)
  : option (string * string) :=
  match n with
  | O => Some (EmptyString, s)
  | S n' =>
      match s with
      | String c r =>
          if inClass k c then
            match takeClass k n' r with
            | Some (run, rest) => Some (String c run, rest)
            | None => None
            end
          else None
      | EmptyString => None
      end
  end.

(** [s.match(re)]: the captured groups in order, or [None] for null. *)
Fixpoint matchPieces (re : list piece) (s : string) : option (list string) :=
  match re with
  | [] => match s with EmptyString => Some [] | String _ _ => None end
  | p :: re' =>
      match takeClass (cls p) (count p) s with
      | Some (run, rest) =>
          match matchPieces re' rest with
          | Some groups => Some (if captured p then run :: groups else groups)
          | None => None
          end
      | None => None
      end
  end.

End JSString.

(** ** The value that [encode] returns *)

Record AlphaDec : Type := mkAlphaDec {
  canonical : string;
  year : Z;
  period : Z;
  arc : Z;
  bar : Z;
  beat : Z;
  msOffsetInBeat : Z;
  periodLetter : string;
  barLetter : string;
  readable : string;
  arcStartMsInYear : Z;
  arcEndMsInYear : Z
}.

(** ** What the two versions share *)

Local Open Scope result_scope.

(** [BigInt(n)] of a Number: NaN is refused. *)
Definition BigInt (n : option Z) : result Z :=
  match n with
  | Some z => Ok z
  | None =>
      Throw (RangeError
        "The number NaN cannot be converted to a BigInt because it is not an integer")
  end.

(** [Number(b)] of a BigInt.  The conversion is exact below 2^53; above,
    it rounds without changing the sign or falling under 2^53, so the
    range test of [_toBase26] sees the same outcome.  A record is built
    only after that test has passed twice; the instant then lies inside
    its year (see [Cascade_encode_outcomes], [BeatIndex_encode_outcomes])
    and every value converted for the record is at most the length of
    a year in milliseconds. *)
Definition Number (b : Z) : Z := b.

(** [d.getTime() - Date.UTC(y, 0, 1)], a Number that is NaN when
    [Date.UTC] is. *)
Definition sinceYearStart (d : Z) (y : Z) : option Z :=
  option_map (fun start => d - start) (UTC_Jan1 y).

(** [(y % 4 === 0 && y % 100 !== 0) || y % 400 === 0] *)
Definition isLeap (y : Z) : bool :=
  (Z.rem y 4 =? 0) && negb (Z.rem y 100 =? 0) || (Z.rem y 400 =? 0).

Definition daysInYear (y : Z) : Z := if isLeap y then 366 else 365.

Definition dquote : string := String (ascii_of_nat 34) EmptyString.

(** [/^(\d{4})_([A-Z])(\d)([A-Z])(\d)_([0-9]{6})$/] *)
Definition canonRegex : list JSString.piece :=
  [ JSString.mkPiece JSString.Digit 4 true;
    JSString.mkPiece (JSString.Lit "_") 1 false;
    JSString.mkPiece JSString.Upper 1 true;
    JSString.mkPiece JSString.Digit 1 true;
    JSString.mkPiece JSString.Upper 1 true;
    JSString.mkPiece JSString.Digit 1 true;
    JSString.mkPiece (JSString.Lit "_") 1 false;
    JSString.mkPiece JSString.Digit 6 true ].

(** ** [src/lib/alphadec.js]: the division cascade *)

Module Cascade.

Definition _SCALER_N : Z := 1000000.

Definition _toBase26 (n : Z) : result string :=
  if (n <? 0) || (n >? 25)
  then Throw (Error "Invalid index for Base26 single char conversion.")
  else Ok (JSString.fromCharCode (65 + n)).

Definition encode (d : Z) : result AlphaDec :=
  let y := getUTCFullYear d in
  let SCALER_N := _SCALER_N in
  let msSinceYearStart := sinceYearStart d y in
  let* msSinceYearStart_n := BigInt msSinceYearStart in
  let totalScaledMsSinceYearStart := msSinceYearStart_n * SCALER_N in
  let yearTotalScaledMs := daysInYear y * 86400000 * SCALER_N in
  let periodSizeScaled := yearTotalScaledMs ÷ 26 in
  let arcSizeScaled := periodSizeScaled ÷ 10 in
  let barSizeScaled := arcSizeScaled ÷ 26 in
  let beatSizeScaled := barSizeScaled ÷ 10 in
  let remainingScaledMs := totalScaledMsSinceYearStart in
  let p_idx := remainingScaledMs ÷ periodSizeScaled in
  let remainingScaledMs := remainingScaledMs - p_idx * periodSizeScaled in
  let a_val := remainingScaledMs ÷ arcSizeScaled in
  let remainingScaledMs := remainingScaledMs - a_val * arcSizeScaled in
  let currentArcStartScaledMs :=
    p_idx * periodSizeScaled + a_val * arcSizeScaled in
  let arcStartMsInYear := Number (currentArcStartScaledMs ÷ SCALER_N) in
  let arcEndMsInYear :=
    Number ((currentArcStartScaledMs + arcSizeScaled) ÷ SCALER_N) in
  let b_idx := remainingScaledMs ÷ barSizeScaled in
  let remainingScaledMs := remainingScaledMs - b_idx * barSizeScaled in
  let t_val := remainingScaledMs ÷ beatSizeScaled in
  let remainingScaledMs := remainingScaledMs - t_val * beatSizeScaled in
  let msOffsetInBeat := remainingScaledMs ÷ SCALER_N in
  let* periodLetter := _toBase26 (Number p_idx) in
  let* barLetter := _toBase26 (Number b_idx) in
  let canonicalMsPart :=
    JSString.padStart (JSString.ofInt msOffsetInBeat) 6 "0" in
  let canonical :=
    (((JSString.ofInt y ++ "_" ++ periodLetter ++ JSString.ofInt a_val)
      ++ (barLetter ++ JSString.ofInt t_val ++ "_"))
     ++ canonicalMsPart)%string in
  let readable :=
    (periodLetter ++ JSString.ofInt a_val ++ ":"
     ++ barLetter ++ JSString.ofInt t_val)%string in
  Ok {| canonical := canonical;
        year := y;
        period := Number p_idx;
        arc := Number a_val;
        bar := Number b_idx;
        beat := Number t_val;
        msOffsetInBeat := Number msOffsetInBeat;
        periodLetter := periodLetter;
        barLetter := barLetter;
        readable := readable;
        arcStartMsInYear := arcStartMsInYear;
        arcEndMsInYear := arcEndMsInYear |}.

Definition badCanonical (canon : string) : exn :=
  Error ("Bad AlphaDec canonical string (format YYYY_PaBt_MMMMMM): "
         ++ dquote ++ canon ++ dquote)%string.

Definition decode (canon : string) : result (option Z) :=
  match JSString.matchPieces canonRegex canon with
  | Some [yyyyStr; pLtr; arcStr; barLtr; beatStr; msOffsetStr] =>
      let SCALER_N := _SCALER_N in
      let year := JSString.toInt yyyyStr in
      let pIndex := JSString.charCodeAt0 pLtr - 65 in
      let arcVal := JSString.toInt arcStr in
      let barIndex := JSString.charCodeAt0 barLtr - 65 in
      let beatVal := JSString.toInt beatStr in
      let msOffsetInBeat_input := JSString.toInt msOffsetStr in
      let yearTotalScaledMs := daysInYear year * 86400000 * SCALER_N in
      let periodSizeScaled := yearTotalScaledMs ÷ 26 in
      let arcSizeScaled := periodSizeScaled ÷ 10 in
      let barSizeScaled := arcSizeScaled ÷ 26 in
      let beatSizeScaled := barSizeScaled ÷ 10 in
      let totalScaledMsFromUnits :=
        pIndex * periodSizeScaled
        + arcVal * arcSizeScaled
        + barIndex * barSizeScaled
        + beatVal * beatSizeScaled
        + msOffsetInBeat_input * SCALER_N in
      let totalMsSinceYearStart_final := totalScaledMsFromUnits ÷ SCALER_N in
      let startOfYearMs := UTC_Jan1 year in
      let targetTimestampMs :=
        option_map (fun s => s + totalMsSinceYearStart_final) startOfYearMs in
      Ok (newDate targetTimestampMs)
  | _ => Throw (badCanonical canon)
  end.

End Cascade.

(** ** The second [alphadec] object: one beat index, split in mixed radix *)

Module BeatIndex.

Definition _SCALER_N : Z := 1000000.

Definition _toBase26 (n : Z) : result string :=
  if (n <? 0) || (n >? 25)
  then Throw (Error "Invalid index for Base26.")
  else Ok (JSString.fromCharCode (65 + n)).

Definition encode (d : Z) : result AlphaDec :=
  let y := getUTCFullYear d in
  let BEATS_IN_YEAR := 67600 in
  let yearTotalMs := daysInYear y * 86400000 in
  let* msSinceYearStart := BigInt (sinceYearStart d y) in
  (* scaledBeatProgress is computed and never read *)
  let scaledBeatProgress :=
    (msSinceYearStart * BEATS_IN_YEAR * _SCALER_N) ÷ yearTotalMs in
  let totalBeatIndex := (msSinceYearStart * BEATS_IN_YEAR) ÷ yearTotalMs in
  let beatStartScaledMs :=
    (yearTotalMs * totalBeatIndex * _SCALER_N) ÷ BEATS_IN_YEAR in
  let totalScaledMs := msSinceYearStart * _SCALER_N in
  let scaledMsOffset := totalScaledMs - beatStartScaledMs in
  let msOffsetInBeat := Number (scaledMsOffset ÷ _SCALER_N) in
  let remainingBeats := totalBeatIndex in
  let p_idx := remainingBeats ÷ 2600 in
  let remainingBeats := Z.rem remainingBeats 2600 in
  let a_val := remainingBeats ÷ 260 in
  let remainingBeats := Z.rem remainingBeats 260 in
  let b_idx := remainingBeats ÷ 10 in
  let t_val := Z.rem remainingBeats 10 in
  let currentArcStartBeats := p_idx * 2600 + a_val * 260 in
  let arcStartScaledMs :=
    (yearTotalMs * currentArcStartBeats * _SCALER_N) ÷ BEATS_IN_YEAR in
  let arcEndScaledMs :=
    (yearTotalMs * (currentArcStartBeats + 260) * _SCALER_N)
    ÷ BEATS_IN_YEAR in
  let arcStartMsInYear := Number (arcStartScaledMs ÷ _SCALER_N) in
  let arcEndMsInYear := Number (arcEndScaledMs ÷ _SCALER_N) in
  let* periodLetter := _toBase26 (Number p_idx) in
  let* barLetter := _toBase26 (Number b_idx) in
  let canonicalMsPart :=
    JSString.padStart (JSString.ofInt msOffsetInBeat) 6 "0" in
  let canonical :=
    (JSString.ofInt y ++ "_" ++ periodLetter ++ JSString.ofInt a_val
     ++ barLetter ++ JSString.ofInt t_val ++ "_" ++ canonicalMsPart)%string in
  let readable :=
    (periodLetter ++ JSString.ofInt a_val ++ ":"
     ++ barLetter ++ JSString.ofInt t_val)%string in
  Ok {| canonical := canonical;
        year := y;
        period := Number p_idx;
        arc := Number a_val;
        bar := Number b_idx;
        beat := Number t_val;
        msOffsetInBeat := Number msOffsetInBeat;
        periodLetter := periodLetter;
        barLetter := barLetter;
        readable := readable;
        arcStartMsInYear := arcStartMsInYear;
        arcEndMsInYear := arcEndMsInYear |}.

Definition badCanonical (canon : string) : exn :=
  Error ("Bad AlphaDec canonical string: " ++ dquote ++ canon ++ dquote)%string.

Definition decode (canon : string) : result (option Z) :=
  match JSString.matchPieces canonRegex canon with
  | Some [yStr; pLtr; aStr; bLtr; tStr; msStr] =>
      let year := JSString.toInt yStr in
      let BEATS_IN_YEAR := 67600 in
      let yearTotalScaledMs := daysInYear year * 86400000 * _SCALER_N in
      let pIndex := JSString.charCodeAt0 pLtr - 65 in
      let totalBeats :=
        pIndex * 2600
        + JSString.toInt aStr * 260
        + (JSString.charCodeAt0 bLtr - 65) * 10
        + JSString.toInt tStr in
      let beatStartScaledMs :=
        (yearTotalScaledMs * totalBeats) ÷ BEATS_IN_YEAR in
      let totalScaledMs :=
        beatStartScaledMs + JSString.toInt msStr * _SCALER_N in
      let totalMsSinceYearStart := totalScaledMs ÷ _SCALER_N in
      let startOfYearMs := UTC_Jan1 year in
      Ok (newDate
            (option_map (fun s => s + totalMsSinceYearStart) startOfYearMs))
  | _ => Throw (badCanonical canon)
  end.

End BeatIndex.

(** ** The beat grid, as the properties speak of it

    These definitions are not code of the repository: they name the
    quantities of the grid with floor division, so that the theorems can
    say what [encode] and [decode] compute. *)

Definition yearTotalMs (y : Z) : Z := daysInYear y * 86400000.

(** The two lengths a year can have, in milliseconds. *)
Definition yearLen (Y : Z) : Prop := Y = 31536000000 \/ Y = 31622400000.

Definition beatIndexOf (Y ms : Z) : Z := ms * 67600 / Y.

Definition beatStartMs (Y k : Z) : Z := Y * k / 67600.

Definition beatStartScaled (Y k : Z) : Z := Y * k * 1000000 / 67600.

Definition offsetOf (Y ms : Z) : Z :=
  (ms * 1000000 - beatStartScaled Y (beatIndexOf Y ms)) / 1000000.

(** The sizes of the cascade: every level is the truncated tenth or
    twenty-sixth of the level above, in millionths of a millisecond. *)
Definition periodSize (Y : Z) : Z := Y * 1000000 ÷ 26.
Definition arcSize (Y : Z) : Z := periodSize Y ÷ 10.
Definition barSize (Y : Z) : Z := arcSize Y ÷ 26.
Definition beatSize (Y : Z) : Z := barSize Y ÷ 10.

(** The start of beat [2600 p + 260 a + 10 b + t] as the cascade sees it. *)
Definition cascadeStart (Y p a b t : Z) : Z :=
  p * periodSize Y + a * arcSize Y + b * barSize Y + t * beatSize Y.

(** An instant of a year that the canonical format documents: four
    digits, neither padded nor cut. *)
Definition validInstant (x : Z) : Prop := 1000 <= getUTCFullYear x <= 9999.

(** Milliseconds since the start of the instant's year, and its beat. *)
Definition msInYear (x : Z) : Z := x - TimeFromYear (getUTCFullYear x).

Definition beatOfInstant (x : Z) : Z :=
  beatIndexOf (yearTotalMs (getUTCFullYear x)) (msInYear x).

(** The instant is one of the 400 points that cut its year in 400 equal
    parts. *)
Definition onFourHundredth (x : Z) : Prop :=
  (400 * msInYear x) mod yearTotalMs (getUTCFullYear x) = 0.

(** The round trip through a codec gives the instant back. *)
Definition exactRoundTrip
  (enc : Z -> result AlphaDec) (dec : string -> result (option Z)) (x : Z)
  : Prop :=
  exists r, enc x = Ok r /\ dec (canonical r) = Ok (Some x).

(** An instant that the host places inside its own calendar year. *)
Definition inOwnYear (x : Z) : Prop :=
  exists ms, sinceYearStart x (getUTCFullYear x) = Some ms
             /\ 0 <= ms < yearTotalMs (getUTCFullYear x).

(** [k] decimal digits of [n], most significant first, in front of [acc]. *)
Fixpoint fixedDigits (k : nat) (n : Z) (acc : string) : string :=
  match k with
  | O => acc
  | S k' => fixedDigits k' (n / 10) (String (JSString.digitChar (n mod 10)) acc)
  end.

Fixpoint zeros (k : nat) : string :=
  match k with
  | O => EmptyString
  | S k' => String "0" (zeros k')
  end.

Definition letterOf (n : Z) : string := JSString.fromCharCode (65 + n).

Definition canonOf (y p a b t off : Z) : string :=
  (JSString.ofInt y ++ "_" ++ letterOf p ++ JSString.ofInt a
   ++ letterOf b ++ JSString.ofInt t ++ "_"
   ++ JSString.padStart (JSString.ofInt off) 6 "0")%string.

Definition readableOf (p a b t : Z) : string :=
  (letterOf p ++ JSString.ofInt a ++ ":" ++ letterOf b ++ JSString.ofInt t)%string.

(** The value of [encode] for the instant [ms] milliseconds into year
    [y]; the two versions differ in the arc bounds only. *)
Definition gridRecord (y ms arcStart arcEnd : Z) : AlphaDec :=
  let k := beatIndexOf (yearTotalMs y) ms in
  let p := k / 2600 in
  let a := k mod 2600 / 260 in
  let b := k mod 260 / 10 in
  let t := k mod 10 in
  let off := offsetOf (yearTotalMs y) ms in
  {| canonical := canonOf y p a b t off;
     year := y;
     period := p;
     arc := a;
     bar := b;
     beat := t;
     msOffsetInBeat := off;
     periodLetter := letterOf p;
     barLetter := letterOf b;
     readable := readableOf p a b t;
     arcStartMsInYear := arcStart;
     arcEndMsInYear := arcEnd |}.

Definition letterChar (n : Z) : ascii := ascii_of_N (Z.to_N (65 + n)).

(** What follows the year in a canonical string. *)
Definition unitTail (p a b t off : Z) : string :=
  String "_" (String (letterChar p) (String (JSString.digitChar a)
    (String (letterChar b) (String (JSString.digitChar t)
      (String "_" (fixedDigits 6 off EmptyString)))))).

Definition digitVal (c : ascii) : Z := JSString.codeOf c - 48.

Definition letterVal (c : ascii) : Z := JSString.codeOf c - 65.

Definition isDigit (c : ascii) : Prop := JSString.inClass JSString.Digit c = true.

Definition isUpper (c : ascii) : Prop := JSString.inClass JSString.Upper c = true.

(** The regular expression read as a shape: four digits, an underscore,
    letter, digit, letter, digit, an underscore, six digits. *)
Inductive canonShape : string -> Prop :=
| CanonShape (y1 y2 y3 y4 P a B t m1 m2 m3 m4 m5 m6 : ascii) :
    isDigit y1 -> isDigit y2 -> isDigit y3 -> isDigit y4 ->
    isUpper P -> isDigit a -> isUpper B -> isDigit t ->
    isDigit m1 -> isDigit m2 -> isDigit m3 ->
    isDigit m4 -> isDigit m5 -> isDigit m6 ->
    canonShape
      (String y1 (String y2 (String y3 (String y4 (String "_"
        (String P (String a (String B (String t (String "_"
          (String m1 (String m2 (String m3 (String m4 (String m5
            (String m6 EmptyString)))))))))))))))).

Definition value4 (c1 c2 c3 c4 : ascii) : Z :=
  1000 * digitVal c1 + 100 * digitVal c2 + 10 * digitVal c3 + digitVal c4.

Definition value6 (c1 c2 c3 c4 c5 c6 : ascii) : Z :=
  100000 * digitVal c1 + 10000 * digitVal c2 + 1000 * digitVal c3
  + 100 * digitVal c4 + 10 * digitVal c5 + digitVal c6.

Definition beatOfChars (P a B t : ascii) : Z :=
  2600 * letterVal P + 260 * digitVal a + 10 * letterVal B + digitVal t.

(** The year whose start [Date.UTC] returns for a parsed year. *)
Definition utcYear (y : Z) : Z := if y <=? 99 then 1900 + y else y.

Definition matchesCanon (s : string) : bool :=
  match JSString.matchPieces canonRegex s with
  | Some _ => true
  | None => false
  end.

(** ** The arc bounds of the two versions

    Named here with the expressions of the source, for the properties
    that speak of [arcStartMsInYear] and [arcEndMsInYear]. *)

Definition cascadeArcStart (Y p a : Z) : Z :=
  (p * periodSize Y + a * arcSize Y) ÷ 1000000.

Definition cascadeArcEnd (Y p a : Z) : Z :=
  (p * periodSize Y + a * arcSize Y + arcSize Y) ÷ 1000000.

Definition beatIndexArcStart (Y p a : Z) : Z :=
  Y * (p * 2600 + a * 260) * 1000000 ÷ 67600 ÷ 1000000.

Definition beatIndexArcEnd (Y p a : Z) : Z :=
  Y * (p * 2600 + a * 260 + 260) * 1000000 ÷ 67600 ÷ 1000000.

(** The smallest whole number not below [a / b], for a positive [b]. *)
Definition ceilDiv (a b : Z) : Z := - ((- a) / b).


(** The fractions of [clock_delta_alphadec] are rationals. *)
From Stdlib Require Import QArith Qround.

Local Open Scope Z_scope.
Local Open Scope result_scope.

(** ** [src/index.ts]: the tools that call the codec

    The server registers its tools with a schema and a handler.  A call
    whose arguments fail the schema never reaches the handler.  A handler
    answers with one text and, when it has caught an exception, with the
    flag [error].  The tools import the codec as [alphadec]; the model
    takes the version as an argument. *)

Record codec : Type := mkCodec {
  encode : Z -> result AlphaDec;
  decode : string -> result (option Z)
}.

Definition cascade : codec := mkCodec Cascade.encode Cascade.decode.

Definition beatIndex : codec := mkCodec BeatIndex.encode BeatIndex.decode.

(** [e.message] *)
Definition message (e : exn) : string :=
  match e with
  | Error m => m
  | RangeError m => m
  end.

Record toolResult : Type := mkToolResult {
  text : string;
  error : bool
}.

(** [re.test(s)] for a regular expression made of fixed runs. *)
Definition regexTest (re : list JSString.piece) (s : string) : bool :=
  match JSString.matchPieces re s with
  | Some _ => true
  | None => false
  end.

(** *** Regular expressions with runs of variable length and optional
    groups *)

Module JSRegExp.

(** [lo] to [hi] characters of one class. *)
Record atom : Type := mkAtom {
  acls : JSString.cclass;
  lo : nat;
  hi : nat
}.

Inductive item : Type :=
| One (a : atom)
| Optional (body : list atom).      (* ( ... )? *)

(** What can be left of [s] after a run at its start. *)
Fixpoint afterRun (k : JSString.cclass) (lo hi : nat) (s : string)
  : list string :=
  (match lo with O => [s] | S _ => [] end)
  ++ match hi with
     | O => []
     | S hi' =>
         match s with
         | String c r =>
             if JSString.inClass k c then afterRun k (Nat.pred lo) hi' r
             else []
         | EmptyString => []
         end
     end.

Definition afterAtoms (body : list atom) (ss : list string) : list string :=
  fold_left (fun acc a => flat_map (afterRun (acls a) (lo a) (hi a)) acc)
            body ss.

Definition afterItem (i : item) (ss : list string) : list string :=
  match i with
  | One a => afterAtoms [a] ss
  | Optional body => ss ++ afterAtoms body ss
  end.

Definition isEmpty (s : string) : bool :=
  match s with
  | EmptyString => true
  | String _ _ => false
  end.

(** [re.test(s)] for [re = /^ item ... item $/]: some way of matching
    the items leaves nothing of [s]. *)
Definition test (re : list item) (s : string) : bool :=
  existsb isEmpty (fold_left (fun acc i => afterItem i acc) re [s]).

End JSRegExp.

(** *** The fields of a Date (ECMA-262, "Time Values and Time Range") *)

Module JSDateFields.

Local Open Scope string_scope.
Local Open Scope Z_scope.

Definition DaysInYear (y : Z) : Z :=
  if negb (y mod 4 =? 0) then 365
  else if negb (y mod 100 =? 0) then 366
  else if negb (y mod 400 =? 0) then 365
  else 366.

Definition DayWithinYear (t : Z) : Z := Day t - DayFromYear (YearFromTime t).

Definition InLeapYear (t : Z) : Z :=
  if DaysInYear (YearFromTime t) =? 366 then 1 else 0.

Definition MonthFromTime (t : Z) : Z :=
  let d := DayWithinYear t in
  let L := InLeapYear t in
  if d <? 31 then 0
  else if d <? 59 + L then 1
  else if d <? 90 + L then 2
  else if d <? 120 + L then 3
  else if d <? 151 + L then 4
  else if d <? 181 + L then 5
  else if d <? 212 + L then 6
  else if d <? 243 + L then 7
  else if d <? 273 + L then 8
  else if d <? 304 + L then 9
  else if d <? 334 + L then 10
  else 11.

Definition DateFromTime (t : Z) : Z :=
  let d := DayWithinYear t in
  let L := InLeapYear t in
  match MonthFromTime t with
  | 0 => d + 1
  | 1 => d - 30
  | 2 => d - 58 - L
  | 3 => d - 89 - L
  | 4 => d - 119 - L
  | 5 => d - 150 - L
  | 6 => d - 180 - L
  | 7 => d - 211 - L
  | 8 => d - 242 - L
  | 9 => d - 272 - L
  | 10 => d - 303 - L
  | _ => d - 333 - L
  end.

Definition HourFromTime (t : Z) : Z := (t / 3600000) mod 24.

Definition MinFromTime (t : Z) : Z := (t / 60000) mod 60.

Definition SecFromTime (t : Z) : Z := (t / 1000) mod 60.

Definition msFromTime (t : Z) : Z := t mod 1000.

(** A number written with at least [w] digits. *)
Definition pad (n : Z) (w : nat) : string :=
  JSString.padStart (JSString.ofInt n) w "0".

(** [d.toISOString()] of a Date with the finite time value [t]: the year
    has four digits from 0 to 9999, and a sign and six digits otherwise. *)
Definition toISOString (t : Z) : string :=
  let y := YearFromTime t in
  let yyyy :=
    if (0 <=? y) && (y <=? 9999) then pad y 4
    else if y <? 0 then "-" ++ pad (- y) 6
    else "+" ++ pad y 6 in
  yyyy ++ "-" ++ pad (MonthFromTime t + 1) 2 ++ "-" ++ pad (DateFromTime t) 2
  ++ "T" ++ pad (HourFromTime t) 2 ++ ":" ++ pad (MinFromTime t) 2
  ++ ":" ++ pad (SecFromTime t) 2 ++ "." ++ pad (msFromTime t) 3 ++ "Z".

End JSDateFields.

(** *** [JSON.stringify(o, null, 2)] of an object that holds strings *)

Module JSON.

Local Open Scope string_scope.
Local Open Scope Z_scope.

Definition backslash : ascii := ascii_of_nat 92.

Definition newline : string := String (ascii_of_nat 10) EmptyString.

Definition hexDigit (n : Z) : ascii :=
  if n <? 10 then JSString.digitChar n else ascii_of_N (Z.to_N (87 + n)).

(** One code unit inside a JSON string. *)
Definition escape (c : ascii) : string :=
  let n := JSString.codeOf c in
  if n =? 34 then String backslash dquote
  else if n =? 92 then String backslash (String backslash EmptyString)
  else if n =? 8 then String backslash "b"
  else if n =? 9 then String backslash "t"
  else if n =? 10 then String backslash "n"
  else if n =? 12 then String backslash "f"
  else if n =? 13 then String backslash "r"
  else if n <? 32 then
    String backslash
      ("u00" ++ String (hexDigit (n / 16)) (String (hexDigit (n mod 16)) EmptyString))
  else String c EmptyString.

Fixpoint escapeAll (s : string) : string :=
  match s with
  | EmptyString => EmptyString
  | String c r => escape c ++ escapeAll r
  end.

Definition quote (s : string) : string := dquote ++ escapeAll s ++ dquote.

Definition member (kv : string * string) : string :=
  "  " ++ quote (fst kv) ++ ": " ++ quote (snd kv).

Fixpoint members (fields : list (string * string)) : string :=
  match fields with
  | [] => EmptyString
  | [kv] => member kv
  | kv :: rest => member kv ++ "," ++ newline ++ members rest
  end.

(** The own properties of the object, in order, with their strings. *)
Definition stringify2 (fields : list (string * string)) : string :=
  match fields with
  | [] => "{}"
  | _ => "{" ++ newline ++ members fields ++ newline ++ "}"
  end.

End JSON.

(** *** [clock_convert_alphadec] *)

Inductive direction : Type :=
| utc_to_alphadec
| alphadec_to_utc.

(** [/^\d{4}-\d{2}-\d{2}T\d{2}:\d{2}(:\d{2})?(\.\d{1,3})?Z$/] *)
Definition isoRegex : list JSRegExp.item :=
  let digits n := JSRegExp.mkAtom JSString.Digit n n in
  let lit c := JSRegExp.mkAtom (JSString.Lit c) 1 1 in
  [ JSRegExp.One (digits 4%nat); JSRegExp.One (lit "-"%char);
    JSRegExp.One (digits 2%nat); JSRegExp.One (lit "-"%char);
    JSRegExp.One (digits 2%nat); JSRegExp.One (lit "T"%char);
    JSRegExp.One (digits 2%nat); JSRegExp.One (lit ":"%char);
    JSRegExp.One (digits 2%nat);
    JSRegExp.Optional [lit ":"%char; digits 2%nat];
    JSRegExp.Optional [lit "."%char; JSRegExp.mkAtom JSString.Digit 1 3];
    JSRegExp.One (lit "Z"%char) ].

(** [/^\d{4}_[A-Z]\d[A-Z]\d_[0-9]{6}$/] *)
Definition alphadecRegex : list JSString.piece :=
  [ JSString.mkPiece JSString.Digit 4 false;
    JSString.mkPiece (JSString.Lit "_") 1 false;
    JSString.mkPiece JSString.Upper 1 false;
    JSString.mkPiece JSString.Digit 1 false;
    JSString.mkPiece JSString.Upper 1 false;
    JSString.mkPiece JSString.Digit 1 false;
    JSString.mkPiece (JSString.Lit "_") 1 false;
    JSString.mkPiece JSString.Digit 6 false ].

(** The handler.  [parseDate value] is the time value of
    [new Date(value)], which the host computes from the string; [None]
    stands for NaN. *)
Definition clock_convert_alphadec
  (alphadec : codec) (parseDate : string -> option Z)
  (dir : direction) (value : string) : toolResult :=
  let body : result string :=
    match dir with
    | utc_to_alphadec =>
        if negb (JSRegExp.test isoRegex value) then
          Throw (Error ("Invalid UTC ISO format for " ++ dquote ++ "value"
                        ++ dquote ++ ": " ++ value
                        ++ ". Expected YYYY-MM-DDTHH:MM(:SS)(.mmm)Z.")%string)
        else
          match parseDate value with
          | None =>
              Throw (Error ("Invalid date from UTC ISO string: " ++ value)%string)
          | Some inputDate =>
              let* encodeResult := encode alphadec inputDate in
              Ok (JSON.stringify2
                    [ ("source_utc_iso"%string, value);
                      ("alphadec"%string, canonical encodeResult) ])
          end
    | alphadec_to_utc =>
        if negb (regexTest alphadecRegex value) then
          Throw (Error ("Invalid AlphaDec format for " ++ dquote ++ "value"
                        ++ dquote ++ ": " ++ value
                        ++ ". Expected YYYY_PaBt_MMMMMM.")%string)
        else
          let* decodedDate := decode alphadec value in
          match decodedDate with
          | None =>
              Throw (Error ("Invalid AlphaDec string or unable to decode: "
                            ++ value)%string)
          | Some t =>
              Ok (JSON.stringify2
                    [ ("source_alphadec"%string, value);
                      ("utc_iso"%string, JSDateFields.toISOString t) ])
          end
    end in
  match body with
  | Ok s => mkToolResult s false
  | Throw e =>
      mkToolResult ("Error in clock_convert_alphadec: " ++ message e)%string
                   true
  end.

(** *** [clock_delta_alphadec] *)

(** [/^[A-Z]\d[A-Z]\d$/], the schema of both arguments. *)
Definition codeRegex : list JSString.piece :=
  [ JSString.mkPiece JSString.Upper 1 false;
    JSString.mkPiece JSString.Digit 1 false;
    JSString.mkPiece JSString.Upper 1 false;
    JSString.mkPiece JSString.Digit 1 false ].

(** [parseInt(c, 10)] of one decimal digit. *)
Definition parseInt10 (c : ascii) : Z := JSString.codeOf c - 48.

(** The inner function of the handler.  It is applied to arguments that
    have passed the schema: four characters, the second and the fourth
    decimal digits. *)
Definition alphadecToBeats (code : string) : Z :=
  let beats_in_arc := 260 in
  let beats_in_period := 2600 in
  match code with
  | String p_char (String a_char (String b_char (String t_char _))) =>
      let p_idx := JSString.codeOf p_char - 65 in
      let a_val := parseInt10 a_char in
      let b_idx := JSString.codeOf b_char - 65 in
      let t_val := parseInt10 t_char in
      p_idx * beats_in_period + a_val * beats_in_arc + b_idx * 10 + t_val
  | _ => 0
  end.

(** [String(n).padStart(2, "0")] *)
Definition pad2 (n : Z) : string := JSString.padStart (JSString.ofInt n) 2 "0".

(** [x % m] of two Numbers, [x] a fraction: the remainder has the sign of
    [x]. *)
Definition Qrem (x m : Q) : Q :=
  (x - m * inject_Z (let (n, d) := (x / m)%Q in n ÷ Z.pos d))%Q.

(** The text [iso_delta] computed from [delta_ms].  [total_seconds] is a
    fraction; the doubles of the source are read as exact rationals here.
    The time values of one year differ by less than 2^35 milliseconds,
    where the quotient by 1000 is either a whole number, which a double
    holds exactly, or at least 0.001 away from one, far more than the
    rounding of a double of this size (below 10^-8): the three floors
    are the same. *)
Definition iso_delta (delta_ms : Z) : string :=
  let total_seconds : Q := (inject_Z (Z.abs delta_ms) / 1000)%Q in
  let sign := if delta_ms <? 0 then "-"%string else EmptyString in
  let hours := Qfloor (total_seconds / 3600) in
  let minutes := Qfloor (Qrem total_seconds 3600 / 60) in
  let seconds := Qfloor (Qrem total_seconds 60) in
  (sign ++ JSString.ofInt hours ++ ":" ++ pad2 minutes ++ ":" ++ pad2 seconds)%string.

(** The texts [alphadec_delta] and [breakdown] computed from
    [delta_beats]. *)
Definition unit_delta (delta_beats : Z) : string * string :=
  let beats_in_arc := 260 in
  let beats_in_period := 2600 in
  let adec_sign := if delta_beats <? 0 then "-"%string else EmptyString in
  let remaining := Z.abs delta_beats in
  let periods := remaining / beats_in_period in
  let remaining := Z.rem remaining beats_in_period in
  let arcs := remaining / beats_in_arc in
  let remaining := Z.rem remaining beats_in_arc in
  let bars := remaining / 10 in
  let beats := Z.rem remaining 10 in
  let alphadec_delta :=
    (adec_sign ++ pad2 periods ++ ":" ++ pad2 arcs ++ ":" ++ pad2 bars
     ++ ":" ++ pad2 beats)%string in
  let counts :=
    (JSString.ofInt periods ++ " period(s), " ++ JSString.ofInt arcs
     ++ " arc(s), " ++ JSString.ofInt bars ++ " bar(s), "
     ++ JSString.ofInt beats ++ " beat(s)")%string in
  let breakdown :=
    if delta_beats <? 0 then ("Negative difference of " ++ counts)%string
    else counts in
  (alphadec_delta, breakdown).

(** The tool.  [now] is the time value of [new Date()].  The answer is
    [None] when the schema refuses an argument and the handler does not
    run. *)
Definition clock_delta_alphadec
  (alphadec : codec) (now : Z) (alphadec_start alphadec_end : string)
  : option toolResult :=
  if negb (regexTest codeRegex alphadec_start
           && regexTest codeRegex alphadec_end) then None
  else
    let body : result string :=
      let currentYear := getUTCFullYear now in
      let full_start :=
        (JSString.ofInt currentYear ++ "_" ++ alphadec_start ++ "_000000")%string in
      let full_end :=
        (JSString.ofInt currentYear ++ "_" ++ alphadec_end ++ "_000000")%string in
      let* date_start := decode alphadec full_start in
      let* date_end := decode alphadec full_end in
      match date_start, date_end with
      | Some start_ms, Some end_ms =>
          let delta_ms := end_ms - start_ms in
          let delta_beats :=
            alphadecToBeats alphadec_end - alphadecToBeats alphadec_start in
          let '(alphadec_delta, breakdown) := unit_delta delta_beats in
          Ok (JSON.stringify2
                [ ("iso_time_difference"%string, iso_delta delta_ms);
                  ("alphadec_unit_delta"%string, alphadec_delta);
                  ("breakdown"%string, breakdown) ])
      | _, _ =>
          Throw (Error
            "Failed to decode one or both AlphaDec codes for the current year.")
      end in
    Some match body with
         | Ok s => mkToolResult s false
         | Throw e =>
             mkToolResult
               ("Error in clock_delta_alphadec: " ++ message e)%string true
         end.

(** *** The answers of the tools, as the properties speak of them *)

(** What the cascade takes off the start of beat [k]: one millisecond
    where the beat starts on a whole millisecond, the first beat of the
    year excepted. *)
Definition cascadeShift (k : Z) : Z :=
  if (k mod 169 =? 0) && negb (k =? 0) then 1 else 0.

(** The answer of [clock_delta_alphadec] for a difference of [delta_ms]
    milliseconds and of [delta_beats] beats. *)
Definition deltaAnswer (delta_ms delta_beats : Z) : option toolResult :=
  Some (mkToolResult
          (JSON.stringify2
             [ ("iso_time_difference"%string, iso_delta delta_ms);
               ("alphadec_unit_delta"%string, fst (unit_delta delta_beats));
               ("breakdown"%string, snd (unit_delta delta_beats)) ])
          false).

(** The answers of [clock_convert_alphadec]. *)
Definition utcToAlphadecAnswer (value canon : string) : toolResult :=
  mkToolResult
    (JSON.stringify2
       [ ("source_utc_iso"%string, value); ("alphadec"%string, canon) ])
    false.

Definition alphadecToUtcAnswer (value : string) (t : Z) : toolResult :=
  mkToolResult
    (JSON.stringify2
       [ ("source_alphadec"%string, value);
         ("utc_iso"%string, JSDateFields.toISOString t) ])
    false.

Definition convertError (msg : string) : toolResult :=
  mkToolResult ("Error in clock_convert_alphadec: " ++ msg)%string true.

(** *** Facts on the host's year arithmetic *)

(** Linear arithmetic with the quotients and remainders spelled out. *)
Ltac zdiv := Z.to_euclidean_division_equations; lia.

(** One character of a string that the regular expression accepted. *)
Ltac match_step s c H :=
  destruct s as [| c s]; [discriminate |];
  destruct (JSString.inClass _ c) eqn:H; [| discriminate].

Lemma DayFromYear_succ (y : Z) :
  DayFromYear (y + 1) - DayFromYear y =
  365 + (if (y mod 4 =? 0) && negb (y mod 100 =? 0) || (y mod 400 =? 0)
         then 1 else 0).
Proof.
  unfold DayFromYear.
  destruct (y mod 4 =? 0) eqn:E4; destruct (y mod 100 =? 0) eqn:E100;
    destruct (y mod 400 =? 0) eqn:E400; cbn [andb orb negb];
    rewrite ?Z.eqb_eq, ?Z.eqb_neq in *; zdiv.
Qed.

Lemma DayFromYear_lt (y1 y2 : Z) :
  y1 < y2 -> DayFromYear y1 < DayFromYear y2.
Proof. unfold DayFromYear; zdiv. Qed.

Lemma TimeFromYear_lt (y1 y2 : Z) :
  y1 < y2 -> TimeFromYear y1 < TimeFromYear y2.
Proof.
  intros H. apply DayFromYear_lt in H. unfold TimeFromYear, msPerDay. lia.
Qed.

Lemma YearFromTime_spec (t : Z) :
  TimeFromYear (YearFromTime t) <= t < TimeFromYear (YearFromTime t + 1).
Proof.
  unfold YearFromTime.
  set (y0 := 1970 + 400 * Day t / 146097).
  assert (Hd : msPerDay * Day t <= t < msPerDay * Day t + msPerDay)
    by (unfold Day, msPerDay; zdiv).
  assert (Hlo : DayFromYear (y0 - 1) <= Day t)
    by (unfold y0, DayFromYear; zdiv).
  assert (Hhi : Day t < DayFromYear (y0 + 2))
    by (unfold y0, DayFromYear; zdiv).
  unfold TimeFromYear in *. unfold msPerDay in *.
  destruct (t <? 86400000 * DayFromYear y0) eqn:E1.
  - apply Z.ltb_lt in E1. replace (y0 - 1 + 1) with y0 by lia. lia.
  - apply Z.ltb_ge in E1.
    destruct (86400000 * DayFromYear (y0 + 1) <=? t) eqn:E2.
    + apply Z.leb_le in E2. replace (y0 + 1 + 1) with (y0 + 2) by lia. lia.
    + apply Z.leb_gt in E2. lia.
Qed.

Lemma YearFromTime_unique (t y : Z) :
  TimeFromYear y <= t < TimeFromYear (y + 1) -> YearFromTime t = y.
Proof.
  intros H. pose proof (YearFromTime_spec t) as S.
  destruct (Z.lt_trichotomy (YearFromTime t) y) as [L | [E | G]]; auto.
  - assert (TimeFromYear (YearFromTime t + 1) <= TimeFromYear y).
    { destruct (Z.eq_dec (YearFromTime t + 1) y) as [-> | N]; [lia |].
      apply Z.lt_le_incl, TimeFromYear_lt. lia. }
    lia.
  - assert (TimeFromYear (y + 1) <= TimeFromYear (YearFromTime t)).
    { destruct (Z.eq_dec (y + 1) (YearFromTime t)) as [<- | N]; [lia |].
      apply Z.lt_le_incl, TimeFromYear_lt. lia. }
    lia.
Qed.


Lemma yearTotalMs_len (y : Z) : yearLen (yearTotalMs y).
Proof.
  unfold yearLen, yearTotalMs, daysInYear.
  destruct (isLeap y); [right | left]; reflexivity.
Qed.

Lemma TimeFromYear_succ (y : Z) :
  TimeFromYear (y + 1) = TimeFromYear y + yearTotalMs y.
Proof.
  unfold TimeFromYear, yearTotalMs, daysInYear, isLeap, msPerDay, DayFromYear.
  destruct (Z.rem y 4 =? 0) eqn:E4; destruct (Z.rem y 100 =? 0) eqn:E100;
    destruct (Z.rem y 400 =? 0) eqn:E400; cbn [andb orb negb];
    rewrite ?Z.eqb_eq, ?Z.eqb_neq in *; zdiv.
Qed.

Lemma UTC_Jan1_ordinary (y : Z) :
  100 <= y <= 275760 -> UTC_Jan1 y = Some (TimeFromYear y).
Proof.
  intros H. unfold UTC_Jan1.
  replace ((0 <=? y) && (y <=? 99)) with false
    by (symmetry; apply andb_false_iff; right; apply Z.leb_gt; lia).
  unfold TimeClip.
  replace (Z.abs (TimeFromYear y) <=? maxTime) with true; [reflexivity |].
  symmetry. apply Z.leb_le.
  unfold TimeFromYear, DayFromYear, msPerDay, maxTime. zdiv.
Qed.

Lemma inOwnYear_of_year (x : Z) :
  100 <= getUTCFullYear x <= 275760 -> inOwnYear x.
Proof.
  intros H. exists (x - TimeFromYear (getUTCFullYear x)). split.
  - unfold sinceYearStart. rewrite UTC_Jan1_ordinary by assumption. reflexivity.
  - pose proof (YearFromTime_spec x) as S.
    rewrite TimeFromYear_succ in S. unfold getUTCFullYear. lia.
Qed.

Lemma validInstant_inOwnYear (x : Z) : validInstant x -> inOwnYear x.
Proof. intros H. apply inOwnYear_of_year. unfold validInstant in H. lia. Qed.

Lemma sinceYearStart_valid (x : Z) :
  100 <= getUTCFullYear x <= 275760 ->
  sinceYearStart x (getUTCFullYear x) = Some (x - TimeFromYear (getUTCFullYear x)).
Proof.
  intros H. unfold sinceYearStart.
  rewrite UTC_Jan1_ordinary by assumption. reflexivity.
Qed.

Lemma getUTCFullYear_TimeFromYear (y ms : Z) :
  0 <= ms < yearTotalMs y -> getUTCFullYear (TimeFromYear y + ms) = y.
Proof.
  intros H. apply YearFromTime_unique. rewrite TimeFromYear_succ. lia.
Qed.

(** *** Arithmetic of the grid *)

Lemma div_scaled_split (a s d : Z) :
  0 < d -> a * s / d = a / d * s + a mod d * s / d.
Proof.
  intros Hd.
  rewrite (Z.div_mod a d) at 1 by lia.
  replace ((d * (a / d) + a mod d) * s) with (a / d * s * d + a mod d * s)
    by ring.
  rewrite Z.div_add_l by lia. reflexivity.
Qed.

(** The digits of a beat index. *)
Lemma beat_digits (k : Z) :
  0 <= k < 67600 ->
  0 <= k / 2600 <= 25 /\ 0 <= k mod 2600 / 260 <= 9
  /\ 0 <= k mod 260 / 10 <= 25 /\ 0 <= k mod 10 <= 9
  /\ k = 2600 * (k / 2600) + 260 * (k mod 2600 / 260)
         + 10 * (k mod 260 / 10) + k mod 10.
Proof. intros H. zdiv. Qed.

Lemma four_hundred_beats (k : Z) :
  0 <= k < 67600 /\ k mod 169 = 0 <-> exists j, 0 <= j < 400 /\ k = 169 * j.
Proof.
  split.
  - intros [Hk Hm]. exists (k / 169). zdiv.
  - intros (j & Hj & ->). zdiv.
Qed.

Lemma quot_unique (x d q : Z) :
  0 < d -> 0 <= q * d <= x -> x < q * d + d -> x ÷ d = q.
Proof.
  intros Hd Hq Hx. rewrite Z.quot_div_nonneg by lia.
  symmetry. apply (Z.div_unique x d q (x - q * d)); lia.
Qed.

(** Dividing level by level finds the digits again. *)
Lemma cascade_unique (P A B T X p a b t r : Z) :
  0 < T -> 10 * T <= B -> 26 * B <= A -> 10 * A <= P ->
  0 <= p -> 0 <= a <= 9 -> 0 <= b <= 25 -> 0 <= t <= 9 -> 0 <= r < T ->
  X = p * P + a * A + b * B + t * T + r ->
  X ÷ P = p
  /\ (X - p * P) ÷ A = a
  /\ (X - p * P - a * A) ÷ B = b
  /\ (X - p * P - a * A - b * B) ÷ T = t.
Proof.
  intros HT HB HA HP Hp Ha Hb Ht Hr HX.
  assert (HtT : 0 <= t * T <= 9 * T) by nia.
  assert (HbB : 0 <= b * B <= 25 * B) by nia.
  assert (HaA : 0 <= a * A <= 9 * A) by nia.
  assert (HpP : 0 <= p * P) by nia.
  repeat split; apply quot_unique; lia.
Qed.

Lemma cascadeStart_common (p a b t : Z) :
  cascadeStart 31536000000 p a b t =
  p * 1212923076923076 + a * 121292307692307
  + b * 4665088757396 + t * 466508875739.
Proof. reflexivity. Qed.

Lemma cascadeStart_leap (p a b t : Z) :
  cascadeStart 31622400000 p a b t =
  p * 1216246153846153 + a * 121624615384615
  + b * 4677869822485 + t * 467786982248.
Proof. reflexivity. Qed.

(** The lemmas of this section hold for the two lengths of a year; most
    proofs take the lengths one after the other and leave the numbers to
    linear arithmetic. *)
Section Grid.

Variable Y : Z.
Hypothesis HY : yearLen Y.

Lemma yearLen_pos : 0 < Y.
Proof. destruct HY as [-> | ->]; lia. Qed.

Lemma year_over_beats (k : Z) : Y * k / 67600 = Y / 400 * k / 169.
Proof.
  destruct HY as [-> | ->].
  - change (31536000000 / 400) with 78840000.
    replace (31536000000 * k) with (400 * (78840000 * k)) by ring.
    change 67600 with (400 * 169). apply Z.div_mul_cancel_l; lia.
  - change (31622400000 / 400) with 79056000.
    replace (31622400000 * k) with (400 * (79056000 * k)) by ring.
    change 67600 with (400 * 169). apply Z.div_mul_cancel_l; lia.
Qed.

Lemma aligned_iff (k : Z) : (Y / 400 * k) mod 169 = 0 <-> k mod 169 = 0.
Proof.
  destruct HY as [-> | ->].
  - change (31536000000 / 400) with 78840000. zdiv.
  - change (31622400000 / 400) with 79056000. zdiv.
Qed.

(** A beat starts on a whole millisecond when its index is a multiple of
    169, and only then. *)
Lemma whole_ms_start_iff (k : Z) : (Y * k) mod 67600 = 0 <-> k mod 169 = 0.
Proof.
  rewrite <- (aligned_iff k).
  assert (E : Y * k = 400 * (Y / 400 * k)).
  { destruct HY as [-> | ->].
    - change (31536000000 / 400) with 78840000. ring.
    - change (31622400000 / 400) with 79056000. ring. }
  rewrite E. change 67600 with (400 * 169).
  rewrite Z.mul_mod_distr_l by lia. lia.
Qed.

Lemma aligned_exact (k : Z) :
  k mod 169 = 0 -> Y * k = 67600 * beatStartMs Y k.
Proof. destruct HY as [-> | ->]; intros H; unfold beatStartMs; zdiv. Qed.

Lemma aligned_beats_evenly_spaced (j : Z) :
  beatStartMs Y (169 * j) = j * (Y / 400).
Proof.
  destruct HY as [-> | ->]; unfold beatStartMs.
  - change (31536000000 / 400) with 78840000. zdiv.
  - change (31622400000 / 400) with 79056000. zdiv.
Qed.

(** The scaled start of a beat is a whole number of milliseconds and a
    fraction [f]; the fraction vanishes on the beats whose index is a
    multiple of 169 and is at least 1/169 ms on the others. *)
Lemma beatStartScaled_form (k : Z) :
  exists f,
    beatStartScaled Y k = beatStartMs Y k * 1000000 + f
    /\ (k mod 169 = 0 /\ f = 0 \/ k mod 169 <> 0 /\ 5917 <= f <= 994082).
Proof.
  exists ((Y / 400 * k) mod 169 * 1000000 / 169). split.
  - unfold beatStartScaled, beatStartMs.
    replace (Y * k * 1000000) with (Y * (k * 1000000)) by ring.
    rewrite !year_over_beats.
    rewrite Z.mul_assoc. apply div_scaled_split. lia.
  - pose proof (aligned_iff k) as Hal.
    assert (Hu : 0 <= (Y / 400 * k) mod 169 < 169)
      by (apply Z.mod_pos_bound; lia).
    destruct (Z.eq_dec (k mod 169) 0) as [E | N].
    + left. split; [assumption |]. apply Hal in E. rewrite E. reflexivity.
    + right. split; [assumption |].
      assert (Hn : (Y / 400 * k) mod 169 <> 0) by (intros C; apply N, Hal, C).
      revert Hu Hn. generalize ((Y / 400 * k) mod 169). intros u Hu Hn. zdiv.
Qed.

Lemma beatIndexOf_range (ms : Z) :
  0 <= ms < Y -> 0 <= beatIndexOf Y ms < 67600.
Proof. destruct HY as [-> | ->]; intros H; unfold beatIndexOf; zdiv. Qed.

Lemma beatIndexOf_mono (ms1 ms2 : Z) :
  ms1 <= ms2 -> beatIndexOf Y ms1 <= beatIndexOf Y ms2.
Proof.
  intros H. unfold beatIndexOf. pose proof yearLen_pos.
  apply Z.div_le_mono; lia.
Qed.

Lemma beatStartMs_range (k : Z) :
  0 <= k < 67600 -> 0 <= beatStartMs Y k < Y.
Proof. destruct HY as [-> | ->]; intros H; unfold beatStartMs; zdiv. Qed.

Lemma beatStartMs_le (ms : Z) :
  0 <= ms < Y ->
  beatStartMs Y (beatIndexOf Y ms) <= ms
  /\ ms - beatStartMs Y (beatIndexOf Y ms) <= 467787.
Proof.
  destruct HY as [-> | ->]; intros H; unfold beatStartMs, beatIndexOf; zdiv.
Qed.

Lemma beatStartScaled_le (ms : Z) :
  0 <= ms < Y ->
  0 <= beatStartScaled Y (beatIndexOf Y ms) <= ms * 1000000.
Proof.
  destruct HY as [-> | ->]; intros H; unfold beatStartScaled, beatIndexOf; zdiv.
Qed.

(** The offset that [encode] stores: the distance to the beat's start,
    less one millisecond when that start is not a whole millisecond. *)
Lemma offsetOf_eq (ms : Z) :
  offsetOf Y ms =
  ms - beatStartMs Y (beatIndexOf Y ms)
  - (if beatIndexOf Y ms mod 169 =? 0 then 0 else 1).
Proof.
  unfold offsetOf.
  destruct (beatStartScaled_form (beatIndexOf Y ms)) as [f [-> Hf]].
  generalize (beatStartMs Y (beatIndexOf Y ms)). intros m.
  destruct Hf as [[E ->] | [N Hf]].
  - rewrite E. cbn [Z.eqb]. zdiv.
  - apply Z.eqb_neq in N. rewrite N. zdiv.
Qed.

Lemma offsetOf_range (ms : Z) :
  0 <= ms < Y -> 0 <= offsetOf Y ms <= 467786.
Proof.
  intros H. split.
  - unfold offsetOf. pose proof (beatStartScaled_le ms H). zdiv.
  - rewrite offsetOf_eq.
    pose proof (beatStartMs_le ms H) as [_ Hle].
    destruct (beatIndexOf Y ms mod 169 =? 0) eqn:E; [| lia].
    apply Z.eqb_eq in E. clear Hle.
    destruct HY as [-> | ->]; unfold beatStartMs, beatIndexOf in *; zdiv.
Qed.

(** What [BeatIndex.decode] adds to the start of the year. *)
Lemma beatIndex_decode_total (k off : Z) :
  (beatStartScaled Y k + off * 1000000) / 1000000 = beatStartMs Y k + off.
Proof.
  destruct (beatStartScaled_form k) as [f [-> Hf]].
  generalize (beatStartMs Y k). intros m. zdiv.
Qed.

(** The 400 points that cut the year in equal parts are the starts of
    the beats that start on a whole millisecond. *)
Lemma onFourHundredth_iff (ms : Z) :
  0 <= ms < Y ->
  (400 * ms) mod Y = 0
  <-> beatIndexOf Y ms mod 169 = 0 /\ ms = beatStartMs Y (beatIndexOf Y ms).
Proof.
  destruct HY as [-> | ->]; intros H; unfold beatIndexOf, beatStartMs; zdiv.
Qed.

(** **** The cascade *)

Lemma cascade_sizes :
  0 < beatSize Y /\ 10 * beatSize Y <= barSize Y
  /\ 26 * barSize Y <= arcSize Y /\ 10 * arcSize Y <= periodSize Y.
Proof. destruct HY as [-> | ->]; vm_compute; intuition congruence. Qed.

(** The cascade's start of a beat is below the exact start, by less than
    a ten-thousandth of a millisecond. *)
Lemma cascade_gap (p a b t : Z) :
  0 <= p <= 25 -> 0 <= a <= 9 -> 0 <= b <= 25 -> 0 <= t <= 9 ->
  let k := 2600 * p + 260 * a + 10 * b + t in
  0 <= beatStartScaled Y k - cascadeStart Y p a b t <= 50
  /\ (k <> 0 -> cascadeStart Y p a b t * 67600 < Y * k * 1000000).
Proof.
  destruct HY as [-> | ->]; intros Hp Ha Hb Ht k; subst k;
    rewrite ?cascadeStart_common, ?cascadeStart_leap; unfold beatStartScaled;
    (split; [split | intros Hk]); zdiv.
Qed.

Lemma cascadeStart_nonneg (p a b t : Z) :
  0 <= p -> 0 <= a -> 0 <= b -> 0 <= t -> 0 <= cascadeStart Y p a b t.
Proof.
  destruct HY as [-> | ->]; intros Hp Ha Hb Ht;
    rewrite ?cascadeStart_common, ?cascadeStart_leap; lia.
Qed.

Lemma cascade_residual (ms p a b t : Z) :
  0 <= ms < Y ->
  0 <= p <= 25 -> 0 <= a <= 9 -> 0 <= b <= 25 -> 0 <= t <= 9 ->
  beatIndexOf Y ms = 2600 * p + 260 * a + 10 * b + t ->
  0 <= ms * 1000000 - cascadeStart Y p a b t < beatSize Y.
Proof.
  destruct HY as [-> | ->]; intros H Hp Ha Hb Ht;
    rewrite ?cascadeStart_common, ?cascadeStart_leap; unfold beatIndexOf.
  - change (beatSize 31536000000) with 466508875739. zdiv.
  - change (beatSize 31622400000) with 467786982248. zdiv.
Qed.

(** The cascade stores the same offset as the beat index does. *)
Lemma cascade_offset (ms p a b t : Z) :
  0 <= ms < Y ->
  0 <= p <= 25 -> 0 <= a <= 9 -> 0 <= b <= 25 -> 0 <= t <= 9 ->
  beatIndexOf Y ms = 2600 * p + 260 * a + 10 * b + t ->
  (ms * 1000000 - cascadeStart Y p a b t) ÷ 1000000 = offsetOf Y ms.
Proof.
  intros H Hp Ha Hb Ht Hk.
  pose proof (cascade_residual ms p a b t H Hp Ha Hb Ht Hk) as Hr.
  rewrite Z.quot_div_nonneg by lia.
  rewrite offsetOf_eq.
  pose proof (cascade_gap p a b t Hp Ha Hb Ht) as [Hg _].
  cbv zeta in Hg. rewrite <- Hk in Hg.
  destruct (beatStartScaled_form (beatIndexOf Y ms)) as [f [Ef Hf]].
  rewrite Ef in Hg. clear Ef Hr.
  revert Hg.
  generalize (cascadeStart Y p a b t) (beatStartMs Y (beatIndexOf Y ms)).
  intros cs m Hg.
  destruct Hf as [[E ->] | [N Hf]].
  - rewrite E. cbn [Z.eqb]. zdiv.
  - apply Z.eqb_neq in N. rewrite N. zdiv.
Qed.

(** What [Cascade.decode] adds to the start of the year: one millisecond
    less than the start of the beat when that start is a whole millisecond
    and the beat is not the first of the year. *)
Lemma cascade_decode_total (p a b t off : Z) :
  0 <= p <= 25 -> 0 <= a <= 9 -> 0 <= b <= 25 -> 0 <= t <= 9 ->
  let k := 2600 * p + 260 * a + 10 * b + t in
  0 <= off ->
  (cascadeStart Y p a b t + off * 1000000) ÷ 1000000 =
  beatStartMs Y k + off
  - (if (k mod 169 =? 0) && negb (k =? 0) then 1 else 0).
Proof.
  intros Hp Ha Hb Ht k Hoff.
  pose proof (cascade_gap p a b t Hp Ha Hb Ht) as [Hg Hs].
  fold k in Hg, Hs.
  assert (Hcs : 0 <= cascadeStart Y p a b t)
    by (apply cascadeStart_nonneg; lia).
  rewrite Z.quot_div_nonneg by lia.
  destruct (beatStartScaled_form k) as [f [Ef Hf]].
  rewrite Ef in Hg.
  destruct Hf as [[E ->] | [N Hf]].
  - rewrite E. cbn [Z.eqb andb].
    destruct (k =? 0) eqn:E0; cbn [negb].
    + apply Z.eqb_eq in E0.
      assert (Hc0 : cascadeStart Y p a b t = 0).
      { assert (p = 0 /\ a = 0 /\ b = 0 /\ t = 0) as (-> & -> & -> & ->)
          by (unfold k in E0; lia).
        reflexivity. }
      assert (Hb0 : beatStartMs Y k = 0)
        by (rewrite E0; unfold beatStartMs; rewrite Z.mul_0_r; reflexivity).
      rewrite Hc0, Hb0. zdiv.
    + apply Z.eqb_neq in E0. specialize (Hs E0).
      pose proof (aligned_exact k E) as Hex.
      assert (Hlt : cascadeStart Y p a b t < beatStartMs Y k * 1000000) by lia.
      clear Hs Hex Ef.
      revert Hg Hlt Hcs. generalize (cascadeStart Y p a b t) (beatStartMs Y k).
      intros cs m Hg Hlt Hcs. zdiv.
  - apply Z.eqb_neq in N. rewrite N. cbn [andb]. clear Ef Hs.
    revert Hg Hcs. generalize (cascadeStart Y p a b t) (beatStartMs Y k).
    intros cs m Hg Hcs. zdiv.
Qed.

End Grid.

(** *** Strings: decimal rendering and padding *)

Lemma append_assoc (s1 s2 s3 : string) :
  ((s1 ++ s2) ++ s3 = s1 ++ (s2 ++ s3))%string.
Proof.
  induction s1 as [| c s1 IH]; cbn [append]; [reflexivity | now rewrite IH].
Qed.

Lemma codeOf_ascii_of_Z (n : Z) :
  0 <= n < 256 -> JSString.codeOf (ascii_of_N (Z.to_N n)) = n.
Proof.
  intros H. unfold JSString.codeOf.
  rewrite N_ascii_embedding by lia. lia.
Qed.

Lemma codeOf_digitChar (d : Z) :
  0 <= d <= 9 -> JSString.codeOf (JSString.digitChar d) = 48 + d.
Proof. intros H. unfold JSString.digitChar. apply codeOf_ascii_of_Z. lia. Qed.

Lemma charCodeAt0_letterOf (n : Z) :
  0 <= n <= 25 -> JSString.charCodeAt0 (letterOf n) = 65 + n.
Proof.
  intros H. unfold letterOf, JSString.fromCharCode, JSString.charCodeAt0.
  apply codeOf_ascii_of_Z. lia.
Qed.

Lemma digitsOf_fixed (k : nat) :
  forall (fuel : nat) (n : Z) (acc : string),
    (k < fuel)%nat ->
    k = O \/ 10 ^ Z.of_nat k <= n ->
    0 <= n < 10 ^ Z.of_nat (S k) ->
    JSString.digitsOf fuel n acc = fixedDigits (S k) n acc.
Proof.
  induction k as [| k IH]; intros fuel n acc Hfuel Hlow Hn;
    destruct fuel as [| fuel]; try lia; cbn [JSString.digitsOf fixedDigits].
  - change (10 ^ Z.of_nat 1) with 10 in Hn.
    replace (n <? 10) with true by (symmetry; apply Z.ltb_lt; lia).
    reflexivity.
  - destruct Hlow as [Hk | Hlow]; [discriminate |].
    rewrite Nat2Z.inj_succ, Z.pow_succ_r in Hlow by lia.
    rewrite (Nat2Z.inj_succ (S k)), Z.pow_succ_r in Hn by lia.
    assert (Hpos : 0 < 10 ^ Z.of_nat k) by (apply Z.pow_pos_nonneg; lia).
    replace (n <? 10) with false by (symmetry; apply Z.ltb_ge; lia).
    rewrite IH; [reflexivity | lia | right; zdiv | zdiv].
Qed.

Lemma digitsFuel_enough (k : nat) (n : Z) :
  10 ^ Z.of_nat k <= n -> (k < JSString.digitsFuel n)%nat.
Proof.
  intros H. unfold JSString.digitsFuel.
  assert (Hpos : 0 < 10 ^ Z.of_nat k) by (apply Z.pow_pos_nonneg; lia).
  assert (H2 : 2 ^ Z.of_nat k <= n).
  { transitivity (10 ^ Z.of_nat k); [| assumption].
    apply Z.pow_le_mono_l. lia. }
  apply Z.log2_le_pow2 in H2; lia.
Qed.

(** A number with exactly [S k] digits is rendered with these digits. *)
Lemma ofInt_fixed (k : nat) (n : Z) :
  k = O \/ 10 ^ Z.of_nat k <= n ->
  0 <= n < 10 ^ Z.of_nat (S k) ->
  JSString.ofInt n = fixedDigits (S k) n EmptyString.
Proof.
  intros Hlow Hn. unfold JSString.ofInt.
  replace (n <? 0) with false by (symmetry; apply Z.ltb_ge; lia).
  apply digitsOf_fixed; try assumption.
  destruct Hlow as [-> | Hlow].
  - unfold JSString.digitsFuel. lia.
  - apply digitsFuel_enough. assumption.
Qed.

Lemma ofInt_digit (n : Z) :
  0 <= n <= 9 -> JSString.ofInt n = String (JSString.digitChar n) EmptyString.
Proof.
  intros H. rewrite (ofInt_fixed 0) by (auto; cbn; lia).
  cbn [fixedDigits]. rewrite Z.mod_small by lia. reflexivity.
Qed.

Lemma ofInt_year (y : Z) :
  1000 <= y <= 9999 -> JSString.ofInt y = fixedDigits 4 y EmptyString.
Proof. intros H. apply (ofInt_fixed 3); [right |]; cbn; lia. Qed.

Lemma fixedDigits_length (k : nat) :
  forall n acc, String.length (fixedDigits k n acc) = (k + String.length acc)%nat.
Proof.
  induction k as [| k IH]; intros n acc; cbn [fixedDigits]; [reflexivity |].
  rewrite IH. cbn [String.length]. lia.
Qed.

Lemma zeros_snoc (j : nat) (acc : string) :
  (zeros j ++ String "0" acc = String "0" (zeros j ++ acc))%string.
Proof.
  induction j as [| j IH]; cbn [zeros append]; [reflexivity | now rewrite IH].
Qed.

Lemma fixedDigits_zero (j : nat) :
  forall acc, fixedDigits j 0 acc = (zeros j ++ acc)%string.
Proof.
  induction j as [| j IH]; intros acc; cbn [fixedDigits zeros append];
    [reflexivity |].
  change (0 / 10) with 0. change (JSString.digitChar (0 mod 10)) with "0"%char.
  rewrite IH. apply zeros_snoc.
Qed.

Lemma fixedDigits_pad (j k : nat) :
  forall n acc,
    0 <= n < 10 ^ Z.of_nat k ->
    fixedDigits (k + j) n acc = (zeros j ++ fixedDigits k n acc)%string.
Proof.
  induction k as [| k IH]; intros n acc Hn.
  - change (10 ^ Z.of_nat 0) with 1 in Hn. assert (n = 0) as -> by lia.
    cbn [Nat.add fixedDigits]. apply fixedDigits_zero.
  - rewrite Nat2Z.inj_succ, Z.pow_succ_r in Hn by lia.
    cbn [Nat.add fixedDigits]. apply IH. zdiv.
Qed.

Lemma fillTo_zeros (n : nat) :
  forall cur, cur = "0"%string \/ cur = EmptyString ->
              JSString.fillTo n "0" cur = zeros n.
Proof.
  induction n as [| n IH]; intros cur [-> | ->]; cbn [JSString.fillTo zeros];
    try reflexivity; rewrite IH; auto.
Qed.

(** Padding the rendering of a number below one million to six places
    gives its six digits. *)
Lemma padStart_six (n : Z) :
  0 <= n < 1000000 ->
  JSString.padStart (JSString.ofInt n) 6 "0" = fixedDigits 6 n EmptyString.
Proof.
  intros H.
  assert (Hk : exists k : nat,
             (k <= 5)%nat /\ (k = O \/ 10 ^ Z.of_nat k <= n)
             /\ n < 10 ^ Z.of_nat (S k)).
  { destruct (Z_lt_dec n 10); [exists 0%nat; cbn; lia |].
    destruct (Z_lt_dec n 100); [exists 1%nat; cbn; lia |].
    destruct (Z_lt_dec n 1000); [exists 2%nat; cbn; lia |].
    destruct (Z_lt_dec n 10000); [exists 3%nat; cbn; lia |].
    destruct (Z_lt_dec n 100000); [exists 4%nat; cbn; lia |].
    exists 5%nat; cbn; lia. }
  destruct Hk as (k & Hk5 & Hlow & Hhigh).
  rewrite (ofInt_fixed k) by (auto; lia).
  unfold JSString.padStart. rewrite fixedDigits_length.
  cbn [String.length]. rewrite Nat.add_0_r.
  destruct (6 <=? S k)%nat eqn:E.
  - apply Nat.leb_le in E. assert (k = 5%nat) as -> by lia. reflexivity.
  - apply Nat.leb_gt in E.
    rewrite fillTo_zeros by auto.
    rewrite <- fixedDigits_pad by lia.
    replace (S k + (6 - S k))%nat with 6%nat by lia. reflexivity.
Qed.

(** *** What [encode] returns inside a year *)

Lemma BeatIndex_toBase26_ok (n : Z) :
  0 <= n <= 25 -> BeatIndex._toBase26 n = Ok (letterOf n).
Proof.
  intros H. unfold BeatIndex._toBase26.
  replace ((n <? 0) || (n >? 25)) with false; [reflexivity |].
  symmetry. apply orb_false_iff. rewrite Z.gtb_ltb.
  split; apply Z.ltb_ge; lia.
Qed.

Lemma Cascade_toBase26_ok (n : Z) :
  0 <= n <= 25 -> Cascade._toBase26 n = Ok (letterOf n).
Proof.
  intros H. unfold Cascade._toBase26.
  replace ((n <? 0) || (n >? 25)) with false; [reflexivity |].
  symmetry. apply orb_false_iff. rewrite Z.gtb_ltb.
  split; apply Z.ltb_ge; lia.
Qed.

Lemma BeatIndex_encode_grid (x ms : Z) :
  sinceYearStart x (getUTCFullYear x) = Some ms ->
  0 <= ms < yearTotalMs (getUTCFullYear x) ->
  exists arcStart arcEnd,
    BeatIndex.encode x = Ok (gridRecord (getUTCFullYear x) ms arcStart arcEnd).
Proof.
  intros Hms H. unfold BeatIndex.encode. rewrite Hms. cbn [BigInt bind].
  cbv zeta. unfold Number, BeatIndex._SCALER_N.
  fold (yearTotalMs (getUTCFullYear x)).
  set (y := getUTCFullYear x) in *. set (Y := yearTotalMs y) in *.
  pose proof (yearTotalMs_len y) as HY. fold Y in HY.
  assert (HYpos : 0 < Y) by (destruct HY; lia).
  assert (Hk : ms * 67600 ÷ Y = beatIndexOf Y ms)
    by (apply Z.quot_div_nonneg; lia).
  rewrite !Hk.
  pose proof (beatIndexOf_range Y HY ms H) as Hkr.
  pose proof (beat_digits _ Hkr) as (Hp & Ha & Hb & Ht & _).
  set (k := beatIndexOf Y ms) in *.
  assert (Ep : k ÷ 2600 = k / 2600) by zdiv.
  assert (E1 : Z.rem k 2600 = k mod 2600) by zdiv.
  rewrite !Ep, !E1.
  assert (Ea : k mod 2600 ÷ 260 = k mod 2600 / 260) by zdiv.
  assert (E2 : Z.rem (k mod 2600) 260 = k mod 260) by zdiv.
  rewrite !Ea, !E2.
  assert (Eb : k mod 260 ÷ 10 = k mod 260 / 10) by zdiv.
  assert (Et : Z.rem (k mod 260) 10 = k mod 10) by zdiv.
  rewrite !Eb, !Et.
  assert (Es : Y * k * 1000000 ÷ 67600 = beatStartScaled Y k).
  { apply Z.quot_div_nonneg; [| lia].
    apply Z.mul_nonneg_nonneg; [apply Z.mul_nonneg_nonneg |]; lia. }
  rewrite !Es.
  assert (Eo : (ms * 1000000 - beatStartScaled Y k) ÷ 1000000 = offsetOf Y ms).
  { pose proof (beatStartScaled_le Y HY ms H) as H0. fold k in H0.
    apply Z.quot_div_nonneg; lia. }
  rewrite !Eo.
  rewrite !BeatIndex_toBase26_ok by assumption. cbn [bind].
  eexists. eexists. reflexivity.
Qed.

Lemma Cascade_encode_grid (x ms : Z) :
  sinceYearStart x (getUTCFullYear x) = Some ms ->
  0 <= ms < yearTotalMs (getUTCFullYear x) ->
  exists arcStart arcEnd,
    Cascade.encode x = Ok (gridRecord (getUTCFullYear x) ms arcStart arcEnd).
Proof.
  intros Hms H. unfold Cascade.encode. rewrite Hms. cbn [BigInt bind].
  cbv zeta. unfold Number, Cascade._SCALER_N.
  fold (yearTotalMs (getUTCFullYear x)).
  set (y := getUTCFullYear x) in *. set (Y := yearTotalMs y) in *.
  pose proof (yearTotalMs_len y) as HY. fold Y in HY.
  pose proof (beatIndexOf_range Y HY ms H) as Hkr.
  pose proof (beat_digits _ Hkr) as (Hp & Ha & Hb & Ht & Hk).
  set (k := beatIndexOf Y ms) in *.
  fold (periodSize Y). fold (arcSize Y). fold (barSize Y). fold (beatSize Y).
  set (p := k / 2600) in *. set (a := k mod 2600 / 260) in *.
  set (b := k mod 260 / 10) in *. set (t := k mod 10) in *.
  pose proof (cascade_residual Y HY ms p a b t H Hp Ha Hb Ht Hk) as Hr.
  pose proof (cascade_offset Y HY ms p a b t H Hp Ha Hb Ht Hk) as Ho.
  pose proof (cascade_sizes Y HY) as (HT & HB & HA & HP).
  unfold cascadeStart in Hr, Ho.
  destruct (cascade_unique (periodSize Y) (arcSize Y) (barSize Y) (beatSize Y)
              (ms * 1000000) p a b t
              (ms * 1000000 - (p * periodSize Y + a * arcSize Y
                               + b * barSize Y + t * beatSize Y)))
    as (Ep & Ea & Eb & Et); try lia.
  rewrite !Ep, !Ea, !Eb, !Et.
  replace (ms * 1000000 - p * periodSize Y - a * arcSize Y - b * barSize Y
           - t * beatSize Y)
    with (ms * 1000000 - (p * periodSize Y + a * arcSize Y + b * barSize Y
                          + t * beatSize Y)) by ring.
  rewrite !Ho.
  rewrite !Cascade_toBase26_ok by assumption. cbn [bind].
  eexists. eexists. unfold gridRecord. fold Y. fold k. fold p a b t.
  f_equal. f_equal. unfold canonOf.
  now rewrite !append_assoc.
Qed.

(** *** The canonical string and the regular expression *)

Lemma canonOf_tail (y p a b t off : Z) :
  0 <= a <= 9 -> 0 <= t <= 9 -> 0 <= off < 1000000 ->
  canonOf y p a b t off = (JSString.ofInt y ++ unitTail p a b t off)%string.
Proof.
  intros Ha Ht Hoff. unfold canonOf, unitTail.
  rewrite (ofInt_digit a), (ofInt_digit t), padStart_six by assumption.
  reflexivity.
Qed.

Lemma isDigit_digitChar (d : Z) : 0 <= d <= 9 -> isDigit (JSString.digitChar d).
Proof.
  intros H. unfold isDigit, JSString.inClass.
  rewrite codeOf_digitChar by assumption.
  apply andb_true_iff. split; apply Z.leb_le; lia.
Qed.

Lemma isUpper_letterChar (n : Z) : 0 <= n <= 25 -> isUpper (letterChar n).
Proof.
  intros H. unfold isUpper, JSString.inClass, letterChar.
  rewrite codeOf_ascii_of_Z by lia.
  apply andb_true_iff. split; apply Z.leb_le; lia.
Qed.

Lemma digitVal_range (c : ascii) : isDigit c -> 0 <= digitVal c <= 9.
Proof.
  unfold isDigit, JSString.inClass, digitVal. intros H.
  apply andb_true_iff in H. destruct H as [H1 H2].
  apply Z.leb_le in H1, H2. lia.
Qed.

Lemma letterVal_range (c : ascii) : isUpper c -> 0 <= letterVal c <= 25.
Proof.
  unfold isUpper, JSString.inClass, letterVal. intros H.
  apply andb_true_iff in H. destruct H as [H1 H2].
  apply Z.leb_le in H1, H2. lia.
Qed.

Lemma digitVal_digitChar (d : Z) :
  0 <= d <= 9 -> digitVal (JSString.digitChar d) = d.
Proof. intros H. unfold digitVal. rewrite codeOf_digitChar; lia. Qed.

Lemma letterVal_letterChar (n : Z) :
  0 <= n <= 25 -> letterVal (letterChar n) = n.
Proof.
  intros H. unfold letterVal, letterChar. rewrite codeOf_ascii_of_Z; lia.
Qed.

(** A string of the shape matches, and the groups are its runs. *)
Lemma matchPieces_shape (y1 y2 y3 y4 P a B t m1 m2 m3 m4 m5 m6 : ascii) :
  isDigit y1 -> isDigit y2 -> isDigit y3 -> isDigit y4 ->
  isUpper P -> isDigit a -> isUpper B -> isDigit t ->
  isDigit m1 -> isDigit m2 -> isDigit m3 ->
  isDigit m4 -> isDigit m5 -> isDigit m6 ->
  JSString.matchPieces canonRegex
    (String y1 (String y2 (String y3 (String y4 (String "_"
      (String P (String a (String B (String t (String "_"
        (String m1 (String m2 (String m3 (String m4 (String m5
          (String m6 EmptyString))))))))))))))))
  = Some [ String y1 (String y2 (String y3 (String y4 EmptyString)));
           String P EmptyString; String a EmptyString;
           String B EmptyString; String t EmptyString;
           String m1 (String m2 (String m3 (String m4 (String m5
             (String m6 EmptyString))))) ].
Proof.
  unfold isDigit, isUpper. intros.
  assert (Hu : JSString.inClass (JSString.Lit "_") "_" = true) by reflexivity.
  cbn [JSString.matchPieces JSString.takeClass canonRegex
       JSString.cls JSString.count JSString.captured].
  repeat match goal with
         | H : JSString.inClass _ _ = true |- _ => rewrite H
         end.
  reflexivity.
Qed.

(** A string that matches has the shape. *)
Lemma matchPieces_inv (s : string) (groups : list string) :
  JSString.matchPieces canonRegex s = Some groups -> canonShape s.
Proof.
  cbn [JSString.matchPieces JSString.takeClass canonRegex
       JSString.cls JSString.count JSString.captured].
  intros H.
  match_step s y1 Hy1. match_step s y2 Hy2.
  match_step s y3 Hy3. match_step s y4 Hy4.
  match_step s u1 Hu1. match_step s P HP. match_step s a Ha.
  match_step s B HB. match_step s t Ht. match_step s u2 Hu2.
  match_step s m1 Hm1. match_step s m2 Hm2. match_step s m3 Hm3.
  match_step s m4 Hm4. match_step s m5 Hm5. match_step s m6 Hm6.
  destruct s; [| discriminate].
  cbn [JSString.inClass] in Hu1, Hu2.
  apply Ascii.eqb_eq in Hu1, Hu2. subst u1 u2.
  constructor; assumption.
Qed.

Lemma matchesCanon_iff (s : string) : matchesCanon s = true <-> canonShape s.
Proof.
  unfold matchesCanon. split.
  - destruct (JSString.matchPieces canonRegex s) eqn:E; [| discriminate].
    intros _. eapply matchPieces_inv, E.
  - intros H. destruct H. rewrite matchPieces_shape by assumption. reflexivity.
Qed.

(** *** What [decode] returns on a string of the shape *)

Lemma UTC_Jan1_parsed (y : Z) :
  0 <= y <= 9999 -> UTC_Jan1 y = Some (TimeFromYear (utcYear y)).
Proof.
  intros H. unfold UTC_Jan1, utcYear.
  replace (0 <=? y) with true by (symmetry; apply Z.leb_le; lia).
  cbn [andb]. unfold TimeClip.
  replace (Z.abs (TimeFromYear (if y <=? 99 then 1900 + y else y)) <=? maxTime)
    with true; [reflexivity |].
  symmetry. apply Z.leb_le.
  destruct (y <=? 99) eqn:E; [apply Z.leb_le in E | apply Z.leb_gt in E];
    unfold TimeFromYear, DayFromYear, msPerDay, maxTime; zdiv.
Qed.

Lemma utcYear_range (y : Z) : 0 <= y <= 9999 -> 100 <= utcYear y <= 9999.
Proof.
  intros H. unfold utcYear.
  destruct (y <=? 99) eqn:E; [apply Z.leb_le in E | apply Z.leb_gt in E]; lia.
Qed.

Lemma TimeClip_inside (yr d : Z) :
  100 <= yr <= 9999 -> 0 <= d <= 40000000000 ->
  TimeClip (TimeFromYear yr + d) = Some (TimeFromYear yr + d).
Proof.
  intros Hy Hd. unfold TimeClip.
  replace (Z.abs (TimeFromYear yr + d) <=? maxTime) with true; [reflexivity |].
  symmetry. apply Z.leb_le.
  unfold TimeFromYear, DayFromYear, msPerDay, maxTime. zdiv.
Qed.


Lemma BeatIndex_decode_shape
  (y1 y2 y3 y4 P a B t m1 m2 m3 m4 m5 m6 : ascii) :
  isDigit y1 -> isDigit y2 -> isDigit y3 -> isDigit y4 ->
  isUpper P -> isDigit a -> isUpper B -> isDigit t ->
  isDigit m1 -> isDigit m2 -> isDigit m3 ->
  isDigit m4 -> isDigit m5 -> isDigit m6 ->
  let yv := value4 y1 y2 y3 y4 in
  BeatIndex.decode
    (String y1 (String y2 (String y3 (String y4 (String "_"
      (String P (String a (String B (String t (String "_"
        (String m1 (String m2 (String m3 (String m4 (String m5
          (String m6 EmptyString))))))))))))))))
  = Ok (Some (TimeFromYear (utcYear yv)
              + (beatStartMs (yearTotalMs yv) (beatOfChars P a B t)
                 + value6 m1 m2 m3 m4 m5 m6))).
Proof.
  intros Hy1 Hy2 Hy3 Hy4 HP Ha HB Ht Hm1 Hm2 Hm3 Hm4 Hm5 Hm6 yv.
  unfold BeatIndex.decode. rewrite matchPieces_shape by assumption.
  cbv zeta. unfold BeatIndex._SCALER_N.
  cbn [JSString.toInt JSString.digitsValueFrom list_ascii_of_string fold_left
       JSString.charCodeAt0].
  fold (digitVal y1) (digitVal y2) (digitVal y3) (digitVal y4)
       (digitVal a) (digitVal t) (letterVal P) (letterVal B)
       (digitVal m1) (digitVal m2) (digitVal m3) (digitVal m4)
       (digitVal m5) (digitVal m6).
  replace (10 * (10 * (10 * (10 * 0 + digitVal y1) + digitVal y2)
                  + digitVal y3) + digitVal y4) with yv
    by (unfold yv, value4; ring).
  replace (10 * (10 * (10 * (10 * (10 * (10 * 0 + digitVal m1) + digitVal m2)
                            + digitVal m3) + digitVal m4) + digitVal m5)
           + digitVal m6) with (value6 m1 m2 m3 m4 m5 m6)
    by (unfold value6; ring).
  pose proof (digitVal_range _ Hy1). pose proof (digitVal_range _ Hy2).
  pose proof (digitVal_range _ Hy3). pose proof (digitVal_range _ Hy4).
  pose proof (digitVal_range _ Ha) as Hra. pose proof (digitVal_range _ Ht) as Hrt.
  pose proof (letterVal_range _ HP) as HrP. pose proof (letterVal_range _ HB) as HrB.
  pose proof (digitVal_range _ Hm1). pose proof (digitVal_range _ Hm2).
  pose proof (digitVal_range _ Hm3). pose proof (digitVal_range _ Hm4).
  pose proof (digitVal_range _ Hm5). pose proof (digitVal_range _ Hm6).
  assert (Hyv : 0 <= yv <= 9999) by (unfold yv, value4; lia).
  assert (Hmv : 0 <= value6 m1 m2 m3 m4 m5 m6 <= 999999)
    by (unfold value6; lia).
  fold (yearTotalMs yv).
  pose proof (yearTotalMs_len yv) as HY.
  replace (letterVal P * 2600 + (10 * 0 + digitVal a) * 260 + letterVal B * 10
           + (10 * 0 + digitVal t)) with (beatOfChars P a B t)
    by (unfold beatOfChars; ring).
  assert (Hk : 0 <= beatOfChars P a B t < 67600) by (unfold beatOfChars; lia).
  pose proof (beatStartMs_range _ HY _ Hk) as Hbs.
  replace (yearTotalMs yv * 1000000 * beatOfChars P a B t)
    with (yearTotalMs yv * beatOfChars P a B t * 1000000) by ring.
  assert (HYpos : 0 < yearTotalMs yv) by (destruct HY as [-> | ->]; lia).
  rewrite (Z.quot_div_nonneg (_ * 1000000) 67600) by nia.
  fold (beatStartScaled (yearTotalMs yv) (beatOfChars P a B t)).
  assert (Hs : 0 <= beatStartScaled (yearTotalMs yv) (beatOfChars P a B t))
    by (unfold beatStartScaled; apply Z.div_pos; nia).
  rewrite Z.quot_div_nonneg by lia.
  rewrite beatIndex_decode_total by assumption.
  rewrite UTC_Jan1_parsed by assumption.
  cbn [option_map newDate].
  rewrite TimeClip_inside;
    [reflexivity | apply utcYear_range; assumption |].
  destruct HY as [E | E]; rewrite E in *; lia.
Qed.

Lemma Cascade_decode_shape
  (y1 y2 y3 y4 P a B t m1 m2 m3 m4 m5 m6 : ascii) :
  isDigit y1 -> isDigit y2 -> isDigit y3 -> isDigit y4 ->
  isUpper P -> isDigit a -> isUpper B -> isDigit t ->
  isDigit m1 -> isDigit m2 -> isDigit m3 ->
  isDigit m4 -> isDigit m5 -> isDigit m6 ->
  let yv := value4 y1 y2 y3 y4 in
  let k := beatOfChars P a B t in
  Cascade.decode
    (String y1 (String y2 (String y3 (String y4 (String "_"
      (String P (String a (String B (String t (String "_"
        (String m1 (String m2 (String m3 (String m4 (String m5
          (String m6 EmptyString))))))))))))))))
  = Ok (Some (TimeFromYear (utcYear yv)
              + (beatStartMs (yearTotalMs yv) k
                 + value6 m1 m2 m3 m4 m5 m6
                 - (if (k mod 169 =? 0) && negb (k =? 0) then 1 else 0)))).
Proof.
  intros Hy1 Hy2 Hy3 Hy4 HP Ha HB Ht Hm1 Hm2 Hm3 Hm4 Hm5 Hm6 yv k.
  unfold Cascade.decode. rewrite matchPieces_shape by assumption.
  cbv zeta. unfold Cascade._SCALER_N.
  cbn [JSString.toInt JSString.digitsValueFrom list_ascii_of_string fold_left
       JSString.charCodeAt0].
  fold (digitVal y1) (digitVal y2) (digitVal y3) (digitVal y4)
       (digitVal a) (digitVal t) (letterVal P) (letterVal B)
       (digitVal m1) (digitVal m2) (digitVal m3) (digitVal m4)
       (digitVal m5) (digitVal m6).
  replace (10 * (10 * (10 * (10 * 0 + digitVal y1) + digitVal y2)
                  + digitVal y3) + digitVal y4) with yv
    by (unfold yv, value4; ring).
  replace (10 * (10 * (10 * (10 * (10 * (10 * 0 + digitVal m1) + digitVal m2)
                            + digitVal m3) + digitVal m4) + digitVal m5)
           + digitVal m6) with (value6 m1 m2 m3 m4 m5 m6)
    by (unfold value6; ring).
  pose proof (digitVal_range _ Hy1). pose proof (digitVal_range _ Hy2).
  pose proof (digitVal_range _ Hy3). pose proof (digitVal_range _ Hy4).
  pose proof (digitVal_range _ Ha) as Hra. pose proof (digitVal_range _ Ht) as Hrt.
  pose proof (letterVal_range _ HP) as HrP. pose proof (letterVal_range _ HB) as HrB.
  pose proof (digitVal_range _ Hm1). pose proof (digitVal_range _ Hm2).
  pose proof (digitVal_range _ Hm3). pose proof (digitVal_range _ Hm4).
  pose proof (digitVal_range _ Hm5). pose proof (digitVal_range _ Hm6).
  assert (Hyv : 0 <= yv <= 9999) by (unfold yv, value4; lia).
  assert (Hmv : 0 <= value6 m1 m2 m3 m4 m5 m6 <= 999999)
    by (unfold value6; lia).
  fold (yearTotalMs yv).
  pose proof (yearTotalMs_len yv) as HY.
  fold (periodSize (yearTotalMs yv)). fold (arcSize (yearTotalMs yv)).
  fold (barSize (yearTotalMs yv)). fold (beatSize (yearTotalMs yv)).
  replace (10 * 0 + digitVal a) with (digitVal a) by ring.
  replace (10 * 0 + digitVal t) with (digitVal t) by ring.
  fold (cascadeStart (yearTotalMs yv) (letterVal P) (digitVal a)
          (letterVal B) (digitVal t)).
  pose proof (cascade_decode_total (yearTotalMs yv) HY (letterVal P)
                (digitVal a) (letterVal B) (digitVal t)
                (value6 m1 m2 m3 m4 m5 m6) HrP Hra HrB Hrt) as Hd.
  cbv zeta in Hd. fold (beatOfChars P a B t) in Hd. fold k in Hd.
  rewrite Hd by lia. clear Hd.
  assert (Hk : 0 <= k < 67600) by (unfold k, beatOfChars; lia).
  pose proof (beatStartMs_range _ HY _ Hk) as Hbs.
  rewrite UTC_Jan1_parsed by assumption.
  cbn [option_map newDate].
  assert (Hc : 0 <= beatStartMs (yearTotalMs yv) k
               - (if (k mod 169 =? 0) && negb (k =? 0) then 1 else 0)).
  { destruct (k mod 169 =? 0) eqn:E1; cbn [andb]; [| lia].
    destruct (k =? 0) eqn:E0; cbn [negb]; [lia |].
    apply Z.eqb_eq in E1. apply Z.eqb_neq in E0.
    pose proof (aligned_exact _ HY _ E1) as Hex.
    assert (0 < yearTotalMs yv * k) by (destruct HY as [-> | ->]; lia).
    lia. }
  rewrite TimeClip_inside;
    [reflexivity | apply utcYear_range; assumption |].
  destruct (if (k mod 169 =? 0) && negb (k =? 0) then 1 else 0) eqn:Ei;
    destruct HY as [E | E]; rewrite E in *; try lia;
    destruct ((k mod 169 =? 0) && negb (k =? 0)); try discriminate; lia.
Qed.

(** *** Decoding what [encode] wrote *)

Lemma fixedDigits_app (k : nat) :
  forall n acc, fixedDigits k n acc = (fixedDigits k n EmptyString ++ acc)%string.
Proof.
  induction k as [| k IH]; intros n acc; cbn [fixedDigits]; [reflexivity |].
  rewrite IH. rewrite (IH _ (String _ EmptyString)).
  rewrite append_assoc. reflexivity.
Qed.

Lemma canonOf_chars (y p a b t off : Z) :
  1000 <= y <= 9999 -> 0 <= a <= 9 -> 0 <= t <= 9 -> 0 <= off < 1000000 ->
  canonOf y p a b t off = fixedDigits 4 y (unitTail p a b t off).
Proof.
  intros Hy Ha Ht Hoff. rewrite canonOf_tail by assumption.
  rewrite ofInt_year by assumption. symmetry. apply fixedDigits_app.
Qed.

Lemma mod10_range (n : Z) : 0 <= n mod 10 <= 9.
Proof. pose proof (Z.mod_pos_bound n 10). lia. Qed.

Lemma value4_digits (y : Z) :
  0 <= y <= 9999 ->
  value4 (JSString.digitChar (y / 10 / 10 / 10 mod 10))
         (JSString.digitChar (y / 10 / 10 mod 10))
         (JSString.digitChar (y / 10 mod 10))
         (JSString.digitChar (y mod 10)) = y.
Proof.
  intros H. unfold value4.
  rewrite !digitVal_digitChar by apply mod10_range.
  zdiv.
Qed.

Lemma value6_digits (n : Z) :
  0 <= n < 1000000 ->
  value6 (JSString.digitChar (n / 10 / 10 / 10 / 10 / 10 mod 10))
         (JSString.digitChar (n / 10 / 10 / 10 / 10 mod 10))
         (JSString.digitChar (n / 10 / 10 / 10 mod 10))
         (JSString.digitChar (n / 10 / 10 mod 10))
         (JSString.digitChar (n / 10 mod 10))
         (JSString.digitChar (n mod 10)) = n.
Proof.
  intros H. unfold value6.
  rewrite !digitVal_digitChar by apply mod10_range.
  zdiv.
Qed.

Lemma isDigit_mod10 (n : Z) : isDigit (JSString.digitChar (n mod 10)).
Proof. apply isDigit_digitChar, mod10_range. Qed.

Create HintDb chars.
#[local] Hint Resolve isDigit_mod10 isDigit_digitChar isUpper_letterChar : chars.

Lemma beatOfChars_digits (p a b t : Z) :
  0 <= p <= 25 -> 0 <= a <= 9 -> 0 <= b <= 25 -> 0 <= t <= 9 ->
  beatOfChars (letterChar p) (JSString.digitChar a)
              (letterChar b) (JSString.digitChar t)
  = 2600 * p + 260 * a + 10 * b + t.
Proof.
  intros Hp Ha Hb Ht. unfold beatOfChars.
  rewrite !letterVal_letterChar, !digitVal_digitChar by assumption.
  reflexivity.
Qed.

Lemma BeatIndex_decode_canonOf (y p a b t off : Z) :
  1000 <= y <= 9999 ->
  0 <= p <= 25 -> 0 <= a <= 9 -> 0 <= b <= 25 -> 0 <= t <= 9 ->
  0 <= off < 1000000 ->
  BeatIndex.decode (canonOf y p a b t off)
  = Ok (Some (TimeFromYear y
              + (beatStartMs (yearTotalMs y) (2600 * p + 260 * a + 10 * b + t)
                 + off))).
Proof.
  intros Hy Hp Ha Hb Ht Hoff. rewrite canonOf_chars by assumption.
  unfold unitTail. cbn [fixedDigits].
  rewrite BeatIndex_decode_shape by auto with chars.
  rewrite value4_digits, value6_digits, beatOfChars_digits by (assumption || lia).
  unfold utcYear. replace (y <=? 99) with false by (symmetry; apply Z.leb_gt; lia).
  reflexivity.
Qed.

Lemma Cascade_decode_canonOf (y p a b t off : Z) :
  1000 <= y <= 9999 ->
  0 <= p <= 25 -> 0 <= a <= 9 -> 0 <= b <= 25 -> 0 <= t <= 9 ->
  0 <= off < 1000000 ->
  let k := 2600 * p + 260 * a + 10 * b + t in
  Cascade.decode (canonOf y p a b t off)
  = Ok (Some (TimeFromYear y
              + (beatStartMs (yearTotalMs y) k + off
                 - (if (k mod 169 =? 0) && negb (k =? 0) then 1 else 0)))).
Proof.
  intros Hy Hp Ha Hb Ht Hoff k. rewrite canonOf_chars by assumption.
  unfold unitTail. cbn [fixedDigits].
  rewrite Cascade_decode_shape by auto with chars.
  rewrite value4_digits, value6_digits, beatOfChars_digits by (assumption || lia).
  unfold utcYear. replace (y <=? 99) with false by (symmetry; apply Z.leb_gt; lia).
  reflexivity.
Qed.

(** *** The round trip *)

Lemma validInstant_ms (x : Z) :
  validInstant x ->
  sinceYearStart x (getUTCFullYear x) = Some (msInYear x)
  /\ 0 <= msInYear x < yearTotalMs (getUTCFullYear x).
Proof.
  intros H. unfold validInstant in H. split.
  - apply sinceYearStart_valid. lia.
  - pose proof (YearFromTime_spec x) as S.
    rewrite TimeFromYear_succ in S. unfold msInYear, getUTCFullYear. lia.
Qed.

(** The fields of a record of the grid are in range. *)
Lemma gridRecord_ranges (y ms arcStart arcEnd : Z) :
  0 <= ms < yearTotalMs y ->
  let r := gridRecord y ms arcStart arcEnd in
  0 <= period r <= 25 /\ 0 <= arc r <= 9 /\ 0 <= bar r <= 25
  /\ 0 <= beat r <= 9 /\ 0 <= msOffsetInBeat r <= 467786
  /\ beatIndexOf (yearTotalMs y) ms
     = 2600 * period r + 260 * arc r + 10 * bar r + beat r.
Proof.
  intros H r. pose proof (yearTotalMs_len y) as HY.
  pose proof (beatIndexOf_range _ HY ms H) as Hk.
  pose proof (beat_digits _ Hk) as (Hp & Ha & Hb & Ht & Hd).
  pose proof (offsetOf_range _ HY ms H) as Ho.
  unfold r, gridRecord. cbn [period arc bar beat msOffsetInBeat].
  repeat split; lia || assumption.
Qed.

Lemma BeatIndex_roundtrip (x : Z) :
  validInstant x ->
  exists r,
    BeatIndex.encode x = Ok r
    /\ BeatIndex.decode (canonical r)
       = Ok (Some (x - (if beatOfInstant x mod 169 =? 0 then 0 else 1))).
Proof.
  intros Hv. destruct (validInstant_ms x Hv) as [Hms H].
  destruct (BeatIndex_encode_grid x _ Hms H) as (s & e & Henc).
  eexists. split; [exact Henc |].
  pose proof (gridRecord_ranges _ _ s e H) as (Hp & Ha & Hb & Ht & Ho & Hk).
  cbv zeta in *. unfold gridRecord in *.
  cbn [canonical period arc bar beat msOffsetInBeat] in *.
  rewrite BeatIndex_decode_canonOf by (assumption || lia).
  rewrite <- Hk. rewrite offsetOf_eq by apply yearTotalMs_len.
  unfold beatOfInstant. do 2 f_equal. unfold msInYear. lia.
Qed.

Lemma Cascade_roundtrip (x : Z) :
  validInstant x ->
  exists r,
    Cascade.encode x = Ok r
    /\ Cascade.decode (canonical r)
       = Ok (Some (x - (if beatOfInstant x =? 0 then 0 else 1))).
Proof.
  intros Hv. destruct (validInstant_ms x Hv) as [Hms H].
  destruct (Cascade_encode_grid x _ Hms H) as (s & e & Henc).
  eexists. split; [exact Henc |].
  pose proof (gridRecord_ranges _ _ s e H) as (Hp & Ha & Hb & Ht & Ho & Hk).
  cbv zeta in *. unfold gridRecord in *.
  cbn [canonical period arc bar beat msOffsetInBeat] in *.
  rewrite Cascade_decode_canonOf by (assumption || lia).
  cbv zeta. rewrite <- Hk. rewrite offsetOf_eq by apply yearTotalMs_len.
  unfold beatOfInstant. do 2 f_equal. unfold msInYear.
  set (k := beatIndexOf (yearTotalMs (getUTCFullYear x))
              (x - TimeFromYear (getUTCFullYear x))).
  destruct (k =? 0) eqn:E0.
  - apply Z.eqb_eq in E0. rewrite E0. cbn. lia.
  - cbn [negb]. rewrite andb_true_r.
    destruct (k mod 169 =? 0); lia.
Qed.

(** *** Comparing canonical strings *)

Lemma ascii_compare_refl (c : ascii) : Ascii.compare c c = Eq.
Proof. unfold Ascii.compare. apply N.compare_refl. Qed.

Lemma compare_app_same (s u v : string) :
  String.compare (s ++ u) (s ++ v) = String.compare u v.
Proof.
  induction s as [| c s IH]; cbn [append String.compare]; [reflexivity |].
  rewrite ascii_compare_refl. exact IH.
Qed.

Lemma compare_cons_eq (c : ascii) (r1 r2 : string) :
  String.compare (String c r1) (String c r2) = String.compare r1 r2.
Proof. cbn [String.compare]. rewrite ascii_compare_refl. reflexivity. Qed.

Lemma compare_cons_lt (c1 c2 : ascii) (r1 r2 : string) :
  JSString.codeOf c1 < JSString.codeOf c2 ->
  String.compare (String c1 r1) (String c2 r2) = Lt.
Proof.
  intros H. cbn [String.compare]. unfold Ascii.compare.
  unfold JSString.codeOf in H.
  replace (N_of_ascii c1 ?= N_of_ascii c2)%N with Lt; [reflexivity |].
  symmetry. apply N.compare_lt_iff. lia.
Qed.

Lemma compare_digit_lt (d1 d2 : Z) (r1 r2 : string) :
  0 <= d1 -> d1 < d2 -> d2 <= 9 ->
  String.compare (String (JSString.digitChar d1) r1)
                 (String (JSString.digitChar d2) r2) = Lt.
Proof.
  intros H0 H1 H2. apply compare_cons_lt.
  rewrite !codeOf_digitChar by lia. lia.
Qed.

Lemma compare_letter_lt (n1 n2 : Z) (r1 r2 : string) :
  0 <= n1 -> n1 < n2 -> n2 <= 25 ->
  String.compare (String (letterChar n1) r1) (String (letterChar n2) r2) = Lt.
Proof.
  intros H0 H1 H2. apply compare_cons_lt. unfold letterChar.
  rewrite !codeOf_ascii_of_Z by lia. lia.
Qed.

(** Numbers written with the same count of digits compare as their
    digits do. *)
Lemma fixedDigits_compare (k : nat) :
  forall n1 n2 acc1 acc2,
    0 <= n1 -> n2 < 10 ^ Z.of_nat k ->
    (n1 < n2 ->
     String.compare (fixedDigits k n1 acc1) (fixedDigits k n2 acc2) = Lt)
    /\ (n1 = n2 ->
        String.compare (fixedDigits k n1 acc1) (fixedDigits k n2 acc2)
        = String.compare acc1 acc2).
Proof.
  induction k as [| k IH]; intros n1 n2 acc1 acc2 H1 H2.
  - change (10 ^ Z.of_nat 0) with 1 in H2. split; intros H; [lia |].
    reflexivity.
  - rewrite Nat2Z.inj_succ, Z.pow_succ_r in H2 by lia.
    cbn [fixedDigits].
    assert (H1' : 0 <= n1 / 10) by zdiv.
    split; intros H.
    + assert (H2' : n2 / 10 < 10 ^ Z.of_nat k) by zdiv.
      destruct (Z.eq_dec (n1 / 10) (n2 / 10)) as [E | N].
      * destruct (IH (n1 / 10) (n2 / 10)
                    (String (JSString.digitChar (n1 mod 10)) acc1)
                    (String (JSString.digitChar (n2 mod 10)) acc2) H1' H2')
          as [_ IH2].
        rewrite (IH2 E). apply compare_digit_lt; zdiv.
      * destruct (IH (n1 / 10) (n2 / 10)
                    (String (JSString.digitChar (n1 mod 10)) acc1)
                    (String (JSString.digitChar (n2 mod 10)) acc2) H1' H2')
          as [IH1 _].
        apply IH1. zdiv.
    + subst n2.
      assert (H2' : n1 / 10 < 10 ^ Z.of_nat k) by zdiv.
      destruct (IH (n1 / 10) (n1 / 10)
                  (String (JSString.digitChar (n1 mod 10)) acc1)
                  (String (JSString.digitChar (n1 mod 10)) acc2) H1' H2')
        as [_ IH2].
      rewrite (IH2 eq_refl). apply compare_cons_eq.
Qed.

(** The order of the fields, coarsest first, is the order of the strings. *)
Lemma unitTail_lt (p1 a1 b1 t1 o1 p2 a2 b2 t2 o2 : Z) :
  0 <= p1 <= 25 -> 0 <= a1 <= 9 -> 0 <= b1 <= 25 -> 0 <= t1 <= 9 ->
  0 <= p2 <= 25 -> 0 <= a2 <= 9 -> 0 <= b2 <= 25 -> 0 <= t2 <= 9 ->
  0 <= o1 -> o2 < 1000000 ->
  p1 < p2 \/ p1 = p2 /\
    (a1 < a2 \/ a1 = a2 /\
      (b1 < b2 \/ b1 = b2 /\
        (t1 < t2 \/ t1 = t2 /\ o1 < o2))) ->
  String.compare (unitTail p1 a1 b1 t1 o1) (unitTail p2 a2 b2 t2 o2) = Lt.
Proof.
  intros Hp1 Ha1 Hb1 Ht1 Hp2 Ha2 Hb2 Ht2 Ho1 Ho2 H.
  unfold unitTail. rewrite compare_cons_eq.
  destruct H as [H | [-> H]]; [apply compare_letter_lt; lia |].
  rewrite compare_cons_eq.
  destruct H as [H | [-> H]]; [apply compare_digit_lt; lia |].
  rewrite compare_cons_eq.
  destruct H as [H | [-> H]]; [apply compare_letter_lt; lia |].
  rewrite compare_cons_eq.
  destruct H as [H | [-> H]]; [apply compare_digit_lt; lia |].
  rewrite !compare_cons_eq.
  apply (fixedDigits_compare 6); [lia | exact Ho2 | exact H].
Qed.


(** Two instants of one year, the earlier first, give records whose
    canonical strings are in this order. *)
Lemma gridRecord_lt (y ms1 ms2 s1 e1 s2 e2 : Z) :
  0 <= ms1 -> ms1 < ms2 -> ms2 < yearTotalMs y ->
  JSString.lt (canonical (gridRecord y ms1 s1 e1))
              (canonical (gridRecord y ms2 s2 e2)) = true.
Proof.
  intros H0 H12 H2.
  assert (H1r : 0 <= ms1 < yearTotalMs y) by lia.
  assert (H2r : 0 <= ms2 < yearTotalMs y) by lia.
  pose proof (yearTotalMs_len y) as HY.
  pose proof (gridRecord_ranges y ms1 s1 e1 H1r) as (Hp1 & Ha1 & Hb1 & Ht1 & Ho1 & Hk1).
  pose proof (gridRecord_ranges y ms2 s2 e2 H2r) as (Hp2 & Ha2 & Hb2 & Ht2 & Ho2 & Hk2).
  assert (Hmono : beatIndexOf (yearTotalMs y) ms1 <= beatIndexOf (yearTotalMs y) ms2)
    by (apply beatIndexOf_mono; [assumption | lia]).
  assert (Hoff : beatIndexOf (yearTotalMs y) ms1 = beatIndexOf (yearTotalMs y) ms2 ->
                 offsetOf (yearTotalMs y) ms1 < offsetOf (yearTotalMs y) ms2).
  { intros E. rewrite !offsetOf_eq by assumption. rewrite E. lia. }
  cbv zeta in *. unfold gridRecord in *.
  cbn [canonical period arc bar beat msOffsetInBeat] in *.
  rewrite !canonOf_tail by (assumption || lia).
  unfold JSString.lt, String.ltb. rewrite compare_app_same.
  rewrite unitTail_lt; try reflexivity; try assumption; try lia.
Qed.

(** *** The two versions side by side *)

(** Inside a year the two versions write the same canonical string and
    the same fields; the arc bounds are left aside. *)
Lemma encodings_agree (x ms : Z) :
  sinceYearStart x (getUTCFullYear x) = Some ms ->
  0 <= ms < yearTotalMs (getUTCFullYear x) ->
  exists r1 r2,
    Cascade.encode x = Ok r1 /\ BeatIndex.encode x = Ok r2
    /\ canonical r1 = canonical r2 /\ year r1 = year r2
    /\ period r1 = period r2 /\ arc r1 = arc r2 /\ bar r1 = bar r2
    /\ beat r1 = beat r2 /\ msOffsetInBeat r1 = msOffsetInBeat r2
    /\ periodLetter r1 = periodLetter r2 /\ barLetter r1 = barLetter r2
    /\ readable r1 = readable r2.
Proof.
  intros Hms H.
  destruct (Cascade_encode_grid x ms Hms H) as (s1 & e1 & E1).
  destruct (BeatIndex_encode_grid x ms Hms H) as (s2 & e2 & E2).
  do 2 eexists. split; [exact E1 |]. split; [exact E2 |].
  repeat split.
Qed.

(** On a string of the shape, the cascade decodes one millisecond short
    of the other version exactly when the beat starts on a whole
    millisecond and is not the first of the year. *)
Lemma decodings_differ (s : string) :
  canonShape s ->
  exists k t,
    0 <= k < 67600
    /\ BeatIndex.decode s = Ok (Some t)
    /\ Cascade.decode s
       = Ok (Some (t - (if (k mod 169 =? 0) && negb (k =? 0) then 1 else 0))).
Proof.
  intros H. destruct H.
  exists (beatOfChars P a B t). eexists.
  rewrite Cascade_decode_shape, BeatIndex_decode_shape by assumption.
  split; [| split; [reflexivity |]].
  - pose proof (digitVal_range _ H4). pose proof (digitVal_range _ H6).
    pose proof (letterVal_range _ H3). pose proof (letterVal_range _ H5).
    unfold beatOfChars. lia.
  - cbv zeta. do 2 f_equal. lia.
Qed.






(** The canonical string of a record of the grid, character by
    character, and its shape. *)
Lemma gridRecord_canonical (y ms arcStart arcEnd : Z) :
  1000 <= y <= 9999 -> 0 <= ms < yearTotalMs y ->
  let r := gridRecord y ms arcStart arcEnd in
  canonical r
  = fixedDigits 4 (year r)
      (unitTail (period r) (arc r) (bar r) (beat r) (msOffsetInBeat r))
  /\ canonShape (canonical r).
Proof.
  intros Hy H r.
  pose proof (gridRecord_ranges y ms arcStart arcEnd H)
    as (Hp & Ha & Hb & Ht & Ho & _).
  fold r in Hp, Ha, Hb, Ht, Ho.
  assert (E : canonical r
              = fixedDigits 4 (year r)
                  (unitTail (period r) (arc r) (bar r) (beat r)
                     (msOffsetInBeat r))).
  { unfold r, gridRecord in *.
    cbn [canonical year period arc bar beat msOffsetInBeat] in *.
    apply canonOf_chars; assumption || lia. }
  split; [exact E |]. rewrite E. unfold unitTail. cbn [fixedDigits].
  constructor; auto with chars.
Qed.

(** *** When [encode] returns

    For every time value there are three outcomes: the instant lies
    inside its own year and [encode] returns; the year is between 0 and
    99, [Date.UTC] answers with the start of 1900 + y, the period index is
    negative and the letter helper throws; or [Date.UTC] answers NaN and
    [BigInt] throws. *)

Lemma two_digit_year_offset (x : Z) :
  0 <= getUTCFullYear x <= 99 ->
  x - TimeFromYear (1900 + getUTCFullYear x) <= - 59000000000000.
Proof.
  intros Hy. pose proof (YearFromTime_spec x) as [_ Hx].
  unfold getUTCFullYear in *. revert Hy Hx. generalize (YearFromTime x).
  intros y Hy Hx. unfold TimeFromYear, DayFromYear, msPerDay in *. zdiv.
Qed.

Lemma UTC_Jan1_some (y s : Z) :
  ~ 0 <= y <= 99 -> UTC_Jan1 y = Some s -> s = TimeFromYear y.
Proof.
  intros Hy. unfold UTC_Jan1.
  replace ((0 <=? y) && (y <=? 99)) with false.
  - unfold TimeClip. destruct (Z.abs (TimeFromYear y) <=? maxTime);
      [intros E; injection E as <-; reflexivity | discriminate].
  - symmetry. apply andb_false_iff.
    destruct (Z_le_dec 0 y); [right; apply Z.leb_gt | left; apply Z.leb_gt]; lia.
Qed.

Lemma inOwnYear_of_start (x s : Z) :
  ~ 0 <= getUTCFullYear x <= 99 ->
  UTC_Jan1 (getUTCFullYear x) = Some s -> inOwnYear x.
Proof.
  intros Hy Es. apply UTC_Jan1_some in Es as Hs; [| assumption]. subst s.
  exists (x - TimeFromYear (getUTCFullYear x)). split.
  - unfold sinceYearStart. rewrite Es. reflexivity.
  - pose proof (YearFromTime_spec x) as S.
    rewrite TimeFromYear_succ in S. unfold getUTCFullYear. lia.
Qed.

Lemma Cascade_encode_outcomes (x : Z) :
  (inOwnYear x /\ exists r, Cascade.encode x = Ok r)
  \/ (0 <= getUTCFullYear x <= 99
      /\ Cascade.encode x
         = Throw (Error "Invalid index for Base26 single char conversion."))
  \/ (UTC_Jan1 (getUTCFullYear x) = None
      /\ exists m, Cascade.encode x = Throw (RangeError m)).
Proof.
  destruct (UTC_Jan1 (getUTCFullYear x)) as [s |] eqn:Es.
  - destruct (Z_le_dec 0 (getUTCFullYear x)) as [H0 | H0];
      [destruct (Z_le_dec (getUTCFullYear x) 99) as [H99 | H99] |].
    + right. left. split; [lia |].
      pose proof (two_digit_year_offset x (conj H0 H99)) as Hms.
      rewrite UTC_Jan1_parsed in Es by lia. injection Es as <-.
      unfold utcYear in Hms.
      unfold Cascade.encode, sinceYearStart.
      rewrite UTC_Jan1_parsed by lia. unfold utcYear.
      replace (getUTCFullYear x <=? 99) with true
        by (symmetry; apply Z.leb_le; lia).
      cbn [option_map BigInt bind]. cbv zeta.
      unfold Number, Cascade._SCALER_N, Cascade._toBase26.
      fold (yearTotalMs (getUTCFullYear x)).
      fold (periodSize (yearTotalMs (getUTCFullYear x))).
      set (ms := x - TimeFromYear (1900 + getUTCFullYear x)) in *.
      replace (ms * 1000000 ÷ periodSize (yearTotalMs (getUTCFullYear x)) <? 0)
        with true; [reflexivity |].
      symmetry. apply Z.ltb_lt.
      destruct (yearTotalMs_len (getUTCFullYear x)) as [-> | ->].
      * change (periodSize 31536000000) with 1212923076923076. zdiv.
      * change (periodSize 31622400000) with 1216246153846153. zdiv.
    + left. assert (Hown : inOwnYear x) by (eapply inOwnYear_of_start; [lia | eassumption]).
      split; [exact Hown |]. destruct Hown as (ms & Hms & H).
      destruct (Cascade_encode_grid x ms Hms H) as (a & b & E). eauto.
    + left. assert (Hown : inOwnYear x) by (eapply inOwnYear_of_start; [lia | eassumption]).
      split; [exact Hown |]. destruct Hown as (ms & Hms & H).
      destruct (Cascade_encode_grid x ms Hms H) as (a & b & E). eauto.
  - right. right. split; [reflexivity |].
    unfold Cascade.encode, sinceYearStart. rewrite Es.
    cbn [option_map BigInt bind]. eexists. reflexivity.
Qed.

Lemma BeatIndex_encode_outcomes (x : Z) :
  (inOwnYear x /\ exists r, BeatIndex.encode x = Ok r)
  \/ (0 <= getUTCFullYear x <= 99
      /\ BeatIndex.encode x = Throw (Error "Invalid index for Base26."))
  \/ (UTC_Jan1 (getUTCFullYear x) = None
      /\ exists m, BeatIndex.encode x = Throw (RangeError m)).
Proof.
  destruct (UTC_Jan1 (getUTCFullYear x)) as [s |] eqn:Es.
  - destruct (Z_le_dec 0 (getUTCFullYear x)) as [H0 | H0];
      [destruct (Z_le_dec (getUTCFullYear x) 99) as [H99 | H99] |].
    + right. left. split; [lia |].
      pose proof (two_digit_year_offset x (conj H0 H99)) as Hms.
      rewrite UTC_Jan1_parsed in Es by lia. injection Es as <-.
      unfold utcYear in Hms.
      unfold BeatIndex.encode, sinceYearStart.
      rewrite UTC_Jan1_parsed by lia. unfold utcYear.
      replace (getUTCFullYear x <=? 99) with true
        by (symmetry; apply Z.leb_le; lia).
      cbn [option_map BigInt bind]. cbv zeta.
      unfold Number, BeatIndex._SCALER_N, BeatIndex._toBase26.
      fold (yearTotalMs (getUTCFullYear x)).
      set (ms := x - TimeFromYear (1900 + getUTCFullYear x)) in *.
      replace (ms * 67600 ÷ yearTotalMs (getUTCFullYear x) ÷ 2600 <? 0)
        with true; [reflexivity |].
      symmetry. apply Z.ltb_lt.
      destruct (yearTotalMs_len (getUTCFullYear x)) as [-> | ->]; zdiv.
    + left. assert (Hown : inOwnYear x) by (eapply inOwnYear_of_start; [lia | eassumption]).
      split; [exact Hown |]. destruct Hown as (ms & Hms & H).
      destruct (BeatIndex_encode_grid x ms Hms H) as (a & b & E). eauto.
    + left. assert (Hown : inOwnYear x) by (eapply inOwnYear_of_start; [lia | eassumption]).
      split; [exact Hown |]. destruct Hown as (ms & Hms & H).
      destruct (BeatIndex_encode_grid x ms Hms H) as (a & b & E). eauto.
  - right. right. split; [reflexivity |].
    unfold BeatIndex.encode, sinceYearStart. rewrite Es.
    cbn [option_map BigInt bind]. eexists. reflexivity.
Qed.

(** *** Outside the documented years

    The canonical format documents the years 1000 to 9999.  Three
    evaluations show what the code does elsewhere: a year of five digits
    is written with five digits, which the regular expression of [decode]
    refuses; for the years 0 to 99 [Date.UTC] answers with the start of
    1900 + y, the period index is negative and the letter helper throws;
    for the first year of the host's range [Date.UTC] answers NaN and
    [BigInt] throws. *)

Lemma five_digit_year_is_refused :
  (exists r, Cascade.encode (TimeFromYear 10000) = Ok r
             /\ canonical r = "10000_A0A0_000000"%string
             /\ matchesCanon (canonical r) = false)
  /\ (exists r, BeatIndex.encode (TimeFromYear 10000) = Ok r
                /\ canonical r = "10000_A0A0_000000"%string
                /\ matchesCanon (canonical r) = false).
Proof.
  split; eexists; (split; [vm_compute; reflexivity |]); split; reflexivity.
Qed.

Lemma two_digit_year_throws :
  getUTCFullYear (TimeFromYear 50) = 50
  /\ sinceYearStart (TimeFromYear 50) 50 = Some (-59958144000000)
  /\ Cascade.encode (TimeFromYear 50)
     = Throw (Error "Invalid index for Base26 single char conversion.")
  /\ BeatIndex.encode (TimeFromYear 50)
     = Throw (Error "Invalid index for Base26.").
Proof. repeat split; vm_compute; reflexivity. Qed.

Lemma first_year_throws :
  getUTCFullYear (- maxTime) = -271821
  /\ UTC_Jan1 (-271821) = None
  /\ (exists m, Cascade.encode (- maxTime) = Throw (RangeError m))
  /\ (exists m, BeatIndex.encode (- maxTime) = Throw (RangeError m)).
Proof.
  repeat split; try (vm_compute; reflexivity); eexists; vm_compute; reflexivity.
Qed.

(** * The properties of the specification *)

(** C1 (round-trip bound).  For every valid UTC instant [x], each version
    of the codec encodes [x], decodes the canonical string again, and the
    decoded instant differs from [x] by at most one millisecond. *)
Theorem roundtrip_within_one_ms (x : Z) :
  validInstant x ->
  (exists r d, Cascade.encode x = Ok r
               /\ Cascade.decode (canonical r) = Ok (Some d)
               /\ Z.abs (d - x) <= 1)
  /\ (exists r d, BeatIndex.encode x = Ok r
                  /\ BeatIndex.decode (canonical r) = Ok (Some d)
                  /\ Z.abs (d - x) <= 1).
Proof.
  intros Hv. split.
  - destruct (Cascade_roundtrip x Hv) as (r & Henc & Hdec).
    exists r. eexists. repeat split; [exact Henc | exact Hdec |].
    destruct (beatOfInstant x =? 0); lia.
  - destruct (BeatIndex_roundtrip x Hv) as (r & Henc & Hdec).
    exists r. eexists. repeat split; [exact Henc | exact Hdec |].
    destruct (beatOfInstant x mod 169 =? 0); lia.
Qed.

Lemma roundtrip_within_one_ms_witness :
  validInstant 1749486600001
  /\ (exists r d, Cascade.encode 1749486600001 = Ok r
                  /\ Cascade.decode (canonical r) = Ok (Some d)
                  /\ Z.abs (d - 1749486600001) <= 1)
  /\ (exists r d, BeatIndex.encode 1749486600001 = Ok r
                  /\ BeatIndex.decode (canonical r) = Ok (Some d)
                  /\ Z.abs (d - 1749486600001) <= 1).
Proof.
  split; [vm_compute; split; discriminate |].
  apply (roundtrip_within_one_ms 1749486600001).
  vm_compute; split; discriminate.
Defined.

(** C2 (the two versions compared).  The versions are not equivalent at
    millisecond granularity.  On [2025_L3T5_000000], whose beat starts on
    a whole millisecond, the cascade decodes 2025-06-09T16:29:59.999Z and
    the beat-index version 2025-06-09T16:30:00.000Z; for the instant
    2025-07-02T12:00:00.000Z both write [2025_N0A0_000000], and the start
    of the arc is 15767999999 in the cascade and 15768000000 in the
    beat-index version. *)
Theorem versions_differ_on_whole_ms_beats :
  matchesCanon "2025_L3T5_000000" = true
  /\ Cascade.decode "2025_L3T5_000000" = Ok (Some 1749486599999)
  /\ BeatIndex.decode "2025_L3T5_000000" = Ok (Some 1749486600000)
  /\ (exists r1 r2,
         Cascade.encode 1751457600000 = Ok r1
         /\ BeatIndex.encode 1751457600000 = Ok r2
         /\ canonical r1 = "2025_N0A0_000000"%string
         /\ canonical r2 = "2025_N0A0_000000"%string
         /\ arcStartMsInYear r1 = 15767999999
         /\ arcStartMsInYear r2 = 15768000000).
Proof.
  repeat split; try (vm_compute; reflexivity).
  do 2 eexists.
  split; [vm_compute; reflexivity |].
  split; [vm_compute; reflexivity |].
  repeat split.
Qed.

(** C3 (sort order).  Two instants of the same calendar year, the first
    strictly earlier than the second, have canonical strings in the same
    strict order under the comparison of strings; this holds for every
    instant that lies inside its own year, hence for every instant of the
    years 1000 to 9999. *)
Theorem canonical_sorts_chronologically (x1 x2 : Z) :
  inOwnYear x1 -> inOwnYear x2 ->
  getUTCFullYear x1 = getUTCFullYear x2 ->
  x1 < x2 ->
  (exists r1 r2, Cascade.encode x1 = Ok r1 /\ Cascade.encode x2 = Ok r2
                 /\ JSString.lt (canonical r1) (canonical r2) = true)
  /\ (exists r1 r2, BeatIndex.encode x1 = Ok r1 /\ BeatIndex.encode x2 = Ok r2
                    /\ JSString.lt (canonical r1) (canonical r2) = true).
Proof.
  intros (ms1 & Hms1 & H1) (ms2 & Hms2 & H2) Hy Hlt.
  assert (Hms : ms1 < ms2).
  { rewrite <- Hy in Hms2. unfold sinceYearStart in Hms1, Hms2.
    destruct (UTC_Jan1 (getUTCFullYear x1)) as [s |]; [| discriminate].
    cbn [option_map] in Hms1, Hms2.
    injection Hms1 as <-. injection Hms2 as <-. lia. }
  assert (H2' : ms2 < yearTotalMs (getUTCFullYear x1)) by (rewrite Hy; lia).
  split.
  - destruct (Cascade_encode_grid x1 ms1 Hms1 H1) as (s1 & e1 & E1).
    destruct (Cascade_encode_grid x2 ms2 Hms2 H2) as (s2 & e2 & E2).
    do 2 eexists. split; [exact E1 |]. split; [exact E2 |].
    rewrite <- Hy. apply gridRecord_lt; lia || assumption.
  - destruct (BeatIndex_encode_grid x1 ms1 Hms1 H1) as (s1 & e1 & E1).
    destruct (BeatIndex_encode_grid x2 ms2 Hms2 H2) as (s2 & e2 & E2).
    do 2 eexists. split; [exact E1 |]. split; [exact E2 |].
    rewrite <- Hy. apply gridRecord_lt; lia || assumption.
Qed.

Lemma canonical_sorts_chronologically_witness :
  (exists r1 r2, Cascade.encode 1749486600000 = Ok r1
                 /\ Cascade.encode 1749486600001 = Ok r2
                 /\ JSString.lt (canonical r1) (canonical r2) = true)
  /\ (exists r1 r2, BeatIndex.encode 1749486600000 = Ok r1
                    /\ BeatIndex.encode 1749486600001 = Ok r2
                    /\ JSString.lt (canonical r1) (canonical r2) = true).
Proof.
  apply (canonical_sorts_chronologically 1749486600000 1749486600001).
  - exists 13797000000. vm_compute. repeat split; reflexivity || discriminate.
  - exists 13797000001. vm_compute. repeat split; reflexivity || discriminate.
  - vm_compute. reflexivity.
  - lia.
Defined.

(** C4 (decode and the format).  [decode] throws its format error, whose
    message carries the offending string between quotes, if and only if
    the string does not match the regular expression; on every string
    that matches it returns a Date with a finite time value, whatever the
    digits and letters are.  This holds in each version of the codec. *)
Theorem decode_rejects_exactly_malformed (s : string) :
  (matchesCanon s = false
   <-> Cascade.decode s
       = Throw (Error ("Bad AlphaDec canonical string (format YYYY_PaBt_MMMMMM): "
                       ++ dquote ++ s ++ dquote)))
  /\ (matchesCanon s = false
      <-> BeatIndex.decode s
          = Throw (Error ("Bad AlphaDec canonical string: "
                          ++ dquote ++ s ++ dquote)))
  /\ (matchesCanon s = true <-> exists t, Cascade.decode s = Ok (Some t))
  /\ (matchesCanon s = true <-> exists t, BeatIndex.decode s = Ok (Some t)).
Proof.
  destruct (matchesCanon s) eqn:E.
  - apply matchesCanon_iff in E. destruct E.
    rewrite Cascade_decode_shape, BeatIndex_decode_shape by assumption.
    repeat split; try discriminate; eauto.
  - unfold matchesCanon in E.
    destruct (JSString.matchPieces canonRegex s) eqn:Em; [discriminate |].
    unfold Cascade.decode, BeatIndex.decode. rewrite Em.
    repeat split; try discriminate; try reflexivity;
      intros [t Ht]; discriminate.
Qed.

Lemma decode_rejects_exactly_malformed_witness :
  Cascade.decode "2025_19T5_000000"
  = Throw (Error ("Bad AlphaDec canonical string (format YYYY_PaBt_MMMMMM): "
                  ++ dquote ++ "2025_19T5_000000" ++ dquote))
  /\ exists t, BeatIndex.decode "2025_V1G5_000000" = Ok (Some t).
Proof.
  split.
  - apply (decode_rejects_exactly_malformed "2025_19T5_000000"). reflexivity.
  - apply (decode_rejects_exactly_malformed "2025_V1G5_000000"). reflexivity.
Defined.

(** C5 (format validity).  For every valid UTC instant [x], the
    canonical string has the shape of the regular expression: the four
    digits of the year, an underscore, the period letter, the arc digit,
    the bar letter, the beat digit, an underscore and the six digits of
    the millisecond offset, which is below one million. *)
Theorem canonical_matches_format (x : Z) :
  validInstant x ->
  (exists r, Cascade.encode x = Ok r
             /\ matchesCanon (canonical r) = true
             /\ canonical r
                = fixedDigits 4 (year r)
                    (unitTail (period r) (arc r) (bar r) (beat r)
                       (msOffsetInBeat r))
             /\ 0 <= period r <= 25 /\ 0 <= arc r <= 9
             /\ 0 <= bar r <= 25 /\ 0 <= beat r <= 9
             /\ 0 <= msOffsetInBeat r < 1000000)
  /\ (exists r, BeatIndex.encode x = Ok r
                /\ matchesCanon (canonical r) = true
                /\ canonical r
                   = fixedDigits 4 (year r)
                       (unitTail (period r) (arc r) (bar r) (beat r)
                          (msOffsetInBeat r))
                /\ 0 <= period r <= 25 /\ 0 <= arc r <= 9
                /\ 0 <= bar r <= 25 /\ 0 <= beat r <= 9
                /\ 0 <= msOffsetInBeat r < 1000000).
Proof.
  intros Hv. destruct (validInstant_ms x Hv) as [Hms H].
  split.
  - destruct (Cascade_encode_grid x _ Hms H) as (s & e & Henc).
    eexists. split; [exact Henc |].
    destruct (gridRecord_canonical _ _ s e Hv H) as [E Hs].
    pose proof (gridRecord_ranges _ _ s e H) as (Hp & Ha & Hb & Ht & Ho & _).
    split; [apply matchesCanon_iff, Hs |].
    split; [exact E |]. cbv zeta in *. repeat split; assumption || lia.
  - destruct (BeatIndex_encode_grid x _ Hms H) as (s & e & Henc).
    eexists. split; [exact Henc |].
    destruct (gridRecord_canonical _ _ s e Hv H) as [E Hs].
    pose proof (gridRecord_ranges _ _ s e H) as (Hp & Ha & Hb & Ht & Ho & _).
    split; [apply matchesCanon_iff, Hs |].
    split; [exact E |]. cbv zeta in *. repeat split; assumption || lia.
Qed.

Lemma canonical_matches_format_witness :
  (exists r, Cascade.encode 1749486600001 = Ok r
             /\ matchesCanon (canonical r) = true
             /\ canonical r
                = fixedDigits 4 (year r)
                    (unitTail (period r) (arc r) (bar r) (beat r)
                       (msOffsetInBeat r))
             /\ 0 <= period r <= 25 /\ 0 <= arc r <= 9
             /\ 0 <= bar r <= 25 /\ 0 <= beat r <= 9
             /\ 0 <= msOffsetInBeat r < 1000000)
  /\ (exists r, BeatIndex.encode 1749486600001 = Ok r
                /\ matchesCanon (canonical r) = true
                /\ canonical r
                   = fixedDigits 4 (year r)
                       (unitTail (period r) (arc r) (bar r) (beat r)
                          (msOffsetInBeat r))
                /\ 0 <= period r <= 25 /\ 0 <= arc r <= 9
                /\ 0 <= bar r <= 25 /\ 0 <= beat r <= 9
                /\ 0 <= msOffsetInBeat r < 1000000).
Proof.
  apply (canonical_matches_format 1749486600001).
  vm_compute; split; discriminate.
Defined.

(** C6, as stated, fails: the instant 2025-01-01T00:00:00.001Z is not one
    of the 400 points that cut the year in equal parts, and the round
    trip gives it back exactly, in each version of the codec. *)
Lemma exact_round_trip_off_the_400 :
  ~ (forall x, validInstant x ->
               exactRoundTrip BeatIndex.encode BeatIndex.decode x
               <-> onFourHundredth x)
  /\ ~ (forall x, validInstant x ->
                  exactRoundTrip Cascade.encode Cascade.decode x
                  <-> onFourHundredth x).
Proof.
  assert (Hv : validInstant 1735689600001) by (vm_compute; split; discriminate).
  assert (Hn : ~ onFourHundredth 1735689600001) by (vm_compute; discriminate).
  split; intros H; apply Hn, (H _ Hv); eexists;
    (split; [vm_compute; reflexivity |]); vm_compute; reflexivity.
Qed.

(** C6, amended.  In every year the beats that start on a whole
    millisecond are the 400 beats whose index is a multiple of 169, and
    their starts are the 400 points that cut the year in equal parts.  In
    the beat-index version the round trip of a valid instant is exact if
    and only if the instant lies in one of these beats, so at each of the
    400 points in particular, and gives the millisecond before the
    instant otherwise. *)
Theorem exact_round_trip_on_aligned_beats (x : Z) :
  validInstant x ->
  let Y := yearTotalMs (getUTCFullYear x) in
  (exactRoundTrip BeatIndex.encode BeatIndex.decode x
   <-> beatOfInstant x mod 169 = 0)
  /\ (exists r, BeatIndex.encode x = Ok r
                /\ BeatIndex.decode (canonical r)
                   = Ok (Some (if beatOfInstant x mod 169 =? 0
                               then x else x - 1)))
  /\ (onFourHundredth x
      <-> beatOfInstant x mod 169 = 0
          /\ msInYear x = beatStartMs Y (beatOfInstant x))
  /\ (onFourHundredth x -> exactRoundTrip BeatIndex.encode BeatIndex.decode x)
  /\ (forall k, 0 <= k < 67600 ->
                (Y * k) mod 67600 = 0 <-> exists j, 0 <= j < 400 /\ k = 169 * j)
  /\ (forall j, beatStartMs Y (169 * j) = j * (Y / 400)).
Proof.
  intros Hv Y. pose proof (yearTotalMs_len (getUTCFullYear x)) as HY. fold Y in HY.
  destruct (validInstant_ms x Hv) as [_ Hms]. fold Y in Hms.
  destruct (BeatIndex_roundtrip x Hv) as (r & Henc & Hdec).
  assert (Hex : exactRoundTrip BeatIndex.encode BeatIndex.decode x
                <-> beatOfInstant x mod 169 = 0).
  { split.
    - intros (r' & Henc' & Hdec'). rewrite Henc in Henc'.
      injection Henc' as <-. rewrite Hdec in Hdec'.
      destruct (beatOfInstant x mod 169 =? 0) eqn:E;
        [apply Z.eqb_eq, E | injection Hdec'; lia].
    - intros E. exists r. split; [exact Henc |]. rewrite Hdec, E.
      cbn [Z.eqb]. rewrite Z.sub_0_r. reflexivity. }
  assert (H400 : onFourHundredth x
                 <-> beatOfInstant x mod 169 = 0
                     /\ msInYear x = beatStartMs Y (beatOfInstant x))
    by (apply onFourHundredth_iff; assumption).
  split; [exact Hex |]. split.
  { exists r. split; [exact Henc |]. rewrite Hdec.
    destruct (beatOfInstant x mod 169 =? 0); [rewrite Z.sub_0_r |]; reflexivity. }
  split; [exact H400 |]. split.
  { intros H. apply Hex, H400, H. }
  split.
  - intros k Hk. rewrite whole_ms_start_iff by assumption.
    rewrite <- four_hundred_beats. tauto.
  - intros j. apply aligned_beats_evenly_spaced. assumption.
Qed.

Lemma exact_round_trip_on_aligned_beats_witness :
  validInstant 1749486600123
  /\ (exactRoundTrip BeatIndex.encode BeatIndex.decode 1749486600123
      <-> beatOfInstant 1749486600123 mod 169 = 0)
  /\ (exists r, BeatIndex.encode 1749486600123 = Ok r
                /\ BeatIndex.decode (canonical r)
                   = Ok (Some (if beatOfInstant 1749486600123 mod 169 =? 0
                               then 1749486600123 else 1749486600123 - 1)))
  /\ (onFourHundredth 1749486600123
      <-> beatOfInstant 1749486600123 mod 169 = 0
          /\ msInYear 1749486600123
             = beatStartMs (yearTotalMs (getUTCFullYear 1749486600123))
                 (beatOfInstant 1749486600123))
  /\ (onFourHundredth 1749486600123 ->
      exactRoundTrip BeatIndex.encode BeatIndex.decode 1749486600123)
  /\ (forall k, 0 <= k < 67600 ->
                (yearTotalMs (getUTCFullYear 1749486600123) * k) mod 67600 = 0
                <-> exists j, 0 <= j < 400 /\ k = 169 * j)
  /\ (forall j, beatStartMs (yearTotalMs (getUTCFullYear 1749486600123)) (169 * j)
                = j * (yearTotalMs (getUTCFullYear 1749486600123) / 400)).
Proof.
  split; [vm_compute; split; discriminate |].
  apply (exact_round_trip_on_aligned_beats 1749486600123).
  vm_compute; split; discriminate.
Defined.

(** C7 (the defensive error is unreachable).  When the milliseconds
    since the start of the instant's own year lie in [0, yearTotalMs),
    [encode] returns; the period index and the bar index are between 0
    and 25, and the letter helper accepts both. *)
Theorem invalid_index_unreachable (x ms : Z) :
  sinceYearStart x (getUTCFullYear x) = Some ms ->
  0 <= ms < yearTotalMs (getUTCFullYear x) ->
  (exists r, Cascade.encode x = Ok r
             /\ 0 <= period r <= 25 /\ 0 <= bar r <= 25
             /\ Cascade._toBase26 (period r) = Ok (periodLetter r)
             /\ Cascade._toBase26 (bar r) = Ok (barLetter r))
  /\ (exists r, BeatIndex.encode x = Ok r
                /\ 0 <= period r <= 25 /\ 0 <= bar r <= 25
                /\ BeatIndex._toBase26 (period r) = Ok (periodLetter r)
                /\ BeatIndex._toBase26 (bar r) = Ok (barLetter r)).
Proof.
  intros Hms H. split.
  - destruct (Cascade_encode_grid x ms Hms H) as (s & e & E).
    eexists. split; [exact E |].
    pose proof (gridRecord_ranges _ _ s e H) as (Hp & _ & Hb & _).
    cbv zeta in *. repeat split; try lia;
      rewrite Cascade_toBase26_ok by assumption; reflexivity.
  - destruct (BeatIndex_encode_grid x ms Hms H) as (s & e & E).
    eexists. split; [exact E |].
    pose proof (gridRecord_ranges _ _ s e H) as (Hp & _ & Hb & _).
    cbv zeta in *. repeat split; try lia;
      rewrite BeatIndex_toBase26_ok by assumption; reflexivity.
Qed.

Lemma invalid_index_unreachable_witness :
  (exists r, Cascade.encode 1767225599999 = Ok r
             /\ 0 <= period r <= 25 /\ 0 <= bar r <= 25
             /\ Cascade._toBase26 (period r) = Ok (periodLetter r)
             /\ Cascade._toBase26 (bar r) = Ok (barLetter r))
  /\ (exists r, BeatIndex.encode 1767225599999 = Ok r
                /\ 0 <= period r <= 25 /\ 0 <= bar r <= 25
                /\ BeatIndex._toBase26 (period r) = Ok (periodLetter r)
                /\ BeatIndex._toBase26 (bar r) = Ok (barLetter r)).
Proof.
  apply (invalid_index_unreachable 1767225599999 31535999999).
  - vm_compute. reflexivity.
  - vm_compute. split; [discriminate | reflexivity].
Defined.

(** C8 (year boundary).  For every year from 100 to 275760, so for every
    year that the canonical format documents, the instant January 1,
    00:00:00.000 UTC is encoded with beat index 0: period, arc, bar, beat
    and offset are 0, and the canonical string is the year followed by
    [_A0A0_000000]. *)
Theorem year_start_is_A0A0 (y : Z) :
  100 <= y <= 275760 ->
  getUTCFullYear (TimeFromYear y) = y
  /\ beatOfInstant (TimeFromYear y) = 0
  /\ (exists r, Cascade.encode (TimeFromYear y) = Ok r
                /\ period r = 0 /\ arc r = 0 /\ bar r = 0 /\ beat r = 0
                /\ msOffsetInBeat r = 0
                /\ canonical r = (JSString.ofInt y ++ "_A0A0_000000")%string)
  /\ (exists r, BeatIndex.encode (TimeFromYear y) = Ok r
                /\ period r = 0 /\ arc r = 0 /\ bar r = 0 /\ beat r = 0
                /\ msOffsetInBeat r = 0
                /\ canonical r = (JSString.ofInt y ++ "_A0A0_000000")%string).
Proof.
  intros Hy.
  assert (HY0 : 0 <= 0 < yearTotalMs y)
    by (destruct (yearTotalMs_len y) as [-> | ->]; lia).
  assert (Ey : getUTCFullYear (TimeFromYear y) = y).
  { rewrite <- (Z.add_0_r (TimeFromYear y)).
    apply getUTCFullYear_TimeFromYear. exact HY0. }
  assert (Hms : sinceYearStart (TimeFromYear y) (getUTCFullYear (TimeFromYear y))
                = Some 0).
  { rewrite Ey. unfold sinceYearStart. rewrite UTC_Jan1_ordinary by assumption.
    cbn [option_map]. rewrite Z.sub_diag. reflexivity. }
  assert (Ek : beatIndexOf (yearTotalMs y) 0 = 0) by reflexivity.
  assert (Eo : offsetOf (yearTotalMs y) 0 = 0).
  { unfold offsetOf. rewrite Ek. unfold beatStartScaled.
    rewrite Z.mul_0_r. reflexivity. }
  assert (Ec : canonOf y 0 0 0 0 0 = (JSString.ofInt y ++ "_A0A0_000000")%string)
    by (rewrite canonOf_tail by lia; reflexivity).
  split; [exact Ey |]. split.
  { unfold beatOfInstant, msInYear. rewrite Ey, Z.sub_diag. exact Ek. }
  rewrite <- Ey in HY0. split.
  - destruct (Cascade_encode_grid _ 0 Hms HY0) as (s & e & E).
    eexists. split; [exact E |]. rewrite Ey. unfold gridRecord.
    cbn [canonical period arc bar beat msOffsetInBeat].
    rewrite Ek, Eo. repeat split; exact Ec.
  - destruct (BeatIndex_encode_grid _ 0 Hms HY0) as (s & e & E).
    eexists. split; [exact E |]. rewrite Ey. unfold gridRecord.
    cbn [canonical period arc bar beat msOffsetInBeat].
    rewrite Ek, Eo. repeat split; exact Ec.
Qed.

Lemma year_start_is_A0A0_witness :
  getUTCFullYear (TimeFromYear 2024) = 2024
  /\ beatOfInstant (TimeFromYear 2024) = 0
  /\ (exists r, Cascade.encode (TimeFromYear 2024) = Ok r
                /\ period r = 0 /\ arc r = 0 /\ bar r = 0 /\ beat r = 0
                /\ msOffsetInBeat r = 0
                /\ canonical r = (JSString.ofInt 2024 ++ "_A0A0_000000")%string)
  /\ (exists r, BeatIndex.encode (TimeFromYear 2024) = Ok r
                /\ period r = 0 /\ arc r = 0 /\ bar r = 0 /\ beat r = 0
                /\ msOffsetInBeat r = 0
                /\ canonical r = (JSString.ofInt 2024 ++ "_A0A0_000000")%string).
Proof. apply (year_start_is_A0A0 2024). lia. Defined.

(** C9 (encode after decode is not the identity).  The string
    [2025_A0A0_999999] matches the regular expression, its millisecond
    field exceeds the width of a beat (466,508 ms in 2025), [decode]
    accepts it and returns an instant of beat 2, and encoding that instant
    gives another string.  [2025_Z9Z9_999999] decodes to an instant of
    2026.  This holds in each version of the codec. *)
Theorem decode_then_encode_differs :
  matchesCanon "2025_A0A0_999999" = true
  /\ yearTotalMs 2025 / 67600 < 999999
  /\ BeatIndex.decode "2025_A0A0_999999" = Ok (Some 1735690599999)
  /\ Cascade.decode "2025_A0A0_999999" = Ok (Some 1735690599999)
  /\ beatOfInstant 1735690599999 = 2
  /\ (exists r, BeatIndex.encode 1735690599999 = Ok r
                /\ canonical r = "2025_A0A2_066981"%string
                /\ canonical r <> "2025_A0A0_999999"%string)
  /\ (exists r, Cascade.encode 1735690599999 = Ok r
                /\ canonical r = "2025_A0A2_066981"%string
                /\ canonical r <> "2025_A0A0_999999"%string)
  /\ matchesCanon "2025_Z9Z9_999999" = true
  /\ BeatIndex.decode "2025_Z9Z9_999999" = Ok (Some 1767226133490)
  /\ Cascade.decode "2025_Z9Z9_999999" = Ok (Some 1767226133490)
  /\ getUTCFullYear 1767226133490 = 2026
  /\ (exists r, BeatIndex.encode 1767226133490 = Ok r
                /\ canonical r = "2026_A0A1_066981"%string)
  /\ (exists r, Cascade.encode 1767226133490 = Ok r
                /\ canonical r = "2026_A0A1_066981"%string).
Proof.
  repeat split; try (vm_compute; reflexivity);
    eexists; (split; [vm_compute; reflexivity |]);
    cbn [canonical]; repeat split; discriminate || reflexivity.
Qed.

(** C10 (one-sided error).  For every valid UTC instant [x], the decoded
    instant is never later than [x]: it is [x] less a truncation of zero
    or one millisecond, in each version of the codec. *)
Theorem roundtrip_never_later (x : Z) :
  validInstant x ->
  (exists r d, Cascade.encode x = Ok r
               /\ Cascade.decode (canonical r) = Ok (Some d)
               /\ 0 <= x - d <= 1)
  /\ (exists r d, BeatIndex.encode x = Ok r
                  /\ BeatIndex.decode (canonical r) = Ok (Some d)
                  /\ 0 <= x - d <= 1).
Proof.
  intros Hv. split.
  - destruct (Cascade_roundtrip x Hv) as (r & Henc & Hdec).
    exists r. eexists. repeat split; [exact Henc | exact Hdec | |];
      destruct (beatOfInstant x =? 0); lia.
  - destruct (BeatIndex_roundtrip x Hv) as (r & Henc & Hdec).
    exists r. eexists. repeat split; [exact Henc | exact Hdec | |];
      destruct (beatOfInstant x mod 169 =? 0); lia.
Qed.

Lemma roundtrip_never_later_witness :
  validInstant 1735689600777
  /\ (exists r d, Cascade.encode 1735689600777 = Ok r
                  /\ Cascade.decode (canonical r) = Ok (Some d)
                  /\ 0 <= 1735689600777 - d <= 1)
  /\ (exists r d, BeatIndex.encode 1735689600777 = Ok r
                  /\ BeatIndex.decode (canonical r) = Ok (Some d)
                  /\ 0 <= 1735689600777 - d <= 1).
Proof.
  split; [vm_compute; split; discriminate |].
  apply (roundtrip_never_later 1735689600777).
  vm_compute; split; discriminate.
Defined.

(** * Further properties of the code *)

(** ** The record of [encode], with its arc bounds *)

Lemma BeatIndex_encode_arcs (x ms : Z) :
  sinceYearStart x (getUTCFullYear x) = Some ms ->
  0 <= ms < yearTotalMs (getUTCFullYear x) ->
  BeatIndex.encode x
  = Ok (gridRecord (getUTCFullYear x) ms
          (beatIndexArcStart (yearTotalMs (getUTCFullYear x))
             (beatIndexOf (yearTotalMs (getUTCFullYear x)) ms / 2600)
             (beatIndexOf (yearTotalMs (getUTCFullYear x)) ms mod 2600 / 260))
          (beatIndexArcEnd (yearTotalMs (getUTCFullYear x))
             (beatIndexOf (yearTotalMs (getUTCFullYear x)) ms / 2600)
             (beatIndexOf (yearTotalMs (getUTCFullYear x)) ms mod 2600 / 260))).
Proof.
  intros Hms H. unfold BeatIndex.encode. rewrite Hms. cbn [BigInt bind].
  cbv zeta. unfold Number, BeatIndex._SCALER_N.
  fold (yearTotalMs (getUTCFullYear x)).
  set (y := getUTCFullYear x) in *. set (Y := yearTotalMs y) in *.
  pose proof (yearTotalMs_len y) as HY. fold Y in HY.
  assert (HYpos : 0 < Y) by (destruct HY; lia).
  assert (Hk : ms * 67600 ÷ Y = beatIndexOf Y ms)
    by (apply Z.quot_div_nonneg; lia).
  rewrite !Hk.
  pose proof (beatIndexOf_range Y HY ms H) as Hkr.
  pose proof (beat_digits _ Hkr) as (Hp & Ha & Hb & Ht & _).
  set (k := beatIndexOf Y ms) in *.
  assert (Ep : k ÷ 2600 = k / 2600) by zdiv.
  assert (E1 : Z.rem k 2600 = k mod 2600) by zdiv.
  rewrite !Ep, !E1.
  assert (Ea : k mod 2600 ÷ 260 = k mod 2600 / 260) by zdiv.
  assert (E2 : Z.rem (k mod 2600) 260 = k mod 260) by zdiv.
  rewrite !Ea, !E2.
  assert (Eb : k mod 260 ÷ 10 = k mod 260 / 10) by zdiv.
  assert (Et : Z.rem (k mod 260) 10 = k mod 10) by zdiv.
  rewrite !Eb, !Et.
  assert (Es : Y * k * 1000000 ÷ 67600 = beatStartScaled Y k).
  { apply Z.quot_div_nonneg; [| lia].
    apply Z.mul_nonneg_nonneg; [apply Z.mul_nonneg_nonneg |]; lia. }
  rewrite !Es.
  assert (Eo : (ms * 1000000 - beatStartScaled Y k) ÷ 1000000 = offsetOf Y ms).
  { pose proof (beatStartScaled_le Y HY ms H) as H0. fold k in H0.
    apply Z.quot_div_nonneg; lia. }
  rewrite !Eo.
  rewrite !BeatIndex_toBase26_ok by assumption. cbn [bind].
  reflexivity.
Qed.

Lemma Cascade_encode_arcs (x ms : Z) :
  sinceYearStart x (getUTCFullYear x) = Some ms ->
  0 <= ms < yearTotalMs (getUTCFullYear x) ->
  Cascade.encode x
  = Ok (gridRecord (getUTCFullYear x) ms
          (cascadeArcStart (yearTotalMs (getUTCFullYear x))
             (beatIndexOf (yearTotalMs (getUTCFullYear x)) ms / 2600)
             (beatIndexOf (yearTotalMs (getUTCFullYear x)) ms mod 2600 / 260))
          (cascadeArcEnd (yearTotalMs (getUTCFullYear x))
             (beatIndexOf (yearTotalMs (getUTCFullYear x)) ms / 2600)
             (beatIndexOf (yearTotalMs (getUTCFullYear x)) ms mod 2600 / 260))).
Proof.
  intros Hms H. unfold Cascade.encode. rewrite Hms. cbn [BigInt bind].
  cbv zeta. unfold Number, Cascade._SCALER_N.
  fold (yearTotalMs (getUTCFullYear x)).
  set (y := getUTCFullYear x) in *. set (Y := yearTotalMs y) in *.
  pose proof (yearTotalMs_len y) as HY. fold Y in HY.
  pose proof (beatIndexOf_range Y HY ms H) as Hkr.
  pose proof (beat_digits _ Hkr) as (Hp & Ha & Hb & Ht & Hk).
  set (k := beatIndexOf Y ms) in *.
  fold (periodSize Y). fold (arcSize Y). fold (barSize Y). fold (beatSize Y).
  set (p := k / 2600) in *. set (a := k mod 2600 / 260) in *.
  set (b := k mod 260 / 10) in *. set (t := k mod 10) in *.
  pose proof (cascade_residual Y HY ms p a b t H Hp Ha Hb Ht Hk) as Hr.
  pose proof (cascade_offset Y HY ms p a b t H Hp Ha Hb Ht Hk) as Ho.
  pose proof (cascade_sizes Y HY) as (HT & HB & HA & HP).
  unfold cascadeStart in Hr, Ho.
  destruct (cascade_unique (periodSize Y) (arcSize Y) (barSize Y) (beatSize Y)
              (ms * 1000000) p a b t
              (ms * 1000000 - (p * periodSize Y + a * arcSize Y
                               + b * barSize Y + t * beatSize Y)))
    as (Ep & Ea & Eb & Et); try lia.
  rewrite !Ep, !Ea, !Eb, !Et.
  replace (ms * 1000000 - p * periodSize Y - a * arcSize Y - b * barSize Y
           - t * beatSize Y)
    with (ms * 1000000 - (p * periodSize Y + a * arcSize Y + b * barSize Y
                          + t * beatSize Y)) by ring.
  rewrite !Ho.
  rewrite !Cascade_toBase26_ok by assumption. cbn [bind].
  unfold gridRecord, cascadeArcStart, cascadeArcEnd.
  fold Y. fold k. fold p a b t.
  f_equal. f_equal. unfold canonOf.
  now rewrite !append_assoc.
Qed.

(** ** Arithmetic of the offset and of the arcs *)

Section Arcs.

Variable Y : Z.
Hypothesis HY : yearLen Y.

Lemma beatIndexOf_bounds (ms : Z) :
  Y * beatIndexOf Y ms <= ms * 67600 < Y * beatIndexOf Y ms + Y.
Proof.
  pose proof (yearLen_pos Y HY) as HYpos. unfold beatIndexOf.
  pose proof (Z.mul_div_le (ms * 67600) Y HYpos).
  pose proof (Z.mul_succ_div_gt (ms * 67600) Y HYpos). lia.
Qed.

Lemma beatStartMs_bounds (k : Z) :
  67600 * beatStartMs Y k <= Y * k < 67600 * beatStartMs Y k + 67600.
Proof.
  unfold beatStartMs.
  pose proof (Z.mul_div_le (Y * k) 67600 eq_refl).
  pose proof (Z.mul_succ_div_gt (Y * k) 67600 eq_refl). lia.
Qed.

Lemma beatStartMs_mono (k1 k2 : Z) :
  k1 <= k2 -> beatStartMs Y k1 <= beatStartMs Y k2.
Proof.
  intros H. pose proof (yearLen_pos Y HY) as HYpos. unfold beatStartMs.
  apply Z.div_le_mono; [lia |]. apply Z.mul_le_mono_nonneg_l; lia.
Qed.

Lemma offsetOf_width (ms : Z) : 0 <= ms < Y -> offsetOf Y ms <= Y / 67600.
Proof.
  intros H. rewrite (offsetOf_eq Y HY).
  pose proof (beatIndexOf_bounds ms) as Hk.
  pose proof (beatStartMs_bounds (beatIndexOf Y ms)) as Hq.
  destruct (beatIndexOf Y ms mod 169 =? 0) eqn:E.
  - apply Z.eqb_eq in E. pose proof (aligned_exact Y HY _ E) as Hx.
    destruct HY as [-> | ->].
    + change (31536000000 / 67600) with 466508. lia.
    + change (31622400000 / 67600) with 467786. lia.
  - destruct HY as [-> | ->].
    + change (31536000000 / 67600) with 466508. lia.
    + change (31622400000 / 67600) with 467786. lia.
Qed.

Lemma ceilDiv_beat_start (k : Z) :
  ceilDiv (Y * k) 67600
  = beatStartMs Y k + (if k mod 169 =? 0 then 0 else 1).
Proof.
  unfold ceilDiv, beatStartMs.
  destruct (k mod 169 =? 0) eqn:E.
  - apply Z.eqb_eq in E. apply (whole_ms_start_iff Y HY) in E.
    rewrite Z.div_opp_l_z by (lia || assumption). lia.
  - apply Z.eqb_neq in E.
    assert (E' : (Y * k) mod 67600 <> 0)
      by (intros E'; apply E, (whole_ms_start_iff Y HY), E').
    rewrite Z.div_opp_l_nz by (lia || assumption). lia.
Qed.

Lemma offsetOf_ceil (ms : Z) :
  offsetOf Y ms = ms - ceilDiv (Y * beatIndexOf Y ms) 67600.
Proof.
  rewrite (offsetOf_eq Y HY), ceilDiv_beat_start. lia.
Qed.

Lemma beatIndexArcStart_eq (p a : Z) :
  0 <= p -> 0 <= a ->
  beatIndexArcStart Y p a = beatStartMs Y (2600 * p + 260 * a).
Proof.
  intros Hp Ha. pose proof (yearLen_pos Y HY) as HYpos.
  unfold beatIndexArcStart.
  replace (p * 2600 + a * 260) with (2600 * p + 260 * a) by ring.
  set (k := 2600 * p + 260 * a).
  assert (Hk : 0 <= k) by (unfold k; lia).
  assert (H0 : 0 <= Y * k * 1000000)
    by (apply Z.mul_nonneg_nonneg; [apply Z.mul_nonneg_nonneg |]; lia).
  rewrite (Z.quot_div_nonneg (Y * k * 1000000)) by lia.
  fold (beatStartScaled Y k).
  rewrite Z.quot_div_nonneg;
    [| unfold beatStartScaled; apply Z.div_pos; lia | lia].
  pose proof (beatIndex_decode_total Y HY k 0) as H.
  rewrite Z.mul_0_l, !Z.add_0_r in H. exact H.
Qed.

Lemma beatIndexArcEnd_eq (p a : Z) :
  0 <= p -> 0 <= a ->
  beatIndexArcEnd Y p a = beatStartMs Y (2600 * p + 260 * a + 260).
Proof.
  intros Hp Ha.
  replace (2600 * p + 260 * a + 260) with (2600 * p + 260 * (a + 1)) by ring.
  rewrite <- beatIndexArcStart_eq by lia.
  unfold beatIndexArcEnd, beatIndexArcStart. do 3 f_equal. ring.
Qed.

(** The arc of an instant in the beat-index version: both bounds are
    starts of beats, cut to whole milliseconds. *)
Lemma beatIndex_arc_encloses (ms : Z) :
  0 <= ms < Y ->
  let k := beatIndexOf Y ms in
  beatIndexArcStart Y (k / 2600) (k mod 2600 / 260) <= ms
  /\ ms <= beatIndexArcEnd Y (k / 2600) (k mod 2600 / 260)
  /\ Y / 260
     <= beatIndexArcEnd Y (k / 2600) (k mod 2600 / 260)
        - beatIndexArcStart Y (k / 2600) (k mod 2600 / 260)
     <= Y / 260 + 1.
Proof.
  intros H k.
  pose proof (beatIndexOf_range Y HY ms H) as Hkr. fold k in Hkr.
  pose proof (beat_digits _ Hkr) as (Hp & Ha & _).
  rewrite beatIndexArcStart_eq, beatIndexArcEnd_eq by lia.
  set (k0 := 2600 * (k / 2600) + 260 * (k mod 2600 / 260)).
  assert (Hk0 : k0 <= k < k0 + 260) by (unfold k0; zdiv).
  pose proof (beatIndexOf_bounds ms) as Hk. fold k in Hk.
  pose proof (beatStartMs_bounds k) as Hq.
  pose proof (beatStartMs_bounds k0) as Hq0.
  pose proof (beatStartMs_bounds (k0 + 260)) as Hq1.
  pose proof (beatStartMs_mono k0 k (proj1 Hk0)) as Hm.
  destruct HY as [-> | ->].
  - change (31536000000 / 260) with 121292307. lia.
  - change (31622400000 / 260) with 121624615. lia.
Qed.

Lemma cascadeArcStart_eq (p a : Z) :
  0 <= p <= 25 -> 0 <= a <= 9 ->
  let k0 := 2600 * p + 260 * a in
  cascadeArcStart Y p a
  = beatStartMs Y k0 - (if (k0 mod 169 =? 0) && negb (k0 =? 0) then 1 else 0).
Proof.
  intros Hp Ha k0.
  pose proof (cascade_decode_total Y HY p a 0 0 0 Hp Ha) as H.
  cbv zeta in H. unfold cascadeStart in H.
  rewrite !Z.mul_0_l, !Z.mul_0_r, !Z.add_0_r in H.
  fold k0 in H. unfold cascadeArcStart. apply H; lia.
Qed.

Lemma cascadeArcEnd_eq (p a : Z) :
  0 <= p <= 25 -> 0 <= a <= 9 ->
  let k1 := 2600 * p + 260 * a + 260 in
  cascadeArcEnd Y p a
  = beatStartMs Y k1 - (if k1 mod 169 =? 0 then 1 else 0).
Proof.
  intros Hp Ha k1.
  destruct (Z.eq_dec a 9) as [-> | Na].
  - unfold cascadeArcEnd, beatStartMs, k1, arcSize, periodSize.
    assert (Hc : In p [0; 1; 2; 3; 4; 5; 6; 7; 8; 9; 10; 11; 12; 13; 14; 15;
                       16; 17; 18; 19; 20; 21; 22; 23; 24; 25])
      by (cbn [In]; lia).
    destruct HY as [-> | ->]; cbn [In] in Hc;
      repeat (destruct Hc as [<- | Hc]; [vm_compute; reflexivity |]);
      contradiction.
  - pose proof (cascadeArcStart_eq p (a + 1)) as H. cbv zeta in H.
    replace (2600 * p + 260 * (a + 1)) with k1 in H by (unfold k1; ring).
    assert (N0 : (k1 =? 0) = false) by (apply Z.eqb_neq; unfold k1; lia).
    rewrite N0, andb_true_r in H. rewrite <- H by lia.
    unfold cascadeArcEnd, cascadeArcStart. f_equal. ring.
Qed.

(** The arc of an instant in the cascade. *)
Lemma cascade_arc_encloses (ms : Z) :
  0 <= ms < Y ->
  let k := beatIndexOf Y ms in
  cascadeArcStart Y (k / 2600) (k mod 2600 / 260) <= ms
  /\ ms <= cascadeArcEnd Y (k / 2600) (k mod 2600 / 260)
  /\ Y / 260
     <= cascadeArcEnd Y (k / 2600) (k mod 2600 / 260)
        - cascadeArcStart Y (k / 2600) (k mod 2600 / 260)
     <= Y / 260 + 1.
Proof.
  intros H k.
  pose proof (beatIndexOf_range Y HY ms H) as Hkr. fold k in Hkr.
  pose proof (beat_digits _ Hkr) as (Hp & Ha & _).
  rewrite cascadeArcStart_eq, cascadeArcEnd_eq by lia. cbv zeta.
  set (k0 := 2600 * (k / 2600) + 260 * (k mod 2600 / 260)).
  assert (Hk0 : k0 <= k < k0 + 260) by (unfold k0; zdiv).
  assert (Hk00 : 0 <= k0) by (unfold k0; lia).
  pose proof (beatIndexOf_bounds ms) as Hk. fold k in Hk.
  pose proof (beatStartMs_bounds k0) as Hq0.
  pose proof (beatStartMs_bounds (k0 + 260)) as Hq1.
  assert (Hs0 : k0 mod 169 <> 0 -> 67600 * beatStartMs Y k0 < Y * k0).
  { intros N. destruct (Z.eq_dec (67600 * beatStartMs Y k0) (Y * k0)) as [E |];
      [| lia].
    exfalso. apply N, (whole_ms_start_iff Y HY).
    rewrite <- E, Z.mul_comm. apply Z.mod_mul. lia. }
  assert (Hs1 : (k0 + 260) mod 169 <> 0 ->
                67600 * beatStartMs Y (k0 + 260) < Y * (k0 + 260)).
  { intros N.
    destruct (Z.eq_dec (67600 * beatStartMs Y (k0 + 260)) (Y * (k0 + 260)))
      as [E |]; [| lia].
    exfalso. apply N, (whole_ms_start_iff Y HY).
    rewrite <- E, Z.mul_comm. apply Z.mod_mul. lia. }
  assert (Hx : k0 mod 169 = 0 -> (k0 + 260) mod 169 <> 0) by zdiv.
  pose proof (aligned_exact Y HY k0) as Ha0.
  pose proof (aligned_exact Y HY (k0 + 260)) as Ha1.
  destruct (k0 mod 169 =? 0) eqn:E0;
    [apply Z.eqb_eq in E0 | apply Z.eqb_neq in E0];
    (destruct ((k0 + 260) mod 169 =? 0) eqn:E1;
     [apply Z.eqb_eq in E1 | apply Z.eqb_neq in E1]);
    try (exfalso; apply (Hx E0 E1));
    destruct (k0 =? 0) eqn:Ez;
    [apply Z.eqb_eq in Ez | apply Z.eqb_neq in Ez | apply Z.eqb_eq in Ez
     | apply Z.eqb_neq in Ez | apply Z.eqb_eq in Ez | apply Z.eqb_neq in Ez];
    cbn [andb negb];
    specialize (Ha0 E0) || specialize (Hs0 E0);
    specialize (Ha1 E1) || specialize (Hs1 E1);
    clear Hx; destruct HY as [-> | ->];
    (change (31536000000 / 260) with 121292307
     || change (31622400000 / 260) with 121624615); lia.
Qed.

End Arcs.

(** ** Instants inside their own year *)

Lemma TimeClip_some (t z : Z) : TimeClip t = Some z -> z = t.
Proof.
  unfold TimeClip. destruct (Z.abs t <=? maxTime); [| discriminate].
  intros E. injection E as <-. reflexivity.
Qed.

Lemma inOwnYear_not_two_digit (x : Z) :
  inOwnYear x -> ~ 0 <= getUTCFullYear x <= 99.
Proof.
  intros (ms & Hms & H) Hy. pose proof (two_digit_year_offset x Hy) as Ho.
  assert (EU : UTC_Jan1 (getUTCFullYear x)
               = TimeClip (TimeFromYear (1900 + getUTCFullYear x))).
  { unfold UTC_Jan1.
    replace ((0 <=? getUTCFullYear x) && (getUTCFullYear x <=? 99)) with true;
      [reflexivity |].
    symmetry; apply andb_true_iff; split; apply Z.leb_le; lia. }
  unfold sinceYearStart in Hms. rewrite EU in Hms.
  destruct (TimeClip (TimeFromYear (1900 + getUTCFullYear x))) as [s |] eqn:E;
    [| discriminate].
  apply TimeClip_some in E. unfold option_map in Hms.
  assert (Ems : ms = x - s) by congruence. lia.
Qed.

Lemma inOwnYear_ms (x : Z) :
  inOwnYear x ->
  sinceYearStart x (getUTCFullYear x) = Some (msInYear x)
  /\ 0 <= msInYear x < yearTotalMs (getUTCFullYear x).
Proof.
  intros Hin. pose proof (inOwnYear_not_two_digit x Hin) as N.
  destruct Hin as (ms & Hms & H).
  unfold sinceYearStart in Hms |- *.
  destruct (UTC_Jan1 (getUTCFullYear x)) as [s |] eqn:E; [| discriminate].
  apply (UTC_Jan1_some _ _ N) in E. subst s.
  unfold option_map in Hms |- *. injection Hms as <-.
  unfold msInYear. split; [reflexivity | exact H].
Qed.

Lemma YearFromTime_mono (t1 t2 : Z) :
  t1 <= t2 -> YearFromTime t1 <= YearFromTime t2.
Proof.
  intros H. pose proof (YearFromTime_spec t1) as S1.
  pose proof (YearFromTime_spec t2) as S2.
  destruct (Z_lt_le_dec (YearFromTime t2) (YearFromTime t1)) as [L |];
    [| assumption].
  exfalso.
  destruct (Z.eq_dec (YearFromTime t2 + 1) (YearFromTime t1)) as [E | N].
  - rewrite E in S2. lia.
  - pose proof (TimeFromYear_lt (YearFromTime t2 + 1) (YearFromTime t1)). lia.
Qed.

Lemma year_of_time_value (x : Z) :
  Z.abs x <= maxTime -> -271821 <= getUTCFullYear x <= 275760.
Proof.
  intros H. pose proof (YearFromTime_spec x) as S. unfold getUTCFullYear.
  assert (Hlo : TimeFromYear (-271820) < - maxTime + 31622400000)
    by (vm_compute; reflexivity).
  assert (Hlo' : TimeFromYear (-271821) < - maxTime) by (vm_compute; reflexivity).
  assert (Hhi : maxTime < TimeFromYear 275761) by (vm_compute; reflexivity).
  split.
  - destruct (Z_lt_le_dec (YearFromTime x) (-271821)) as [L |]; [| assumption].
    exfalso.
    destruct (Z.eq_dec (YearFromTime x + 1) (-271821)) as [E | N].
    + rewrite E in S. lia.
    + pose proof (TimeFromYear_lt (YearFromTime x + 1) (-271821)). lia.
  - destruct (Z_lt_le_dec 275760 (YearFromTime x)) as [L |]; [| assumption].
    exfalso.
    destruct (Z.eq_dec 275761 (YearFromTime x)) as [E | N].
    + rewrite <- E in S. lia.
    + pose proof (TimeFromYear_lt 275761 (YearFromTime x)). lia.
Qed.

Lemma UTC_Jan1_in_range (y : Z) :
  -271820 <= y <= 275760 -> ~ 0 <= y <= 99 ->
  UTC_Jan1 y = Some (TimeFromYear y).
Proof.
  intros Hy N. unfold UTC_Jan1.
  replace ((0 <=? y) && (y <=? 99)) with false.
  - unfold TimeClip.
    assert (Hlo : - maxTime <= TimeFromYear (-271820)) by (vm_compute; discriminate).
    assert (Hhi : TimeFromYear 275760 <= maxTime) by (vm_compute; discriminate).
    assert (H1 : TimeFromYear (-271820) <= TimeFromYear y).
    { destruct (Z.eq_dec (-271820) y) as [<- | Ne]; [lia |].
      apply Z.lt_le_incl, TimeFromYear_lt. lia. }
    assert (H2 : TimeFromYear y <= TimeFromYear 275760).
    { destruct (Z.eq_dec y 275760) as [-> | Ne]; [lia |].
      apply Z.lt_le_incl, TimeFromYear_lt. lia. }
    replace (Z.abs (TimeFromYear y) <=? maxTime) with true; [reflexivity |].
    symmetry. apply Z.leb_le. lia.
  - symmetry. apply andb_false_iff.
    destruct (Z_lt_le_dec y 0); [left | right]; apply Z.leb_gt; lia.
Qed.

Lemma UTC_Jan1_first_year : UTC_Jan1 (-271821) = None.
Proof. vm_compute. reflexivity. Qed.

(** A time value lies inside its own year unless the year is one that
    [Date.UTC] moves or cannot reach. *)
Lemma inOwnYear_iff (x : Z) :
  Z.abs x <= maxTime ->
  inOwnYear x
  <-> ~ 0 <= getUTCFullYear x <= 99 /\ getUTCFullYear x <> -271821.
Proof.
  intros H. pose proof (year_of_time_value x H) as Hy. split.
  - intros Hin. split.
    + apply inOwnYear_not_two_digit, Hin.
    + intros E. destruct Hin as (ms & Hms & _). unfold sinceYearStart in Hms.
      rewrite E, UTC_Jan1_first_year in Hms. discriminate.
  - intros [N Ne]. apply (inOwnYear_of_start x (TimeFromYear (getUTCFullYear x)) N).
    apply UTC_Jan1_in_range; [lia | exact N].
Qed.

(** ** Order of the canonical strings across years *)

Lemma gridRecord_lt_years (y1 y2 ms1 ms2 s1 e1 s2 e2 : Z) :
  1000 <= y1 -> y1 < y2 -> y2 <= 9999 ->
  0 <= ms1 < yearTotalMs y1 -> 0 <= ms2 < yearTotalMs y2 ->
  JSString.lt (canonical (gridRecord y1 ms1 s1 e1))
              (canonical (gridRecord y2 ms2 s2 e2)) = true.
Proof.
  intros Hy1 Hlt Hy2 H1 H2.
  destruct (gridRecord_canonical y1 ms1 s1 e1) as [E1 _]; [lia | assumption |].
  destruct (gridRecord_canonical y2 ms2 s2 e2) as [E2 _]; [lia | assumption |].
  rewrite E1, E2. unfold gridRecord at 1 7. cbn [year].
  unfold JSString.lt, String.ltb.
  match goal with
  | |- context [String.compare (fixedDigits 4 y1 ?u) (fixedDigits 4 y2 ?v)] =>
      destruct (fixedDigits_compare 4 y1 y2 u v) as [L _];
      [lia | change (10 ^ Z.of_nat 4) with 10000; lia |]
  end.
  rewrite L by lia. reflexivity.
Qed.

Lemma validInstant_canonical_lt (x1 x2 s1 e1 s2 e2 : Z) :
  validInstant x1 -> validInstant x2 -> x1 < x2 ->
  JSString.lt
    (canonical (gridRecord (getUTCFullYear x1) (msInYear x1) s1 e1))
    (canonical (gridRecord (getUTCFullYear x2) (msInYear x2) s2 e2)) = true.
Proof.
  intros Hv1 Hv2 Hlt.
  destruct (validInstant_ms x1 Hv1) as [_ H1].
  destruct (validInstant_ms x2 Hv2) as [_ H2].
  assert (Hy : getUTCFullYear x1 <= getUTCFullYear x2)
    by (apply YearFromTime_mono; lia).
  destruct (Z.eq_dec (getUTCFullYear x1) (getUTCFullYear x2)) as [E | N].
  - rewrite E in *. apply gridRecord_lt; unfold msInYear in *; try lia.
    rewrite E. lia.
  - unfold validInstant in Hv1, Hv2. apply gridRecord_lt_years; lia || assumption.
Qed.

Lemma lt_irrefl (s : string) : JSString.lt s s = false.
Proof.
  unfold JSString.lt, String.ltb.
  replace (String.compare s s) with Eq; [reflexivity |].
  symmetry. induction s as [| c s IH]; [reflexivity |].
  cbn [String.compare]. rewrite ascii_compare_refl. exact IH.
Qed.

(** ** Properties of [encode] *)

(** X1 (order across years).  Of two instants of the years 1000 to 9999,
    the earlier one has the smaller canonical string under the comparison
    of strings, also when the two lie in different years; this holds in
    each version of the codec. *)
Theorem canonical_order_across_years (x1 x2 : Z) :
  validInstant x1 -> validInstant x2 -> x1 < x2 ->
  (exists r1 r2, Cascade.encode x1 = Ok r1 /\ Cascade.encode x2 = Ok r2
                 /\ JSString.lt (canonical r1) (canonical r2) = true)
  /\ (exists r1 r2, BeatIndex.encode x1 = Ok r1 /\ BeatIndex.encode x2 = Ok r2
                    /\ JSString.lt (canonical r1) (canonical r2) = true).
Proof.
  intros Hv1 Hv2 Hlt.
  destruct (validInstant_ms x1 Hv1) as [Hms1 H1].
  destruct (validInstant_ms x2 Hv2) as [Hms2 H2].
  split; do 2 eexists.
  - split; [apply (Cascade_encode_arcs x1 _ Hms1 H1) |].
    split; [apply (Cascade_encode_arcs x2 _ Hms2 H2) |].
    apply validInstant_canonical_lt; assumption.
  - split; [apply (BeatIndex_encode_arcs x1 _ Hms1 H1) |].
    split; [apply (BeatIndex_encode_arcs x2 _ Hms2 H2) |].
    apply validInstant_canonical_lt; assumption.
Qed.

Lemma canonical_order_across_years_witness :
  (exists r1 r2, Cascade.encode 1767225599999 = Ok r1
                 /\ Cascade.encode 1767225600000 = Ok r2
                 /\ JSString.lt (canonical r1) (canonical r2) = true)
  /\ (exists r1 r2, BeatIndex.encode 1767225599999 = Ok r1
                    /\ BeatIndex.encode 1767225600000 = Ok r2
                    /\ JSString.lt (canonical r1) (canonical r2) = true).
Proof.
  apply (canonical_order_across_years 1767225599999 1767225600000).
  - vm_compute; split; discriminate.
  - vm_compute; split; discriminate.
  - lia.
Defined.

(** X2 (no two instants share a string).  Two different instants of the
    years 1000 to 9999 have different canonical strings, in each version
    of the codec. *)
Theorem distinct_instants_distinct_strings (x1 x2 : Z) :
  validInstant x1 -> validInstant x2 -> x1 <> x2 ->
  (exists r1 r2, Cascade.encode x1 = Ok r1 /\ Cascade.encode x2 = Ok r2
                 /\ canonical r1 <> canonical r2)
  /\ (exists r1 r2, BeatIndex.encode x1 = Ok r1 /\ BeatIndex.encode x2 = Ok r2
                    /\ canonical r1 <> canonical r2).
Proof.
  intros Hv1 Hv2 Hne.
  destruct (validInstant_ms x1 Hv1) as [Hms1 H1].
  destruct (validInstant_ms x2 Hv2) as [Hms2 H2].
  assert (Hd : forall s1 e1 s2 e2,
             canonical (gridRecord (getUTCFullYear x1) (msInYear x1) s1 e1)
             <> canonical (gridRecord (getUTCFullYear x2) (msInYear x2) s2 e2)).
  { intros s1 e1 s2 e2 E.
    destruct (Z_lt_le_dec x1 x2) as [L | L].
    - pose proof (validInstant_canonical_lt x1 x2 s1 e1 s2 e2 Hv1 Hv2 L) as Hl.
      rewrite E, lt_irrefl in Hl. discriminate.
    - assert (L' : x2 < x1) by lia.
      pose proof (validInstant_canonical_lt x2 x1 s2 e2 s1 e1 Hv2 Hv1 L') as Hl.
      rewrite E, lt_irrefl in Hl. discriminate. }
  split; do 2 eexists.
  - split; [apply (Cascade_encode_arcs x1 _ Hms1 H1) |].
    split; [apply (Cascade_encode_arcs x2 _ Hms2 H2) | apply Hd].
  - split; [apply (BeatIndex_encode_arcs x1 _ Hms1 H1) |].
    split; [apply (BeatIndex_encode_arcs x2 _ Hms2 H2) | apply Hd].
Qed.

Lemma distinct_instants_distinct_strings_witness :
  (exists r1 r2, Cascade.encode 1749486600001 = Ok r1
                 /\ Cascade.encode 1749486600000 = Ok r2
                 /\ canonical r1 <> canonical r2)
  /\ (exists r1 r2, BeatIndex.encode 1749486600001 = Ok r1
                    /\ BeatIndex.encode 1749486600000 = Ok r2
                    /\ canonical r1 <> canonical r2).
Proof.
  apply (distinct_instants_distinct_strings 1749486600001 1749486600000).
  - vm_compute; split; discriminate.
  - vm_compute; split; discriminate.
  - discriminate.
Defined.



(** X4 (width of the offset).  For an instant inside its own year the
    offset in the beat is at most the whole milliseconds of one beat,
    [floor (yearTotalMs / 67600)]: 466508 in a common year and 467786 in
    a leap year.  This holds in each version of the codec. *)
Theorem offset_within_beat_width (x : Z) :
  inOwnYear x ->
  yearTotalMs (getUTCFullYear x) / 67600
  = (if isLeap (getUTCFullYear x) then 467786 else 466508)
  /\ (exists r, Cascade.encode x = Ok r
                /\ 0 <= msOffsetInBeat r <= yearTotalMs (year r) / 67600)
  /\ (exists r, BeatIndex.encode x = Ok r
                /\ 0 <= msOffsetInBeat r <= yearTotalMs (year r) / 67600).
Proof.
  intros Hin. destruct (inOwnYear_ms x Hin) as [Hms H].
  pose proof (yearTotalMs_len (getUTCFullYear x)) as HY.
  pose proof (offsetOf_range _ HY _ H) as [Hlo _].
  pose proof (offsetOf_width _ HY _ H) as Hhi.
  split; [| split; eexists].
  - unfold yearTotalMs, daysInYear.
    destruct (isLeap (getUTCFullYear x)); reflexivity.
  - split; [apply (Cascade_encode_arcs x _ Hms H) |].
    unfold gridRecord. cbn [msOffsetInBeat year]. lia.
  - split; [apply (BeatIndex_encode_arcs x _ Hms H) |].
    unfold gridRecord. cbn [msOffsetInBeat year]. lia.
Qed.

Lemma offset_within_beat_width_witness :
  yearTotalMs (getUTCFullYear 1749486600001) / 67600
  = (if isLeap (getUTCFullYear 1749486600001) then 467786 else 466508)
  /\ (exists r, Cascade.encode 1749486600001 = Ok r
                /\ 0 <= msOffsetInBeat r <= yearTotalMs (year r) / 67600)
  /\ (exists r, BeatIndex.encode 1749486600001 = Ok r
                /\ 0 <= msOffsetInBeat r <= yearTotalMs (year r) / 67600).
Proof.
  apply (offset_within_beat_width 1749486600001).
  exists 13797000001. vm_compute. repeat split; reflexivity || discriminate.
Defined.

(** X5 (the arc bounds enclose the instant).  For an instant inside its
    own year, [arcStartMsInYear] is not after the milliseconds since the
    start of the year and [arcEndMsInYear] is not before them; the two
    bounds are apart by the whole milliseconds of a 260th of the year, or
    by one more.  This holds in each version of the codec. *)
Theorem arc_bounds_enclose_instant (x : Z) :
  inOwnYear x ->
  let Y := yearTotalMs (getUTCFullYear x) in
  (exists r, Cascade.encode x = Ok r
             /\ arcStartMsInYear r <= msInYear x <= arcEndMsInYear r
             /\ Y / 260 <= arcEndMsInYear r - arcStartMsInYear r <= Y / 260 + 1)
  /\ (exists r, BeatIndex.encode x = Ok r
                /\ arcStartMsInYear r <= msInYear x <= arcEndMsInYear r
                /\ Y / 260 <= arcEndMsInYear r - arcStartMsInYear r
                   <= Y / 260 + 1).
Proof.
  intros Hin Y. destruct (inOwnYear_ms x Hin) as [Hms H].
  pose proof (yearTotalMs_len (getUTCFullYear x)) as HY.
  split; eexists.
  - split; [apply (Cascade_encode_arcs x _ Hms H) |].
    cbn [gridRecord arcStartMsInYear arcEndMsInYear].
    pose proof (cascade_arc_encloses _ HY _ H) as (H1 & H2 & H3).
    cbv zeta in *. fold Y in H1, H2, H3 |- *. lia.
  - split; [apply (BeatIndex_encode_arcs x _ Hms H) |].
    cbn [gridRecord arcStartMsInYear arcEndMsInYear].
    pose proof (beatIndex_arc_encloses _ HY _ H) as (H1 & H2 & H3).
    cbv zeta in *. fold Y in H1, H2, H3 |- *. lia.
Qed.

Lemma arc_bounds_enclose_instant_witness :
  let Y := yearTotalMs (getUTCFullYear 1749486600001) in
  (exists r, Cascade.encode 1749486600001 = Ok r
             /\ arcStartMsInYear r <= msInYear 1749486600001 <= arcEndMsInYear r
             /\ Y / 260 <= arcEndMsInYear r - arcStartMsInYear r <= Y / 260 + 1)
  /\ (exists r, BeatIndex.encode 1749486600001 = Ok r
                /\ arcStartMsInYear r <= msInYear 1749486600001
                   <= arcEndMsInYear r
                /\ Y / 260 <= arcEndMsInYear r - arcStartMsInYear r
                   <= Y / 260 + 1).
Proof.
  apply (arc_bounds_enclose_instant 1749486600001).
  exists 13797000001. vm_compute. repeat split; reflexivity || discriminate.
Defined.

(** X6 (the arc bounds of the two versions).  For an instant inside its
    own year, the beat-index version returns as arc bounds the starts of
    the first beat of the arc and of the first beat of the next arc, cut
    to whole milliseconds.  The cascade returns the same bounds less one
    millisecond wherever that beat starts on a whole millisecond, the
    start of the year excepted. *)
Theorem arc_bounds_of_the_versions (x : Z) :
  inOwnYear x ->
  exists r1 r2,
    Cascade.encode x = Ok r1 /\ BeatIndex.encode x = Ok r2
    /\ let Y := yearTotalMs (getUTCFullYear x) in
       let k0 := 2600 * period r2 + 260 * arc r2 in
       arcStartMsInYear r2 = beatStartMs Y k0
       /\ arcEndMsInYear r2 = beatStartMs Y (k0 + 260)
       /\ arcStartMsInYear r1
          = arcStartMsInYear r2
            - (if (k0 mod 169 =? 0) && negb (k0 =? 0) then 1 else 0)
       /\ arcEndMsInYear r1
          = arcEndMsInYear r2 - (if (k0 + 260) mod 169 =? 0 then 1 else 0).
Proof.
  intros Hin. destruct (inOwnYear_ms x Hin) as [Hms H].
  pose proof (yearTotalMs_len (getUTCFullYear x)) as HY.
  do 2 eexists.
  split; [apply (Cascade_encode_arcs x _ Hms H) |].
  split; [apply (BeatIndex_encode_arcs x _ Hms H) |].
  cbn [gridRecord arcStartMsInYear arcEndMsInYear period arc]. cbv zeta.
  pose proof (beatIndexOf_range _ HY _ H) as Hkr.
  pose proof (beat_digits _ Hkr) as (Hp & Ha & _).
  rewrite (beatIndexArcStart_eq _ HY), (beatIndexArcEnd_eq _ HY) by lia.
  rewrite (cascadeArcStart_eq _ HY), (cascadeArcEnd_eq _ HY) by lia.
  cbv zeta. repeat split.
Qed.

Lemma arc_bounds_of_the_versions_witness :
  exists r1 r2,
    Cascade.encode 1751457600000 = Ok r1
    /\ BeatIndex.encode 1751457600000 = Ok r2
    /\ let Y := yearTotalMs (getUTCFullYear 1751457600000) in
       let k0 := 2600 * period r2 + 260 * arc r2 in
       arcStartMsInYear r2 = beatStartMs Y k0
       /\ arcEndMsInYear r2 = beatStartMs Y (k0 + 260)
       /\ arcStartMsInYear r1
          = arcStartMsInYear r2
            - (if (k0 mod 169 =? 0) && negb (k0 =? 0) then 1 else 0)
       /\ arcEndMsInYear r1
          = arcEndMsInYear r2 - (if (k0 + 260) mod 169 =? 0 then 1 else 0).
Proof.
  apply (arc_bounds_of_the_versions 1751457600000).
  exists 15768000000. vm_compute. repeat split; reflexivity || discriminate.
Defined.

(** X7 (the arc start and [decode]).  For an instant of the years 1000
    to 9999, each version places [arcStartMsInYear] where its own
    [decode] places the first beat of the arc: decoding the year, the
    period letter and the arc digit followed by [A0_000000] gives the
    start of the year plus [arcStartMsInYear]. *)
Theorem arc_start_is_decoded_first_beat (x : Z) :
  validInstant x ->
  (exists r, Cascade.encode x = Ok r
             /\ Cascade.decode (canonOf (year r) (period r) (arc r) 0 0 0)
                = Ok (Some (TimeFromYear (year r) + arcStartMsInYear r)))
  /\ (exists r, BeatIndex.encode x = Ok r
                /\ BeatIndex.decode (canonOf (year r) (period r) (arc r) 0 0 0)
                   = Ok (Some (TimeFromYear (year r) + arcStartMsInYear r))).
Proof.
  intros Hv. destruct (validInstant_ms x Hv) as [Hms H].
  pose proof (yearTotalMs_len (getUTCFullYear x)) as HY.
  pose proof (beatIndexOf_range _ HY _ H) as Hkr.
  pose proof (beat_digits _ Hkr) as (Hp & Ha & _).
  split; eexists.
  - split; [apply (Cascade_encode_arcs x _ Hms H) |].
    cbn [gridRecord arcStartMsInYear year period arc].
    rewrite Cascade_decode_canonOf by (assumption || lia). cbv zeta.
    rewrite (cascadeArcStart_eq _ HY) by lia. cbv zeta.
    rewrite !Z.mul_0_r, !Z.add_0_r. reflexivity.
  - split; [apply (BeatIndex_encode_arcs x _ Hms H) |].
    cbn [gridRecord arcStartMsInYear year period arc].
    rewrite BeatIndex_decode_canonOf by (assumption || lia).
    rewrite (beatIndexArcStart_eq _ HY) by lia.
    rewrite !Z.mul_0_r, !Z.add_0_r. reflexivity.
Qed.

Lemma arc_start_is_decoded_first_beat_witness :
  (exists r, Cascade.encode 1751457600000 = Ok r
             /\ Cascade.decode (canonOf (year r) (period r) (arc r) 0 0 0)
                = Ok (Some (TimeFromYear (year r) + arcStartMsInYear r)))
  /\ (exists r, BeatIndex.encode 1751457600000 = Ok r
                /\ BeatIndex.decode (canonOf (year r) (period r) (arc r) 0 0 0)
                   = Ok (Some (TimeFromYear (year r) + arcStartMsInYear r))).
Proof.
  apply (arc_start_is_decoded_first_beat 1751457600000).
  vm_compute; split; discriminate.
Defined.

(** X8 (when [encode] returns).  For a time value that a Date can hold,
    [encode] returns a record exactly when the year of the instant is
    neither one of the years 0 to 99, which [Date.UTC] reads as 1900 to
    1999, nor the year -271821, whose start no Date can hold.  In the
    years 0 to 99 it throws the error of the letter helper; in the year
    -271821 the conversion of NaN to a BigInt throws a RangeError.  This
    holds in each version of the codec. *)
Theorem encode_returns_iff (x : Z) :
  Z.abs x <= maxTime ->
  let y := getUTCFullYear x in
  ((exists r, Cascade.encode x = Ok r) <-> ~ 0 <= y <= 99 /\ y <> -271821)
  /\ ((exists r, BeatIndex.encode x = Ok r) <-> ~ 0 <= y <= 99 /\ y <> -271821)
  /\ (0 <= y <= 99 ->
      Cascade.encode x
      = Throw (Error "Invalid index for Base26 single char conversion.")
      /\ BeatIndex.encode x = Throw (Error "Invalid index for Base26."))
  /\ (y = -271821 ->
      (exists m, Cascade.encode x = Throw (RangeError m))
      /\ (exists m, BeatIndex.encode x = Throw (RangeError m))).
Proof.
  intros Hx y. pose proof (inOwnYear_iff x Hx) as Hiff. fold y in Hiff.
  assert (H99 : 0 <= y <= 99 -> UTC_Jan1 y <> None).
  { intros Hy. rewrite UTC_Jan1_parsed by lia. discriminate. }
  pose proof (Cascade_encode_outcomes x) as Hc.
  pose proof (BeatIndex_encode_outcomes x) as Hb.
  fold y in Hc, Hb.
  split; [| split; [| split]].
  - split.
    + intros [r Hr].
      destruct Hc as [[Hin _] | [[_ E] | [_ [m E]]]];
        [apply Hiff, Hin | congruence | congruence].
    + intros Hy. apply Hiff in Hy. destruct (inOwnYear_ms x Hy) as [Hms H].
      eexists. apply (Cascade_encode_arcs x _ Hms H).
  - split.
    + intros [r Hr].
      destruct Hb as [[Hin _] | [[_ E] | [_ [m E]]]];
        [apply Hiff, Hin | congruence | congruence].
    + intros Hy. apply Hiff in Hy. destruct (inOwnYear_ms x Hy) as [Hms H].
      eexists. apply (BeatIndex_encode_arcs x _ Hms H).
  - intros Hy. split.
    + destruct Hc as [[Hin _] | [[_ E] | [E _]]];
        [apply Hiff in Hin; tauto | exact E | apply H99 in E; tauto].
    + destruct Hb as [[Hin _] | [[_ E] | [E _]]];
        [apply Hiff in Hin; tauto | exact E | apply H99 in E; tauto].
  - intros Hy. split.
    + destruct Hc as [[Hin _] | [[Hy' _] | [_ E]]];
        [apply Hiff in Hin; tauto | lia | exact E].
    + destruct Hb as [[Hin _] | [[Hy' _] | [_ E]]];
        [apply Hiff in Hin; tauto | lia | exact E].
Qed.

Lemma encode_returns_iff_witness :
  let y := getUTCFullYear (-60000000000000) in
  ((exists r, Cascade.encode (-60000000000000) = Ok r)
   <-> ~ 0 <= y <= 99 /\ y <> -271821)
  /\ ((exists r, BeatIndex.encode (-60000000000000) = Ok r)
      <-> ~ 0 <= y <= 99 /\ y <> -271821)
  /\ (0 <= y <= 99 ->
      Cascade.encode (-60000000000000)
      = Throw (Error "Invalid index for Base26 single char conversion.")
      /\ BeatIndex.encode (-60000000000000)
         = Throw (Error "Invalid index for Base26."))
  /\ (y = -271821 ->
      (exists m, Cascade.encode (-60000000000000) = Throw (RangeError m))
      /\ (exists m, BeatIndex.encode (-60000000000000) = Throw (RangeError m))).
Proof.
  apply (encode_returns_iff (-60000000000000)).
  vm_compute. discriminate.
Defined.

(** ** Properties of [decode] *)

(** X9 (year fields below 0100).  A string that matches the format and
    whose year field is 0001 to 0099 is decoded to the same instant as
    the string with 1901 to 1999 in the year field, so not to an instant
    of the year written.  This holds in each version of the codec. *)
Theorem year_field_below_100_reads_as_1900s
  (c3 c4 P a B t m1 m2 m3 m4 m5 m6 : ascii) :
  isDigit c3 -> isDigit c4 ->
  isUpper P -> isDigit a -> isUpper B -> isDigit t ->
  isDigit m1 -> isDigit m2 -> isDigit m3 ->
  isDigit m4 -> isDigit m5 -> isDigit m6 ->
  1 <= value4 "0" "0" c3 c4 ->
  let tail :=
    String c3 (String c4 (String "_"
      (String P (String a (String B (String t (String "_"
        (String m1 (String m2 (String m3 (String m4 (String m5
          (String m6 EmptyString))))))))))))) in
  (exists d, Cascade.decode (String "0" (String "0" tail)) = Ok (Some d)
             /\ Cascade.decode (String "1" (String "9" tail)) = Ok (Some d)
             /\ getUTCFullYear d <> value4 "0" "0" c3 c4)
  /\ (exists d, BeatIndex.decode (String "0" (String "0" tail)) = Ok (Some d)
                /\ BeatIndex.decode (String "1" (String "9" tail)) = Ok (Some d)
                /\ getUTCFullYear d <> value4 "0" "0" c3 c4).
Proof.
  intros H3 H4 HP Ha HB Ht Hm1 Hm2 Hm3 Hm4 Hm5 Hm6 Hv tail.
  assert (D0 : isDigit "0") by reflexivity.
  assert (D1 : isDigit "1") by reflexivity.
  assert (D9 : isDigit "9") by reflexivity.
  pose proof (digitVal_range _ H3) as R3. pose proof (digitVal_range _ H4) as R4.
  pose proof (digitVal_range _ Hm1). pose proof (digitVal_range _ Hm2).
  pose proof (digitVal_range _ Hm3). pose proof (digitVal_range _ Hm4).
  pose proof (digitVal_range _ Hm5). pose proof (digitVal_range _ Hm6).
  pose proof (digitVal_range _ Ha) as Ra. pose proof (digitVal_range _ Ht) as Rt.
  pose proof (letterVal_range _ HP) as RP. pose proof (letterVal_range _ HB) as RB.
  set (v := value4 "0" "0" c3 c4) in *.
  assert (Ev : value4 "1" "9" c3 c4 = 1900 + v)
    by (unfold v, value4; change (digitVal "0") with 0;
        change (digitVal "1") with 1; change (digitVal "9") with 9; ring).
  assert (Rv : 1 <= v <= 99)
    by (unfold v, value4 in *; change (digitVal "0") with 0 in *; lia).
  assert (EY : yearTotalMs (1900 + v) = yearTotalMs v).
  { unfold yearTotalMs, daysInYear, isLeap.
    replace (Z.rem (1900 + v) 4) with (Z.rem v 4) by zdiv.
    replace (Z.rem (1900 + v) 100) with (Z.rem v 100) by zdiv.
    replace (Z.rem (1900 + v) 400 =? 0) with false
      by (symmetry; apply Z.eqb_neq; zdiv).
    replace (Z.rem v 400 =? 0) with false
      by (symmetry; apply Z.eqb_neq; zdiv).
    reflexivity. }
  assert (EU : utcYear (1900 + v) = utcYear v).
  { unfold utcYear. replace (v <=? 99) with true by (symmetry; apply Z.leb_le; lia).
    replace (1900 + v <=? 99) with false by (symmetry; apply Z.leb_gt; lia).
    reflexivity. }
  assert (EUv : utcYear v = 1900 + v).
  { unfold utcYear. replace (v <=? 99) with true by (symmetry; apply Z.leb_le; lia).
    reflexivity. }
  pose proof (yearTotalMs_len v) as HY.
  set (k := beatOfChars P a B t).
  assert (Hk : 0 <= k < 67600) by (unfold k, beatOfChars; lia).
  pose proof (beatStartMs_range _ HY k Hk) as Hs.
  assert (Hyear : forall ms, 0 <= ms < 40000000000 ->
                   getUTCFullYear (TimeFromYear (1900 + v) + ms) <> v).
  { intros ms Hms E.
    pose proof (YearFromTime_spec (TimeFromYear (1900 + v) + ms)) as [_ S].
    unfold getUTCFullYear in E. rewrite E in S.
    pose proof (TimeFromYear_lt (v + 1) (1900 + v)). lia. }
  unfold tail. split.
  - rewrite !Cascade_decode_shape by assumption. cbv zeta.
    fold v. fold k. rewrite Ev, EY, EU, EUv.
    eexists. split; [reflexivity |]. split; [reflexivity |].
    rewrite <- Z.add_sub_assoc || idtac.
    apply Hyear.
    assert (Ha0 : k mod 169 = 0 -> k <> 0 -> 1 <= beatStartMs (yearTotalMs v) k).
    { intros E N. pose proof (aligned_exact _ HY k E) as Hx.
      pose proof (yearLen_pos _ HY). nia. }
    unfold value6.
    destruct (k mod 169 =? 0) eqn:E1; [apply Z.eqb_eq in E1 |];
      (destruct (k =? 0) eqn:E0; [apply Z.eqb_eq in E0 | apply Z.eqb_neq in E0]);
      cbn [andb negb]; try specialize (Ha0 E1 E0);
      destruct HY as [HY | HY]; rewrite HY in *; lia.
  - rewrite !BeatIndex_decode_shape by assumption. cbv zeta.
    fold v. fold k. rewrite Ev, EY, EU, EUv.
    eexists. split; [reflexivity |]. split; [reflexivity |].
    apply Hyear. unfold value6.
    destruct HY as [HY | HY]; rewrite HY in *; lia.
Qed.

Lemma year_field_below_100_reads_as_1900s_witness :
  let tail := "50_L3T5_000000"%string in
  (exists d, Cascade.decode (String "0" (String "0" tail)) = Ok (Some d)
             /\ Cascade.decode (String "1" (String "9" tail)) = Ok (Some d)
             /\ getUTCFullYear d <> value4 "0" "0" "5" "0")
  /\ (exists d, BeatIndex.decode (String "0" (String "0" tail)) = Ok (Some d)
                /\ BeatIndex.decode (String "1" (String "9" tail)) = Ok (Some d)
                /\ getUTCFullYear d <> value4 "0" "0" "5" "0").
Proof.
  apply (year_field_below_100_reads_as_1900s
           "5" "0" "L" "3" "T" "5" "0" "0" "0" "0" "0" "0");
    try reflexivity.
  vm_compute. discriminate.
Defined.

(** X10 (decoding stays in the written year).  A string that matches the
    format, whose year field is 0100 or more and whose last field is at
    most the whole milliseconds of one beat of that year, is decoded to
    an instant of the year written.  This holds in each version of the
    codec. *)
Theorem decode_lands_in_written_year
  (y1 y2 y3 y4 P a B t m1 m2 m3 m4 m5 m6 : ascii) :
  isDigit y1 -> isDigit y2 -> isDigit y3 -> isDigit y4 ->
  isUpper P -> isDigit a -> isUpper B -> isDigit t ->
  isDigit m1 -> isDigit m2 -> isDigit m3 ->
  isDigit m4 -> isDigit m5 -> isDigit m6 ->
  let yv := value4 y1 y2 y3 y4 in
  let s :=
    String y1 (String y2 (String y3 (String y4 (String "_"
      (String P (String a (String B (String t (String "_"
        (String m1 (String m2 (String m3 (String m4 (String m5
          (String m6 EmptyString))))))))))))))) in
  100 <= yv ->
  value6 m1 m2 m3 m4 m5 m6 <= yearTotalMs yv / 67600 ->
  (exists d, Cascade.decode s = Ok (Some d) /\ getUTCFullYear d = yv)
  /\ (exists d, BeatIndex.decode s = Ok (Some d) /\ getUTCFullYear d = yv).
Proof.
  intros H1 H2 H3 H4 HP Ha HB Ht Hm1 Hm2 Hm3 Hm4 Hm5 Hm6 yv s Hy Hm.
  pose proof (digitVal_range _ Hm1). pose proof (digitVal_range _ Hm2).
  pose proof (digitVal_range _ Hm3). pose proof (digitVal_range _ Hm4).
  pose proof (digitVal_range _ Hm5). pose proof (digitVal_range _ Hm6).
  pose proof (digitVal_range _ Ha) as Ra. pose proof (digitVal_range _ Ht) as Rt.
  pose proof (letterVal_range _ HP) as RP. pose proof (letterVal_range _ HB) as RB.
  assert (EU : utcYear yv = yv).
  { unfold utcYear. replace (yv <=? 99) with false; [reflexivity |].
    symmetry. apply Z.leb_gt. lia. }
  pose proof (yearTotalMs_len yv) as HY.
  set (k := beatOfChars P a B t).
  assert (Hk : 0 <= k < 67600) by (unfold k, beatOfChars; lia).
  pose proof (beatStartMs_bounds (yearTotalMs yv) k) as Hs.
  assert (Hm0 : 0 <= value6 m1 m2 m3 m4 m5 m6) by (unfold value6; lia).
  assert (Hin : 0 <= beatStartMs (yearTotalMs yv) k
                /\ beatStartMs (yearTotalMs yv) k + value6 m1 m2 m3 m4 m5 m6
                   < yearTotalMs yv).
  { destruct HY as [HY | HY]; rewrite HY in *.
    - change (31536000000 / 67600) with 466508 in Hm. lia.
    - change (31622400000 / 67600) with 467786 in Hm. lia. }
  unfold s. split.
  - rewrite Cascade_decode_shape by assumption. cbv zeta.
    fold yv. fold k. rewrite EU.
    eexists. split; [reflexivity |].
    apply getUTCFullYear_TimeFromYear.
    assert (Ha0 : k mod 169 = 0 -> k <> 0 -> 1 <= beatStartMs (yearTotalMs yv) k).
    { intros E N. pose proof (aligned_exact _ HY k E) as Hx.
      pose proof (yearLen_pos _ HY). nia. }
    destruct (k mod 169 =? 0) eqn:E1; [apply Z.eqb_eq in E1 |];
      (destruct (k =? 0) eqn:E0; [apply Z.eqb_eq in E0 | apply Z.eqb_neq in E0]);
      cbn [andb negb]; try specialize (Ha0 E1 E0); lia.
  - rewrite BeatIndex_decode_shape by assumption. cbv zeta.
    fold yv. fold k. rewrite EU.
    eexists. split; [reflexivity |].
    apply getUTCFullYear_TimeFromYear. lia.
Qed.

Lemma decode_lands_in_written_year_witness :
  (exists d, Cascade.decode "2025_Z9Z9_466508" = Ok (Some d)
             /\ getUTCFullYear d = value4 "2" "0" "2" "5")
  /\ (exists d, BeatIndex.decode "2025_Z9Z9_466508" = Ok (Some d)
                /\ getUTCFullYear d = value4 "2" "0" "2" "5").
Proof.
  apply (decode_lands_in_written_year
           "2" "0" "2" "5" "Z" "9" "Z" "9" "4" "6" "6" "5" "0" "8");
    try reflexivity; vm_compute; discriminate.
Defined.


(** ** The tools: regular expressions and padding *)

Lemma padStart_fixed (k : nat) (n : Z) :
  0 <= n < 10 ^ Z.of_nat (S k) ->
  JSString.padStart (JSString.ofInt n) (S k) "0" = fixedDigits (S k) n EmptyString.
Proof.
  intros Hn.
  assert (Hj : exists j, (j <= k)%nat
                         /\ (j = O \/ 10 ^ Z.of_nat j <= n)
                         /\ n < 10 ^ Z.of_nat (S j)).
  { induction k as [| k IH].
    - exists O. repeat split; [lia | now left | lia].
    - destruct (Z_lt_le_dec n (10 ^ Z.of_nat (S k))) as [L | L].
      + destruct IH as (j & Hj & H1 & H2); [lia |].
        exists j. repeat split; [lia | exact H1 | exact H2].
      + exists (S k). repeat split; [lia | now right | lia]. }
  destruct Hj as (j & Hjk & Hlow & Hhigh).
  rewrite (ofInt_fixed j) by (auto; lia).
  unfold JSString.padStart. rewrite fixedDigits_length.
  cbn [String.length]. rewrite Nat.add_0_r.
  destruct (S k <=? S j)%nat eqn:E.
  - apply Nat.leb_le in E. assert (j = k) as -> by lia. reflexivity.
  - apply Nat.leb_gt in E.
    rewrite fillTo_zeros by auto.
    rewrite <- fixedDigits_pad by lia.
    replace (S j + (S k - S j))%nat with (S k) by lia. reflexivity.
Qed.

Lemma pad2_fixed (n : Z) :
  0 <= n <= 99 -> pad2 n = fixedDigits 2 n EmptyString.
Proof. intros H. apply (padStart_fixed 1). cbn. lia. Qed.

(** The arguments that the schema of [clock_delta_alphadec] accepts. *)
Lemma codeRegex_inv (s : string) :
  regexTest codeRegex s = true ->
  exists P a B t,
    s = String P (String a (String B (String t EmptyString)))
    /\ isUpper P /\ isDigit a /\ isUpper B /\ isDigit t.
Proof.
  unfold regexTest.
  cbn [JSString.matchPieces JSString.takeClass codeRegex
       JSString.cls JSString.count JSString.captured].
  intros H.
  match_step s P HP. match_step s a Ha. match_step s B HB. match_step s t Ht.
  destruct s; [| discriminate].
  exists P, a, B, t. repeat split; assumption.
Qed.

Lemma codeRegex_shape (P a B t : ascii) :
  isUpper P -> isDigit a -> isUpper B -> isDigit t ->
  regexTest codeRegex (String P (String a (String B (String t EmptyString))))
  = true.
Proof.
  unfold isDigit, isUpper, regexTest. intros.
  cbn [JSString.matchPieces JSString.takeClass codeRegex
       JSString.cls JSString.count JSString.captured].
  repeat match goal with
         | H : JSString.inClass _ _ = true |- _ => rewrite H
         end.
  reflexivity.
Qed.

(** The format check of [alphadec_to_utc] accepts what [decode] accepts. *)
Lemma regexTest_alphadecRegex (s : string) :
  regexTest alphadecRegex s = matchesCanon s.
Proof.
  assert (Hinv : regexTest alphadecRegex s = true -> canonShape s).
  { unfold regexTest.
    cbn [JSString.matchPieces JSString.takeClass alphadecRegex
         JSString.cls JSString.count JSString.captured].
    intros H.
    match_step s y1 Hy1. match_step s y2 Hy2.
    match_step s y3 Hy3. match_step s y4 Hy4.
    match_step s u1 Hu1. match_step s P HP. match_step s a Ha.
    match_step s B HB. match_step s t Ht. match_step s u2 Hu2.
    match_step s m1 Hm1. match_step s m2 Hm2. match_step s m3 Hm3.
    match_step s m4 Hm4. match_step s m5 Hm5. match_step s m6 Hm6.
    destruct s; [| discriminate].
    cbn [JSString.inClass] in Hu1, Hu2.
    apply Ascii.eqb_eq in Hu1, Hu2. subst u1 u2.
    constructor; assumption. }
  destruct (matchesCanon s) eqn:E.
  - apply matchesCanon_iff in E. destruct E.
    unfold isDigit, isUpper, regexTest in *.
    assert (Hu : JSString.inClass (JSString.Lit "_") "_" = true) by reflexivity.
    cbn [JSString.matchPieces JSString.takeClass alphadecRegex
         JSString.cls JSString.count JSString.captured].
    repeat match goal with
           | H : JSString.inClass _ _ = true |- _ => rewrite H
           end.
    reflexivity.
  - destruct (regexTest alphadecRegex s) eqn:E'; [| reflexivity].
    pose proof (Hinv eq_refl) as Hs. apply matchesCanon_iff in Hs. congruence.
Qed.

(** ** The tools: the fractions of [iso_delta] *)

Lemma iso_delta_fields (delta_ms : Z) :
  let n := Z.abs delta_ms in
  let sign := if delta_ms <? 0 then "-"%string else EmptyString in
  iso_delta delta_ms
  = (sign ++ JSString.ofInt (n / 3600000) ++ ":"
     ++ pad2 (n / 60000 mod 60) ++ ":" ++ pad2 (n / 1000 mod 60))%string.
Proof.
  intros n sign. unfold iso_delta. fold n. fold sign.
  assert (Hn : 0 <= n) by (unfold n; lia).
  assert (Eh : Qfloor (inject_Z n / 1000 / 3600) = n / 3600000).
  { unfold Qfloor, Qdiv, Qmult, Qinv, inject_Z. cbn [Qnum Qden].
    rewrite !Z.mul_1_r. reflexivity. }
  assert (Et : forall m : positive,
             (let (a, d) := (inject_Z n / 1000 / (Z.pos m # 1))%Q in a ÷ Z.pos d)
             = n / (1000 * Z.pos m)).
  { intros m. unfold Qdiv, Qmult, Qinv, inject_Z. cbn [Qnum Qden].
    rewrite !Z.mul_1_r. rewrite Z.quot_div_nonneg by lia. reflexivity. }
  assert (Em : Qfloor (Qrem (inject_Z n / 1000) 3600 / 60) = n / 60000 mod 60).
  { unfold Qrem. rewrite (Et 3600%positive).
    unfold Qfloor, Qdiv, Qmult, Qinv, Qminus, Qplus, Qopp, inject_Z.
    cbn [Qnum Qden]. rewrite !Z.mul_1_r.
    change (1000 * 3600) with 3600000.
    change (Z.pos (1 * 1000 * 1 * 60)) with 60000.
    change (Z.pos (1 * 1)) with 1. change (Z.pos (1 * 1000)) with 1000.
    zdiv. }
  assert (Es : Qfloor (Qrem (inject_Z n / 1000) 60) = n / 1000 mod 60).
  { unfold Qrem. rewrite (Et 60%positive).
    unfold Qfloor, Qdiv, Qmult, Qinv, Qminus, Qplus, Qopp, inject_Z.
    cbn [Qnum Qden]. rewrite !Z.mul_1_r.
    change (1000 * 60) with 60000.
    change (Z.pos (1 * 1000 * 1)) with 1000.
    change (Z.pos (1 * 1)) with 1. change (Z.pos (1 * 1000)) with 1000.
    zdiv. }
  cbv zeta. rewrite Eh, Em, Es. reflexivity.
Qed.

(** ** [clock_delta_alphadec] *)

Lemma alphadecToBeats_chars (P a B t : ascii) :
  alphadecToBeats (String P (String a (String B (String t EmptyString))))
  = beatOfChars P a B t.
Proof.
  unfold alphadecToBeats, beatOfChars, parseInt10, letterVal, digitVal. ring.
Qed.

Lemma beatOfChars_range (P a B t : ascii) :
  isUpper P -> isDigit a -> isUpper B -> isDigit t ->
  0 <= beatOfChars P a B t < 67600.
Proof.
  intros HP Ha HB Ht.
  pose proof (letterVal_range _ HP). pose proof (digitVal_range _ Ha).
  pose proof (letterVal_range _ HB). pose proof (digitVal_range _ Ht).
  unfold beatOfChars. lia.
Qed.

(** The strings that the handler builds from the year and a code. *)
Lemma fullCode_decode (y : Z) (P a B t : ascii) :
  1000 <= y <= 9999 ->
  isUpper P -> isDigit a -> isUpper B -> isDigit t ->
  let code := String P (String a (String B (String t EmptyString))) in
  let full := (JSString.ofInt y ++ "_" ++ code ++ "_000000")%string in
  let k := alphadecToBeats code in
  BeatIndex.decode full
  = Ok (Some (TimeFromYear y + beatStartMs (yearTotalMs y) k))
  /\ Cascade.decode full
     = Ok (Some (TimeFromYear y
                 + (beatStartMs (yearTotalMs y) k - cascadeShift k))).
Proof.
  intros Hy HP Ha HB Ht code full k.
  unfold full, code. rewrite ofInt_year by assumption.
  cbn [fixedDigits append].
  assert (D0 : isDigit "0") by reflexivity.
  assert (EU : utcYear y = y).
  { unfold utcYear. replace (y <=? 99) with false; [reflexivity |].
    symmetry. apply Z.leb_gt. lia. }
  rewrite BeatIndex_decode_shape, Cascade_decode_shape
    by (assumption || apply isDigit_mod10).
  cbv zeta. rewrite value4_digits by lia.
  change (value6 "0" "0" "0" "0" "0" "0") with 0.
  unfold k, code. rewrite alphadecToBeats_chars, EU, !Z.add_0_r.
  split; reflexivity.
Qed.

Lemma clock_delta_alphadec_answers (now : Z) (s e : string) :
  validInstant now ->
  regexTest codeRegex s = true -> regexTest codeRegex e = true ->
  let Y := yearTotalMs (getUTCFullYear now) in
  let ks := alphadecToBeats s in
  let ke := alphadecToBeats e in
  0 <= ks < 67600 /\ 0 <= ke < 67600
  /\ clock_delta_alphadec beatIndex now s e
     = deltaAnswer (beatStartMs Y ke - beatStartMs Y ks) (ke - ks)
  /\ clock_delta_alphadec cascade now s e
     = deltaAnswer (beatStartMs Y ke - cascadeShift ke
                    - (beatStartMs Y ks - cascadeShift ks)) (ke - ks).
Proof.
  intros Hv Hs He Y ks ke. unfold validInstant in Hv.
  unfold clock_delta_alphadec. rewrite Hs, He. cbn [andb negb].
  destruct (codeRegex_inv s Hs) as (P1 & a1 & B1 & t1 & -> & HP1 & Ha1 & HB1 & Ht1).
  destruct (codeRegex_inv e He) as (P2 & a2 & B2 & t2 & -> & HP2 & Ha2 & HB2 & Ht2).
  destruct (fullCode_decode _ P1 a1 B1 t1 Hv HP1 Ha1 HB1 Ht1) as [Eb1 Ec1].
  destruct (fullCode_decode _ P2 a2 B2 t2 Hv HP2 Ha2 HB2 Ht2) as [Eb2 Ec2].
  cbv zeta in Eb1, Ec1, Eb2, Ec2.
  split; [unfold ks; rewrite alphadecToBeats_chars; now apply beatOfChars_range |].
  split; [unfold ke; rewrite alphadecToBeats_chars; now apply beatOfChars_range |].
  split.
  - cbv zeta. cbn [decode beatIndex]. rewrite Eb1, Eb2. cbn [bind].
    unfold deltaAnswer. fold ks ke Y.
    destruct (unit_delta (ke - ks)) as [d b]. cbn [fst snd].
    replace (TimeFromYear (getUTCFullYear now) + beatStartMs Y ke
             - (TimeFromYear (getUTCFullYear now) + beatStartMs Y ks))
      with (beatStartMs Y ke - beatStartMs Y ks) by lia.
    reflexivity.
  - cbv zeta. cbn [decode cascade]. rewrite Ec1, Ec2. cbn [bind].
    unfold deltaAnswer. fold ks ke Y.
    destruct (unit_delta (ke - ks)) as [d b]. cbn [fst snd].
    replace (TimeFromYear (getUTCFullYear now)
             + (beatStartMs Y ke - cascadeShift ke)
             - (TimeFromYear (getUTCFullYear now)
                + (beatStartMs Y ks - cascadeShift ks)))
      with (beatStartMs Y ke - cascadeShift ke
            - (beatStartMs Y ks - cascadeShift ks)) by lia.
    reflexivity.
Qed.

Section BeatStarts.

Variable Y : Z.
Hypothesis HY : yearLen Y.

(** Consecutive beats start more than 466508 ms apart. *)
Lemma beatStartMs_step (k : Z) :
  466508 <= beatStartMs Y (k + 1) - beatStartMs Y k.
Proof.
  pose proof (beatStartMs_bounds Y k).
  pose proof (beatStartMs_bounds Y (k + 1)).
  destruct HY as [-> | ->]; lia.
Qed.

Lemma beatStartMs_gap (k1 k2 : Z) :
  k1 < k2 -> 466508 <= beatStartMs Y k2 - beatStartMs Y k1.
Proof.
  intros H. pose proof (beatStartMs_step k1).
  pose proof (beatStartMs_mono Y HY (k1 + 1) k2). lia.
Qed.

Lemma cascadeShift_range (k : Z) : 0 <= cascadeShift k <= 1.
Proof.
  unfold cascadeShift.
  destruct ((k mod 169 =? 0) && negb (k =? 0)); lia.
Qed.

End BeatStarts.

Lemma iso_delta_opp (x : Z) :
  0 < x -> iso_delta (- x) = ("-" ++ iso_delta x)%string.
Proof.
  intros H. rewrite !iso_delta_fields. cbv zeta. rewrite Z.abs_opp.
  replace (- x <? 0) with true by (symmetry; apply Z.ltb_lt; lia).
  replace (x <? 0) with false by (symmetry; apply Z.ltb_ge; lia).
  reflexivity.
Qed.

Lemma unit_delta_opp (d : Z) :
  0 < d ->
  fst (unit_delta (- d)) = ("-" ++ fst (unit_delta d))%string
  /\ snd (unit_delta (- d))
     = ("Negative difference of " ++ snd (unit_delta d))%string.
Proof.
  intros H. unfold unit_delta. cbv zeta. rewrite Z.abs_opp.
  replace (- d <? 0) with true by (symmetry; apply Z.ltb_lt; lia).
  replace (d <? 0) with false by (symmetry; apply Z.ltb_ge; lia).
  cbn [fst snd]. split; reflexivity.
Qed.

(** X11 (the two differences of [clock_delta_alphadec]).  When the
    current year is one of 1000 to 9999 and both codes pass the schema,
    the tool answers without an error in each version of the codec: the
    strings it builds always decode.  The difference in milliseconds has
    the sign of the difference in beats, is zero only for equal beats,
    and is the difference in beats times the 67600th of the year within
    one millisecond in the beat-index version and within two in the
    cascade; the two versions are at most one millisecond apart. *)
Theorem delta_tool_differences_agree (now : Z) (s e : string) :
  validInstant now ->
  regexTest codeRegex s = true -> regexTest codeRegex e = true ->
  let Y := yearTotalMs (getUTCFullYear now) in
  let dk := alphadecToBeats e - alphadecToBeats s in
  exists db dc,
    clock_delta_alphadec beatIndex now s e = deltaAnswer db dk
    /\ clock_delta_alphadec cascade now s e = deltaAnswer dc dk
    /\ (db < 0 <-> dk < 0) /\ (db = 0 <-> dk = 0)
    /\ (dc < 0 <-> dk < 0) /\ (dc = 0 <-> dk = 0)
    /\ Z.abs (67600 * db - Y * dk) < 67600
    /\ Z.abs (67600 * dc - Y * dk) < 2 * 67600
    /\ Z.abs (db - dc) <= 1.
Proof.
  intros Hv Hs He Y dk.
  destruct (clock_delta_alphadec_answers now s e Hv Hs He)
    as (Hks & Hke & Eb & Ec).
  cbv zeta in Eb, Ec. fold Y in Eb, Ec.
  pose proof (yearTotalMs_len (getUTCFullYear now)) as HY. fold Y in HY.
  set (ks := alphadecToBeats s) in *. set (ke := alphadecToBeats e) in *.
  do 2 eexists. split; [exact Eb |]. split; [exact Ec |].
  pose proof (beatStartMs_bounds Y ks) as Bs.
  pose proof (beatStartMs_bounds Y ke) as Be.
  pose proof (cascadeShift_range ks) as Ss.
  pose proof (cascadeShift_range ke) as Se.
  assert (Hgap : ks < ke -> 466508 <= beatStartMs Y ke - beatStartMs Y ks)
    by (apply beatStartMs_gap; assumption).
  assert (Hgap' : ke < ks -> 466508 <= beatStartMs Y ks - beatStartMs Y ke)
    by (apply beatStartMs_gap; assumption).
  assert (Heq : ks = ke -> beatStartMs Y ks = beatStartMs Y ke
                           /\ cascadeShift ks = cascadeShift ke)
    by (intros ->; split; reflexivity).
  unfold dk.
  destruct (Z.lt_trichotomy ks ke) as [L | [E | L]].
  - specialize (Hgap L). clear Hgap' Heq.
    destruct HY as [HY | HY]; rewrite HY in *; repeat split; lia.
  - destruct (Heq E) as [E1 E2]. clear Hgap Hgap' Heq.
    destruct HY as [HY | HY]; rewrite HY in *; repeat split; lia.
  - specialize (Hgap' L). clear Hgap Heq.
    destruct HY as [HY | HY]; rewrite HY in *; repeat split; lia.
Qed.

Lemma delta_tool_differences_agree_witness :
  let Y := yearTotalMs (getUTCFullYear 1749486600001) in
  let dk := alphadecToBeats "C1Y9" - alphadecToBeats "A2B3" in
  exists db dc,
    clock_delta_alphadec beatIndex 1749486600001 "A2B3" "C1Y9"
    = deltaAnswer db dk
    /\ clock_delta_alphadec cascade 1749486600001 "A2B3" "C1Y9"
       = deltaAnswer dc dk
    /\ (db < 0 <-> dk < 0) /\ (db = 0 <-> dk = 0)
    /\ (dc < 0 <-> dk < 0) /\ (dc = 0 <-> dk = 0)
    /\ Z.abs (67600 * db - Y * dk) < 67600
    /\ Z.abs (67600 * dc - Y * dk) < 2 * 67600
    /\ Z.abs (db - dc) <= 1.
Proof.
  apply (delta_tool_differences_agree 1749486600001 "A2B3" "C1Y9").
  - vm_compute; split; discriminate.
  - reflexivity.
  - reflexivity.
Defined.

(** X12 (exchanging the codes).  Under the same conditions, when the
    beat of [alphadec_end] is after the beat of [alphadec_start], the
    tool called with the two codes exchanged answers with the same three
    texts behind a minus sign, and behind [Negative difference of] for
    the breakdown.  This holds in each version of the codec. *)
Theorem delta_tool_exchanged_codes (now : Z) (s e : string) :
  validInstant now ->
  regexTest codeRegex s = true -> regexTest codeRegex e = true ->
  alphadecToBeats s < alphadecToBeats e ->
  let exchanged (alphadec : codec) :=
    exists dms dk,
      clock_delta_alphadec alphadec now s e = deltaAnswer dms dk
      /\ clock_delta_alphadec alphadec now e s = deltaAnswer (- dms) (- dk)
      /\ iso_delta (- dms) = ("-" ++ iso_delta dms)%string
      /\ fst (unit_delta (- dk)) = ("-" ++ fst (unit_delta dk))%string
      /\ snd (unit_delta (- dk))
         = ("Negative difference of " ++ snd (unit_delta dk))%string in
  exchanged beatIndex /\ exchanged cascade.
Proof.
  intros Hv Hs He Hlt exchanged.
  destruct (clock_delta_alphadec_answers now s e Hv Hs He)
    as (Hks & Hke & Eb & Ec).
  destruct (clock_delta_alphadec_answers now e s Hv He Hs)
    as (_ & _ & Eb' & Ec').
  cbv zeta in Eb, Ec, Eb', Ec'.
  pose proof (yearTotalMs_len (getUTCFullYear now)) as HY.
  set (Y := yearTotalMs (getUTCFullYear now)) in *.
  set (ks := alphadecToBeats s) in *. set (ke := alphadecToBeats e) in *.
  pose proof (beatStartMs_gap Y HY ks ke Hlt) as Hgap.
  pose proof (cascadeShift_range ks) as Ss.
  pose proof (cascadeShift_range ke) as Se.
  destruct (unit_delta_opp (ke - ks)) as [U1 U2]; [lia |].
  split; unfold exchanged; do 2 eexists.
  - split; [exact Eb |]. split.
    + rewrite Eb'. f_equal; lia.
    + split; [apply iso_delta_opp; lia |]. split; assumption.
  - split; [exact Ec |]. split.
    + rewrite Ec'. f_equal; lia.
    + split; [apply iso_delta_opp; lia |]. split; assumption.
Qed.

Lemma delta_tool_exchanged_codes_witness :
  let exchanged (alphadec : codec) :=
    exists dms dk,
      clock_delta_alphadec alphadec 1749486600001 "A2B3" "C1Y9"
      = deltaAnswer dms dk
      /\ clock_delta_alphadec alphadec 1749486600001 "C1Y9" "A2B3"
         = deltaAnswer (- dms) (- dk)
      /\ iso_delta (- dms) = ("-" ++ iso_delta dms)%string
      /\ fst (unit_delta (- dk)) = ("-" ++ fst (unit_delta dk))%string
      /\ snd (unit_delta (- dk))
         = ("Negative difference of " ++ snd (unit_delta dk))%string in
  exchanged beatIndex /\ exchanged cascade.
Proof.
  apply (delta_tool_exchanged_codes 1749486600001 "A2B3" "C1Y9").
  - vm_compute; split; discriminate.
  - reflexivity.
  - reflexivity.
  - vm_compute. reflexivity.
Defined.

(** X13 (the unit difference).  For a difference of fewer than 67600
    beats, so for every pair of codes that pass the schema, the text
    [alphadec_unit_delta] is the sign and four fields of two digits
    each: the periods, arcs, bars and beats that are the mixed-radix
    digits (26, 10, 26, 10) of the absolute difference, which the codec
    uses for the beat index. *)
Theorem unit_delta_is_mixed_radix (d : Z) :
  - 67600 < d < 67600 ->
  let m := Z.abs d in
  let p := m / 2600 in
  let a := m mod 2600 / 260 in
  let b := m mod 260 / 10 in
  let t := m mod 10 in
  let sign := if d <? 0 then "-"%string else EmptyString in
  fst (unit_delta d)
  = (sign ++ fixedDigits 2 p EmptyString ++ ":" ++ fixedDigits 2 a EmptyString
     ++ ":" ++ fixedDigits 2 b EmptyString ++ ":"
     ++ fixedDigits 2 t EmptyString)%string
  /\ m = 2600 * p + 260 * a + 10 * b + t
  /\ 0 <= p <= 25 /\ 0 <= a <= 9 /\ 0 <= b <= 25 /\ 0 <= t <= 9.
Proof.
  intros Hd m p a b t sign.
  assert (Hm : 0 <= m < 67600) by (unfold m; lia).
  pose proof (beat_digits m Hm) as (Hp & Ha & Hb & Ht & E).
  fold p a b t in Hp, Ha, Hb, Ht, E.
  split; [| repeat split; lia].
  unfold unit_delta. cbv zeta. cbn [fst]. fold m. fold sign.
  replace (Z.rem m 2600) with (m mod 2600) by zdiv.
  replace (Z.rem (m mod 2600) 260) with (m mod 260) by zdiv.
  replace (Z.rem (m mod 260) 10) with (m mod 10) by zdiv.
  fold p a b t.
  rewrite !pad2_fixed by lia. reflexivity.
Qed.

Lemma unit_delta_is_mixed_radix_witness :
  let d := alphadecToBeats "A2B3" - alphadecToBeats "C1Y9" in
  let m := Z.abs d in
  let p := m / 2600 in
  let a := m mod 2600 / 260 in
  let b := m mod 260 / 10 in
  let t := m mod 10 in
  let sign := if d <? 0 then "-"%string else EmptyString in
  fst (unit_delta d)
  = (sign ++ fixedDigits 2 p EmptyString ++ ":" ++ fixedDigits 2 a EmptyString
     ++ ":" ++ fixedDigits 2 b EmptyString ++ ":"
     ++ fixedDigits 2 t EmptyString)%string
  /\ m = 2600 * p + 260 * a + 10 * b + t
  /\ 0 <= p <= 25 /\ 0 <= a <= 9 /\ 0 <= b <= 25 /\ 0 <= t <= 9.
Proof.
  apply (unit_delta_is_mixed_radix
           (alphadecToBeats "A2B3" - alphadecToBeats "C1Y9")).
  vm_compute. split; reflexivity.
Defined.

(** X14 (the time difference).  The text [iso_delta] is the sign, the
    whole hours of the absolute difference, and its minutes and seconds
    with two digits each; hours, minutes and seconds add up to the whole
    seconds of the difference. *)
Theorem iso_delta_is_hours_minutes_seconds (delta_ms : Z) :
  let n := Z.abs delta_ms in
  let H := n / 3600000 in
  let M := n / 60000 mod 60 in
  let S := n / 1000 mod 60 in
  let sign := if delta_ms <? 0 then "-"%string else EmptyString in
  iso_delta delta_ms
  = (sign ++ JSString.ofInt H ++ ":" ++ fixedDigits 2 M EmptyString
     ++ ":" ++ fixedDigits 2 S EmptyString)%string
  /\ 3600 * H + 60 * M + S = n / 1000
  /\ 0 <= H /\ 0 <= M <= 59 /\ 0 <= S <= 59.
Proof.
  intros n H M S sign.
  assert (Hn : 0 <= n) by (unfold n; lia).
  assert (HM : 0 <= M <= 59) by (unfold M; zdiv).
  assert (HS : 0 <= S <= 59) by (unfold S; zdiv).
  split; [| split; [unfold H, M, S; zdiv | split; [unfold H; zdiv | split; assumption]]].
  rewrite iso_delta_fields. cbv zeta. fold n. fold H M S sign.
  rewrite !pad2_fixed by lia. reflexivity.
Qed.

(** ** [clock_convert_alphadec] *)

(** *** The text of [toISOString] *)

Lemma InLeapYear_leap (t : Z) :
  let y := YearFromTime t in
  JSDateFields.InLeapYear t
  = (if (y mod 4 =? 0) && negb (y mod 100 =? 0) || (y mod 400 =? 0)
     then 1 else 0).
Proof.
  intros y. unfold JSDateFields.InLeapYear, JSDateFields.DaysInYear. fold y.
  destruct (y mod 4 =? 0) eqn:E4; destruct (y mod 100 =? 0) eqn:E100;
    destruct (y mod 400 =? 0) eqn:E400; cbn; try reflexivity;
    exfalso;
    repeat match goal with
           | H : (_ =? _) = true |- _ => apply Z.eqb_eq in H
           | H : (_ =? _) = false |- _ => apply Z.eqb_neq in H
           end; zdiv.
Qed.

Lemma DayWithinYear_range (t : Z) :
  0 <= JSDateFields.DayWithinYear t < 365 + JSDateFields.InLeapYear t.
Proof.
  pose proof (YearFromTime_spec t) as S.
  pose proof (DayFromYear_succ (YearFromTime t)) as D.
  rewrite InLeapYear_leap. cbv zeta.
  unfold JSDateFields.DayWithinYear, Day, TimeFromYear, msPerDay in *.
  revert S D.
  generalize (DayFromYear (YearFromTime t + 1)) (DayFromYear (YearFromTime t)).
  intros d1 d0 S D.
  destruct ((YearFromTime t mod 4 =? 0) && negb (YearFromTime t mod 100 =? 0)
            || (YearFromTime t mod 400 =? 0)); zdiv.
Qed.

Lemma InLeapYear_range (t : Z) : 0 <= JSDateFields.InLeapYear t <= 1.
Proof.
  unfold JSDateFields.InLeapYear.
  destruct (JSDateFields.DaysInYear (YearFromTime t) =? 366); lia.
Qed.

Lemma month_and_date_range (t : Z) :
  0 <= JSDateFields.MonthFromTime t <= 11
  /\ 1 <= JSDateFields.DateFromTime t <= 31.
Proof.
  pose proof (DayWithinYear_range t) as Hd.
  pose proof (InLeapYear_range t) as HL.
  unfold JSDateFields.DateFromTime, JSDateFields.MonthFromTime. cbv zeta.
  revert Hd HL.
  generalize (JSDateFields.DayWithinYear t) (JSDateFields.InLeapYear t).
  intros d L Hd HL.
  repeat match goal with
         | |- context [if ?a <? ?b then _ else _] =>
             destruct (Z.ltb_spec a b)
         end; lia.
Qed.

Lemma isDigit_not_literal (c l : ascii) :
  isDigit c -> JSString.codeOf l < 48 \/ 57 < JSString.codeOf l ->
  JSString.inClass (JSString.Lit l) c = false.
Proof.
  unfold isDigit. cbn [JSString.inClass]. intros H N.
  apply andb_true_iff in H. destruct H as [H1 H2].
  apply Z.leb_le in H1, H2.
  destruct (Ascii.eqb c l) eqn:E; [| reflexivity].
  apply Ascii.eqb_eq in E. subst l. lia.
Qed.

Lemma isoRegex_shape
  (y1 y2 y3 y4 M1 M2 D1 D2 h1 h2 m1 m2 s1 s2 f1 f2 f3 : ascii) :
  isDigit y1 -> isDigit y2 -> isDigit y3 -> isDigit y4 ->
  isDigit M1 -> isDigit M2 -> isDigit D1 -> isDigit D2 ->
  isDigit h1 -> isDigit h2 -> isDigit m1 -> isDigit m2 ->
  isDigit s1 -> isDigit s2 -> isDigit f1 -> isDigit f2 -> isDigit f3 ->
  JSRegExp.test isoRegex
    (String y1 (String y2 (String y3 (String y4 (String "-"
      (String M1 (String M2 (String "-" (String D1 (String D2 (String "T"
        (String h1 (String h2 (String ":" (String m1 (String m2 (String ":"
          (String s1 (String s2 (String "."
            (String f1 (String f2 (String f3 (String "Z" EmptyString))))))))))))))))))))))))
  = true.
Proof.
  intros.
  assert (Z2 : JSString.inClass (JSString.Lit "Z") f2 = false)
    by (apply isDigit_not_literal; [assumption | right; vm_compute; reflexivity]).
  assert (Z3 : JSString.inClass (JSString.Lit "Z") f3 = false)
    by (apply isDigit_not_literal; [assumption | right; vm_compute; reflexivity]).
  unfold isDigit in *.
  assert (L1 : JSString.inClass (JSString.Lit "-") "-" = true) by reflexivity.
  assert (L2 : JSString.inClass (JSString.Lit "T") "T" = true) by reflexivity.
  assert (L3 : JSString.inClass (JSString.Lit ":") ":" = true) by reflexivity.
  assert (L4 : JSString.inClass (JSString.Lit ".") "." = true) by reflexivity.
  assert (L5 : JSString.inClass (JSString.Lit "Z") "Z" = true) by reflexivity.
  assert (N1 : JSString.inClass (JSString.Lit ".") ":" = false) by reflexivity.
  assert (N2 : JSString.inClass (JSString.Lit "Z") ":" = false) by reflexivity.
  assert (N3 : JSString.inClass (JSString.Lit "Z") "." = false) by reflexivity.
  unfold JSRegExp.test, isoRegex.
  cbn [fold_left JSRegExp.afterItem JSRegExp.afterAtoms flat_map app
       JSRegExp.afterRun JSRegExp.acls JSRegExp.lo JSRegExp.hi Nat.pred].
  repeat (rewrite ?L1, ?L2, ?L3, ?L4, ?L5, ?N1, ?N2, ?N3, ?Z2, ?Z3;
          repeat match goal with
                 | H : JSString.inClass JSString.Digit _ = true |- _ =>
                     rewrite H
                 end;
          cbn [fold_left JSRegExp.afterItem JSRegExp.afterAtoms flat_map app
               JSRegExp.afterRun JSRegExp.acls JSRegExp.lo JSRegExp.hi
               Nat.pred]).
  reflexivity.
Qed.

Lemma pad_fixed (k : nat) (n : Z) :
  0 <= n < 10 ^ Z.of_nat (S k) ->
  JSDateFields.pad n (S k) = fixedDigits (S k) n EmptyString.
Proof. apply padStart_fixed. Qed.

Lemma time_fields_range (t : Z) :
  0 <= JSDateFields.HourFromTime t <= 23
  /\ 0 <= JSDateFields.MinFromTime t <= 59
  /\ 0 <= JSDateFields.SecFromTime t <= 59
  /\ 0 <= JSDateFields.msFromTime t <= 999.
Proof.
  unfold JSDateFields.HourFromTime, JSDateFields.MinFromTime,
    JSDateFields.SecFromTime, JSDateFields.msFromTime.
  pose proof (Z.mod_pos_bound (t / 3600000) 24 eq_refl).
  pose proof (Z.mod_pos_bound (t / 60000) 60 eq_refl).
  pose proof (Z.mod_pos_bound (t / 1000) 60 eq_refl).
  pose proof (Z.mod_pos_bound t 1000 eq_refl).
  lia.
Qed.

Lemma isoRegex_refuses (c : ascii) (r : string) :
  JSString.inClass JSString.Digit c = false ->
  JSRegExp.test isoRegex (String c r) = false.
Proof.
  intros H. unfold JSRegExp.test, isoRegex.
  cbn [fold_left JSRegExp.afterItem JSRegExp.afterAtoms flat_map app
       JSRegExp.afterRun JSRegExp.acls JSRegExp.lo JSRegExp.hi Nat.pred].
  rewrite H.
  cbn [fold_left JSRegExp.afterItem JSRegExp.afterAtoms flat_map app
       JSRegExp.afterRun JSRegExp.acls JSRegExp.lo JSRegExp.hi Nat.pred
       existsb].
  reflexivity.
Qed.

(** The text of [toISOString] passes the format check of
    [utc_to_alphadec] exactly when the year has four digits. *)
Lemma toISOString_accepted_iff (t : Z) :
  JSRegExp.test isoRegex (JSDateFields.toISOString t) = true
  <-> 0 <= YearFromTime t <= 9999.
Proof.
  pose proof (month_and_date_range t) as (HM & HD).
  pose proof (time_fields_range t) as (Hh & Hm & Hs & Hf).
  unfold JSDateFields.toISOString. cbv zeta.
  destruct ((0 <=? YearFromTime t) && (YearFromTime t <=? 9999)) eqn:E.
  - apply andb_true_iff in E. destruct E as [E1 E2].
    apply Z.leb_le in E1, E2.
    split; [intros _; lia | intros _].
    rewrite (pad_fixed 3) by (change (10 ^ Z.of_nat 4) with 10000; lia).
    rewrite !(pad_fixed 1) by (change (10 ^ Z.of_nat 2) with 100; lia).
    rewrite (pad_fixed 2) by (change (10 ^ Z.of_nat 3) with 1000; lia).
    cbn [fixedDigits append].
    apply isoRegex_shape; apply isDigit_mod10.
  - assert (N : ~ 0 <= YearFromTime t <= 9999).
    { intros [H1 H2]. apply andb_false_iff in E.
      destruct E as [E | E]; apply Z.leb_gt in E; lia. }
    split; [| tauto]. intros H. exfalso.
    destruct (YearFromTime t <? 0); cbn [append] in H;
      rewrite isoRegex_refuses in H by reflexivity; discriminate.
Qed.

(** *** What the handler answers *)

Lemma YearFromTime_TimeFromYear (y : Z) : YearFromTime (TimeFromYear y) = y.
Proof.
  apply YearFromTime_unique. split; [lia |]. apply TimeFromYear_lt. lia.
Qed.

(** An instant less than two common years after the start of a year
    lies in that year or in the next. *)
Lemma YearFromTime_near (u d : Z) :
  0 <= d < 2 * 31536000000 ->
  u <= YearFromTime (TimeFromYear u + d) <= u + 1.
Proof.
  intros Hd.
  pose proof (YearFromTime_mono (TimeFromYear u) (TimeFromYear u + d)) as H1.
  rewrite YearFromTime_TimeFromYear in H1.
  assert (H2 : TimeFromYear u + d < TimeFromYear (u + 1 + 1)).
  { rewrite !TimeFromYear_succ.
    destruct (yearTotalMs_len u) as [-> | ->];
      destruct (yearTotalMs_len (u + 1)) as [-> | ->]; lia. }
  pose proof (YearFromTime_spec (TimeFromYear u + d)) as [S _].
  split; [lia |].
  destruct (Z_lt_le_dec (u + 1) (YearFromTime (TimeFromYear u + d)))
    as [L |]; [| assumption].
  exfalso.
  destruct (Z.eq_dec (u + 1 + 1) (YearFromTime (TimeFromYear u + d)))
    as [E | N].
  - rewrite <- E in S. lia.
  - pose proof (TimeFromYear_lt (u + 1 + 1)
                  (YearFromTime (TimeFromYear u + d))). lia.
Qed.

(** What the two versions decode from a string of the shape, with the
    year of the instant. *)
Lemma decode_year_bounds (s : string) :
  canonShape s ->
  (exists t, Cascade.decode s = Ok (Some t) /\ 100 <= YearFromTime t <= 10000)
  /\ (exists t, BeatIndex.decode s = Ok (Some t)
                /\ 100 <= YearFromTime t <= 10000).
Proof.
  intros Hs. destruct Hs as [y1 y2 y3 y4 P a B t m1 m2 m3 m4 m5 m6
                             H1 H2 H3 H4 HP Ha HB Ht Hm1 Hm2 Hm3 Hm4 Hm5 Hm6].
  rewrite Cascade_decode_shape, BeatIndex_decode_shape by assumption.
  cbv zeta.
  pose proof (digitVal_range _ H1). pose proof (digitVal_range _ H2).
  pose proof (digitVal_range _ H3). pose proof (digitVal_range _ H4).
  pose proof (digitVal_range _ Hm1). pose proof (digitVal_range _ Hm2).
  pose proof (digitVal_range _ Hm3). pose proof (digitVal_range _ Hm4).
  pose proof (digitVal_range _ Hm5). pose proof (digitVal_range _ Hm6).
  set (yv := value4 y1 y2 y3 y4).
  assert (Hyv : 0 <= yv <= 9999) by (unfold yv, value4; lia).
  pose proof (utcYear_range yv Hyv) as Hu.
  pose proof (yearTotalMs_len yv) as HY.
  set (k := beatOfChars P a B t).
  pose proof (beatOfChars_range P a B t HP Ha HB Ht) as Hk. fold k in Hk.
  pose proof (beatStartMs_range _ HY k Hk) as Hb.
  set (m := value6 m1 m2 m3 m4 m5 m6).
  assert (Hm : 0 <= m <= 999999) by (unfold m, value6; lia).
  assert (Ha0 : k mod 169 = 0 -> k <> 0 -> 1 <= beatStartMs (yearTotalMs yv) k).
  { intros E N. pose proof (aligned_exact _ HY k E) as Hx.
    pose proof (yearLen_pos _ HY). nia. }
  assert (HYb : yearTotalMs yv <= 31622400000) by (destruct HY; lia).
  split; eexists; (split; [reflexivity |]).
  - assert (Hd : 0 <= beatStartMs (yearTotalMs yv) k + m
                      - (if (k mod 169 =? 0) && negb (k =? 0) then 1 else 0)
                 < 2 * 31536000000).
    { destruct (k mod 169 =? 0) eqn:E1; [apply Z.eqb_eq in E1 |];
        (destruct (k =? 0) eqn:E0;
         [apply Z.eqb_eq in E0 | apply Z.eqb_neq in E0]);
        cbn [andb negb]; try specialize (Ha0 E1 E0); lia. }
    pose proof (YearFromTime_near (utcYear yv) _ Hd). lia.
  - assert (Hd : 0 <= beatStartMs (yearTotalMs yv) k + m < 2 * 31536000000)
      by lia.
    pose proof (YearFromTime_near (utcYear yv) _ Hd). lia.
Qed.

(** X15 (what [alphadec_to_utc] answers).  Whatever string is given and
    whichever version of the codec is in use, the direction
    [alphadec_to_utc] either refuses the string with the format error of
    the handler, when the string does not match the format, or prints the
    decoded instant without an error.  The error of [decode] and the
    error for an invalid date never show: the format check of the handler
    accepts exactly what [decode] accepts, and a string that matches
    always decodes to a date. *)
Theorem alphadec_to_utc_outcomes
  (parseDate : string -> option Z) (value : string) :
  let refused :=
    convertError ("Invalid AlphaDec format for " ++ dquote ++ "value" ++ dquote
                  ++ ": " ++ value ++ ". Expected YYYY_PaBt_MMMMMM.")%string in
  (matchesCanon value = false
   /\ clock_convert_alphadec cascade parseDate alphadec_to_utc value = refused
   /\ clock_convert_alphadec beatIndex parseDate alphadec_to_utc value = refused)
  \/ (matchesCanon value = true
      /\ (exists t, Cascade.decode value = Ok (Some t)
                    /\ clock_convert_alphadec cascade parseDate alphadec_to_utc
                         value
                       = alphadecToUtcAnswer value t)
      /\ (exists t, BeatIndex.decode value = Ok (Some t)
                    /\ clock_convert_alphadec beatIndex parseDate
                         alphadec_to_utc value
                       = alphadecToUtcAnswer value t)).
Proof.
  intros refused. unfold clock_convert_alphadec.
  rewrite regexTest_alphadecRegex.
  destruct (matchesCanon value) eqn:E; [right | left].
  - split; [reflexivity |]. cbn [negb decode cascade beatIndex].
    apply matchesCanon_iff in E.
    destruct (decode_year_bounds value E) as [(t1 & E1 & _) (t2 & E2 & _)].
    rewrite E1, E2. cbn [bind].
    split; eexists; split; reflexivity.
  - split; [reflexivity |]. cbn [negb]. split; reflexivity.
Qed.

(** X16 (the text that [alphadec_to_utc] prints).  For every string that
    matches the format, the decoded instant lies in the years 100 to
    10000, and its [toISOString] text passes the format check of the
    direction [utc_to_alphadec] exactly when the year is not 10000.  This
    holds in each version of the codec. *)
Theorem alphadec_to_utc_text_and_format_check
  (parseDate : string -> option Z) (value : string) :
  matchesCanon value = true ->
  let printed (alphadec : codec) :=
    exists t,
      clock_convert_alphadec alphadec parseDate alphadec_to_utc value
      = alphadecToUtcAnswer value t
      /\ 100 <= YearFromTime t <= 10000
      /\ (JSRegExp.test isoRegex (JSDateFields.toISOString t) = true
          <-> YearFromTime t <> 10000) in
  printed cascade /\ printed beatIndex.
Proof.
  intros E printed. unfold printed, clock_convert_alphadec.
  rewrite regexTest_alphadecRegex, E. cbn [negb decode cascade beatIndex].
  apply matchesCanon_iff in E.
  destruct (decode_year_bounds value E) as [(t1 & E1 & B1) (t2 & E2 & B2)].
  rewrite E1, E2. cbn [bind].
  split; eexists; (split; [reflexivity |]); (split; [eassumption |]);
    rewrite toISOString_accepted_iff; lia.
Qed.

Lemma alphadec_to_utc_text_and_format_check_witness :
  let printed (alphadec : codec) :=
    exists t,
      clock_convert_alphadec alphadec (fun _ => None) alphadec_to_utc
        "9999_Z9Z9_999999"
      = alphadecToUtcAnswer "9999_Z9Z9_999999" t
      /\ 100 <= YearFromTime t <= 10000
      /\ (JSRegExp.test isoRegex (JSDateFields.toISOString t) = true
          <-> YearFromTime t <> 10000) in
  printed cascade /\ printed beatIndex.
Proof.
  apply (alphadec_to_utc_text_and_format_check
           (fun _ => None) "9999_Z9Z9_999999").
  reflexivity.
Defined.

(** X17 (what [utc_to_alphadec] answers).  When the string passes the
    format check and the host reads it as a time value, the answer
    depends on the year of the instant only.  In the years 0 to 99, which
    pass the format check, the tool answers with the error of the letter
    helper of the codec.  In every other year but -271821 it prints the
    canonical string of the instant, the same in both versions. *)
Theorem utc_to_alphadec_outcomes
  (parseDate : string -> option Z) (value : string) (x : Z) :
  JSRegExp.test isoRegex value = true ->
  parseDate value = Some x ->
  Z.abs x <= maxTime ->
  let y := getUTCFullYear x in
  (0 <= y <= 99 ->
   clock_convert_alphadec cascade parseDate utc_to_alphadec value
   = convertError "Invalid index for Base26 single char conversion."
   /\ clock_convert_alphadec beatIndex parseDate utc_to_alphadec value
      = convertError "Invalid index for Base26.")
  /\ (~ 0 <= y <= 99 -> y <> -271821 ->
      exists r1 r2,
        Cascade.encode x = Ok r1 /\ BeatIndex.encode x = Ok r2
        /\ canonical r1 = canonical r2
        /\ clock_convert_alphadec cascade parseDate utc_to_alphadec value
           = utcToAlphadecAnswer value (canonical r1)
        /\ clock_convert_alphadec beatIndex parseDate utc_to_alphadec value
           = utcToAlphadecAnswer value (canonical r2)).
Proof.
  intros Ht Hp Hx y. unfold clock_convert_alphadec.
  rewrite Ht, Hp. cbn [negb encode cascade beatIndex].
  pose proof (inOwnYear_iff x Hx) as Hiff. fold y in Hiff.
  split.
  - intros Hy.
    assert (H99 : UTC_Jan1 y <> None)
      by (rewrite UTC_Jan1_parsed by lia; discriminate).
    assert (Nin : ~ inOwnYear x) by (intros Hin; apply Hiff in Hin; tauto).
    destruct (Cascade_encode_outcomes x) as [[Hin _] | [[_ E] | [E _]]];
      [tauto | | fold y in E; tauto].
    destruct (BeatIndex_encode_outcomes x) as [[Hin _] | [[_ E'] | [E' _]]];
      [tauto | | fold y in E'; tauto].
    rewrite E, E'. split; reflexivity.
  - intros N1 N2.
    assert (Hin : inOwnYear x) by (apply Hiff; tauto).
    destruct (inOwnYear_ms x Hin) as [Hms H].
    rewrite (Cascade_encode_arcs x _ Hms H), (BeatIndex_encode_arcs x _ Hms H).
    do 2 eexists. split; [reflexivity |]. split; [reflexivity |].
    cbn [bind]. repeat split.
Qed.

Lemma utc_to_alphadec_outcomes_witness :
  let parseDate := fun _ : string => Some (-60000000000000) in
  let value := "0068-09-03T13:20:00.000Z"%string in
  let y := getUTCFullYear (-60000000000000) in
  (0 <= y <= 99 ->
   clock_convert_alphadec cascade parseDate utc_to_alphadec value
   = convertError "Invalid index for Base26 single char conversion."
   /\ clock_convert_alphadec beatIndex parseDate utc_to_alphadec value
      = convertError "Invalid index for Base26.")
  /\ (~ 0 <= y <= 99 -> y <> -271821 ->
      exists r1 r2,
        Cascade.encode (-60000000000000) = Ok r1
        /\ BeatIndex.encode (-60000000000000) = Ok r2
        /\ canonical r1 = canonical r2
        /\ clock_convert_alphadec cascade parseDate utc_to_alphadec value
           = utcToAlphadecAnswer value (canonical r1)
        /\ clock_convert_alphadec beatIndex parseDate utc_to_alphadec value
           = utcToAlphadecAnswer value (canonical r2)).
Proof.
  apply (utc_to_alphadec_outcomes
           (fun _ => Some (-60000000000000)) "0068-09-03T13:20:00.000Z"
           (-60000000000000)).
  - reflexivity.
  - reflexivity.
  - vm_compute. discriminate.
Defined.

(** X18 (through the tool and back).  For an instant of the years 1000
    to 9999 that the host reads from a string that passes the format
    check, [utc_to_alphadec] prints a canonical string that
    [alphadec_to_utc] accepts, and [alphadec_to_utc] prints for it the
    instant itself or the millisecond before: the instant itself exactly
    in the first beat of the year with the cascade, and exactly in the
    beats whose index is a multiple of 169 with the beat-index version. *)
Theorem convert_tool_there_and_back
  (parseDate : string -> option Z) (value : string) (x : Z) :
  JSRegExp.test isoRegex value = true ->
  parseDate value = Some x ->
  validInstant x ->
  (exists c,
      clock_convert_alphadec cascade parseDate utc_to_alphadec value
      = utcToAlphadecAnswer value c
      /\ clock_convert_alphadec cascade parseDate alphadec_to_utc c
         = alphadecToUtcAnswer c
             (x - (if beatOfInstant x =? 0 then 0 else 1)))
  /\ (exists c,
         clock_convert_alphadec beatIndex parseDate utc_to_alphadec value
         = utcToAlphadecAnswer value c
         /\ clock_convert_alphadec beatIndex parseDate alphadec_to_utc c
            = alphadecToUtcAnswer c
                (x - (if beatOfInstant x mod 169 =? 0 then 0 else 1))).
Proof.
  intros Ht Hp Hv. unfold clock_convert_alphadec.
  rewrite Ht, Hp. cbn [negb encode decode cascade beatIndex].
  destruct (validInstant_ms x Hv) as [Hms H].
  assert (Hc : forall r : AlphaDec,
             (exists s e, r = gridRecord (getUTCFullYear x) (msInYear x) s e) ->
             regexTest alphadecRegex (canonical r) = true).
  { intros r (s & e & ->). rewrite regexTest_alphadecRegex.
    apply matchesCanon_iff.
    apply (gridRecord_canonical _ _ s e Hv H). }
  split.
  - destruct (Cascade_roundtrip x Hv) as (r & Henc & Hdec).
    assert (Hr : regexTest alphadecRegex (canonical r) = true).
    { apply Hc. rewrite (Cascade_encode_arcs x _ Hms H) in Henc.
      injection Henc as <-. eauto. }
    rewrite Henc. cbn [bind]. eexists. split; [reflexivity |].
    rewrite Hr, Hdec. reflexivity.
  - destruct (BeatIndex_roundtrip x Hv) as (r & Henc & Hdec).
    assert (Hr : regexTest alphadecRegex (canonical r) = true).
    { apply Hc. rewrite (BeatIndex_encode_arcs x _ Hms H) in Henc.
      injection Henc as <-. eauto. }
    rewrite Henc. cbn [bind]. eexists. split; [reflexivity |].
    rewrite Hr, Hdec. reflexivity.
Qed.

Lemma convert_tool_there_and_back_witness :
  let parseDate := fun _ : string => Some 1749486600001 in
  let value := "2025-06-09T16:30:00.001Z"%string in
  (exists c,
      clock_convert_alphadec cascade parseDate utc_to_alphadec value
      = utcToAlphadecAnswer value c
      /\ clock_convert_alphadec cascade parseDate alphadec_to_utc c
         = alphadecToUtcAnswer c
             (1749486600001
              - (if beatOfInstant 1749486600001 =? 0 then 0 else 1)))
  /\ (exists c,
         clock_convert_alphadec beatIndex parseDate utc_to_alphadec value
         = utcToAlphadecAnswer value c
         /\ clock_convert_alphadec beatIndex parseDate alphadec_to_utc c
            = alphadecToUtcAnswer c
                (1749486600001
                 - (if beatOfInstant 1749486600001 mod 169 =? 0
                    then 0 else 1))).
Proof.
  apply (convert_tool_there_and_back
           (fun _ => Some 1749486600001) "2025-06-09T16:30:00.001Z"
           1749486600001).
  - reflexivity.
  - reflexivity.
  - vm_compute; split; discriminate.
Defined.

(** ** The letter helper *)

(** X19 (letters and indexes).  [_toBase26] returns a letter exactly for
    the indexes 0 to 25 and throws for every other integer; the letter is
    a capital, and taking 65 off its character code, as [decode] and
    [alphadecToBeats] do, gives the index back.  This holds in each
    version of the codec. *)
Theorem toBase26_is_inverted_by_char_code (n : Z) :
  ((0 <= n <= 25
    /\ exists c, Cascade._toBase26 n = Ok (String c EmptyString)
                 /\ BeatIndex._toBase26 n = Ok (String c EmptyString)
                 /\ isUpper c
                 /\ JSString.charCodeAt0 (String c EmptyString) - 65 = n)
   \/ (~ 0 <= n <= 25
       /\ Cascade._toBase26 n
          = Throw (Error "Invalid index for Base26 single char conversion.")
       /\ BeatIndex._toBase26 n = Throw (Error "Invalid index for Base26."))).
Proof.
  destruct (Z_le_dec 0 n) as [H0 |]; [destruct (Z_le_dec n 25) as [H25 |] |].
  - left. split; [lia |]. exists (letterChar n).
    rewrite Cascade_toBase26_ok, BeatIndex_toBase26_ok by lia.
    repeat split.
    + apply isUpper_letterChar. lia.
    + change (String (letterChar n) EmptyString) with (letterOf n).
      rewrite charCodeAt0_letterOf by lia. lia.
  - right. split; [lia |].
    unfold Cascade._toBase26, BeatIndex._toBase26.
    replace (n >? 25) with true by (symmetry; apply Z.gtb_lt; lia).
    rewrite orb_true_r. split; reflexivity.
  - right. split; [lia |].
    unfold Cascade._toBase26, BeatIndex._toBase26.
    replace (n <? 0) with true by (symmetry; apply Z.ltb_lt; lia).
    split; reflexivity.
Qed.


(** ** The grid of beats, seen through [encode] and [decode] *)

Section FirstInstants.

Variable Y : Z.
Hypothesis HY : yearLen Y.

(** The first whole millisecond of beat [k] lies in beat [k]. *)
Lemma first_ms_of_beat (k : Z) :
  0 <= k < 67600 ->
  0 <= ceilDiv (Y * k) 67600 < Y
  /\ beatIndexOf Y (ceilDiv (Y * k) 67600) = k
  /\ offsetOf Y (ceilDiv (Y * k) 67600) = 0.
Proof.
  intros Hk. pose proof (yearLen_pos Y HY) as HYpos.
  rewrite (ceilDiv_beat_start Y HY).
  pose proof (beatStartMs_bounds Y k) as Hb.
  set (c := beatStartMs Y k + (if k mod 169 =? 0 then 0 else 1)).
  assert (Hc : Y * k <= c * 67600 < Y * k + 67600).
  { unfold c. destruct (k mod 169 =? 0) eqn:E.
    - apply Z.eqb_eq in E. pose proof (aligned_exact Y HY k E). lia.
    - apply Z.eqb_neq in E.
      assert (N : 67600 * beatStartMs Y k <> Y * k).
      { intros E'. apply E, (whole_ms_start_iff Y HY).
        rewrite <- E', Z.mul_comm. apply Z.mod_mul. lia. }
      lia. }
  assert (Hr : 0 <= c < Y) by (destruct HY as [-> | ->]; lia).
  assert (Ek : beatIndexOf Y c = k).
  { unfold beatIndexOf. symmetry. apply Z.div_unique_pos with (r := c * 67600 - Y * k).
    - destruct HY as [-> | ->]; lia.
    - ring. }
  split; [exact Hr |]. split; [exact Ek |].
  rewrite (offsetOf_ceil Y HY), Ek, (ceilDiv_beat_start Y HY). fold c. lia.
Qed.

End FirstInstants.

(** X20 (the first instant of every beat).  In every year from 1000 to
    9999 each of the 67600 beats holds an instant: the first whole
    millisecond at or after the exact start of beat [k] is encoded with
    the mixed-radix digits of [k] as period, arc, bar and beat and with
    the offset 0, so every unit block from [A0A0] to [Z9Z9] occurs with
    the suffix [000000].  This holds in each version of the codec. *)
Theorem first_instant_of_each_beat (y k : Z) :
  1000 <= y <= 9999 -> 0 <= k < 67600 ->
  let x := TimeFromYear y + ceilDiv (yearTotalMs y * k) 67600 in
  let c := canonOf y (k / 2600) (k mod 2600 / 260) (k mod 260 / 10) (k mod 10) 0 in
  getUTCFullYear x = y
  /\ (exists r, Cascade.encode x = Ok r /\ canonical r = c
                /\ msOffsetInBeat r = 0)
  /\ (exists r, BeatIndex.encode x = Ok r /\ canonical r = c
                /\ msOffsetInBeat r = 0).
Proof.
  intros Hy Hk x c.
  pose proof (yearTotalMs_len y) as HY.
  destruct (first_ms_of_beat _ HY k Hk) as (Hr & Ek & Eo).
  assert (Ey : getUTCFullYear x = y)
    by (apply getUTCFullYear_TimeFromYear; exact Hr).
  assert (Hv : validInstant x) by (unfold validInstant; rewrite Ey; exact Hy).
  destruct (validInstant_ms x Hv) as [Hms H].
  assert (Em : msInYear x = ceilDiv (yearTotalMs y * k) 67600)
    by (unfold msInYear; rewrite Ey; unfold x; lia).
  split; [exact Ey |].
  split; eexists.
  - split; [apply (Cascade_encode_arcs x _ Hms H) |].
    unfold gridRecord. cbn [canonical msOffsetInBeat].
    rewrite Ey, Em, Ek, Eo. split; reflexivity.
  - split; [apply (BeatIndex_encode_arcs x _ Hms H) |].
    unfold gridRecord. cbn [canonical msOffsetInBeat].
    rewrite Ey, Em, Ek, Eo. split; reflexivity.
Qed.

Lemma first_instant_of_each_beat_witness :
  let x := TimeFromYear 2025 + ceilDiv (yearTotalMs 2025 * 67599) 67600 in
  let c := canonOf 2025 (67599 / 2600) (67599 mod 2600 / 260)
             (67599 mod 260 / 10) (67599 mod 10) 0 in
  getUTCFullYear x = 2025
  /\ (exists r, Cascade.encode x = Ok r /\ canonical r = c
                /\ msOffsetInBeat r = 0)
  /\ (exists r, BeatIndex.encode x = Ok r /\ canonical r = c
                /\ msOffsetInBeat r = 0).
Proof. apply (first_instant_of_each_beat 2025 67599); lia. Defined.

(** X21 ([decode] adds the last field as it is).  For every string that
    matches the format, the decoded instant is the instant decoded from
    the same string with [000000] as last field, plus the number that the
    last six digits write; no bound is checked.  This holds in each
    version of the codec. *)
Theorem decode_adds_last_field
  (y1 y2 y3 y4 P a B t m1 m2 m3 m4 m5 m6 : ascii) :
  isDigit y1 -> isDigit y2 -> isDigit y3 -> isDigit y4 ->
  isUpper P -> isDigit a -> isUpper B -> isDigit t ->
  isDigit m1 -> isDigit m2 -> isDigit m3 ->
  isDigit m4 -> isDigit m5 -> isDigit m6 ->
  let head (last : string) :=
    String y1 (String y2 (String y3 (String y4 (String "_"
      (String P (String a (String B (String t (String "_" last))))))))) in
  let s :=
    head (String m1 (String m2 (String m3 (String m4 (String m5
            (String m6 EmptyString)))))) in
  (exists t0, Cascade.decode (head "000000"%string) = Ok (Some t0)
              /\ Cascade.decode s
                 = Ok (Some (t0 + value6 m1 m2 m3 m4 m5 m6)))
  /\ (exists t0, BeatIndex.decode (head "000000"%string) = Ok (Some t0)
                 /\ BeatIndex.decode s
                    = Ok (Some (t0 + value6 m1 m2 m3 m4 m5 m6))).
Proof.
  intros H1 H2 H3 H4 HP Ha HB Ht Hm1 Hm2 Hm3 Hm4 Hm5 Hm6 head s.
  assert (D0 : isDigit "0") by reflexivity.
  unfold s, head.
  rewrite !Cascade_decode_shape, !BeatIndex_decode_shape by assumption.
  cbv zeta. change (value6 "0" "0" "0" "0" "0" "0") with 0.
  split; eexists; (split; [reflexivity |]); do 2 f_equal; lia.
Qed.

Lemma decode_adds_last_field_witness :
  (exists t0, Cascade.decode "2025_L3T5_000000" = Ok (Some t0)
              /\ Cascade.decode "2025_L3T5_999999"
                 = Ok (Some (t0 + value6 "9" "9" "9" "9" "9" "9")))
  /\ (exists t0, BeatIndex.decode "2025_L3T5_000000" = Ok (Some t0)
                 /\ BeatIndex.decode "2025_L3T5_999999"
                    = Ok (Some (t0 + value6 "9" "9" "9" "9" "9" "9"))).
Proof.
  apply (decode_adds_last_field
           "2" "0" "2" "5" "L" "3" "T" "5" "9" "9" "9" "9" "9" "9");
    reflexivity.
Defined.
